(** * 3dmap: tile geometry, Terrain-RGB decoding, artifact filtering and
      mesh displacement

    A shallow embedding of the terrain pipeline of the 3dmap application
    ([lib/tileUtils.ts], [lib/tileStitcher.ts], [lib/terrainFilters.ts], the
    displacement effect and the heatmap of [components/MapCanvas.tsx], the
    sampler of the GeoTIFF utilities and the feature loop of the buildings
    route) together with the properties its specification states about it
    and further properties of the code.

    Conventions of the embedding.
    - A JavaScript [number] that holds an index, a byte or a tile
      coordinate is a [Z]; any other [number] is an exact rational [Q].
      Rounding of binary64/binary32 and the special values NaN and
      Infinity are not modelled; equalities between heights are therefore
      stated with [==] ([Qeq]).
    - A typed array ([Uint8ClampedArray], [Float32Array]) is a list; a read
      is [get], in range at every use the code makes on a well-formed
      raster; a write is [set], which like a typed array ignores an index
      out of range.
    - A counting [for] loop is the list of the values its variable takes
      ([forRange], [forRangeIncl]), consumed by [map], [flat_map] or
      [fold_left] in the order of the loop.
    - Functions of libraries the code imports ([@mapbox/tilebelt], [Math]'s
      transcendental functions, [fetch]) are Section variables. *)

From Stdlib Require Import String Ascii.
From Stdlib Require Import ZArith QArith Qminmax Qround Qabs DecimalString.
From Stdlib Require Import List Sorted Permutation Lia Lqa Bool FinFun.
From Stdlib Require DecimalPos DecimalZ.
Import ListNotations.

Open Scope Z_scope.

(** ** Typed arrays and loops *)

(** [arr[i]]: the element at index [i]; [d] stands for the value read out
    of range, which no guarded read of the code reaches. *)
Definition get {A : Type} (arr : list A) (i : Z) (d : A) : A :=
  if i <? 0 then d else nth (Z.to_nat i) arr d.

Fixpoint set_nat {A : Type} (arr : list A) (i : nat) (v : A) : list A :=
  match arr, i with
  | [], _ => []
  | _ :: rest, O => v :: rest
  | a :: rest, S j => a :: set_nat rest j v
  end.

(** [arr[i] = v] on a typed array: no effect out of range. *)
Definition set {A : Type} (arr : list A) (i : Z) (v : A) : list A :=
  if i <? 0 then arr else set_nat arr (Z.to_nat i) v.

(** [for (let i = lo; i < hi; i++)]: the values of [i], in order. *)
Definition forRange (lo hi : Z) : list Z :=
  map (fun k => lo + Z.of_nat k) (seq 0 (Z.to_nat (hi - lo))).

(** [for (let i = lo; i <= hi; i++)]. *)
Definition forRangeIncl (lo hi : Z) : list Z := forRange lo (hi + 1).

(** [Math.min(...l)] and [Math.max(...l)] of a list that is not empty. *)
Definition minOf (l : list Q) : Q :=
  match l with [] => 0%Q | a :: rest => fold_left Qmin rest a end.

Definition maxOf (l : list Q) : Q :=
  match l with [] => 0%Q | a :: rest => fold_left Qmax rest a end.

(** [a < b] on rationals, as a boolean. *)
Definition Qltb (a b : Q) : bool := negb (Qle_bool b a).

(** An element of a [Uint8ClampedArray]. *)
Definition isByte (c : Z) : Prop := 0 <= c <= 255.

(** The DOM's [ImageData]: the code reads only [data], the RGBA bytes of the
    pixels, row by row. *)
Record ImageData : Type := mkImageData { data : list Z }.

(** ** lib/tileUtils.ts *)

Module TileUtils.

Record BoundingBox : Type := mkBoundingBox {
  minLon : Q;
  minLat : Q;
  maxLon : Q;
  maxLat : Q
}.

Record TileCoord : Type := mkTileCoord {
  x : Z;
  y : Z;
  z : Z
}.

Inductive TileStyle : Type :=
| Satellite
| SatelliteV9
| SatelliteStreets
| Streets
| TerrainRgb.

(** The test [parseBoundingBox] applies to the four parsed numbers: a box
    passes when none of the rejecting comparisons holds. *)
Definition isValidBoundingBox (bbox : BoundingBox) : bool :=
  negb (Qle_bool (maxLon bbox) (minLon bbox)
        || Qle_bool (maxLat bbox) (minLat bbox)
        || Qltb (minLon bbox) (-180) || Qltb 180 (maxLon bbox)
        || Qltb (minLat bbox) (-90) || Qltb 90 (maxLat bbox)).

(** [b] lies inside [b']. *)
Definition containedIn (b b' : BoundingBox) : Prop :=
  (minLon b' <= minLon b /\ maxLon b <= maxLon b' /\
   minLat b' <= minLat b /\ maxLat b <= maxLat b')%Q.

Definition defaultMaxTiles : Z := 16.

(** The nested loops [for (x ...) for (y ...) tiles.push({ x, y, z: zoom })]
    of [getTilesForBoundingBox], over the values [x] and [y] take. *)
Definition tileGrid (xs ys : list Z) (zoom : Z) : list TileCoord :=
  flat_map (fun x => map (fun y => mkTileCoord x y zoom) ys) xs.

Section Tilebelt.

(** [tilebelt.pointToTile(lon, lat, z)]: the tile [[x, y]] that holds
    the point at zoom [z], where both indices are integers, that is at
    every latitude strictly between the poles. At a latitude of exactly 90
    or -90 the library computes an infinite row; the functions of this
    section are the code on boxes that do not touch a pole, and
    [getTilesForBoundingBoxWithin] below is [getTilesForBoundingBox] on all
    boxes. *)
Variable pointToTile : Q -> Q -> Z -> Z * Z.

(** [tilebelt.tileToBBOX([x, y, z])]: [[west, south, east, north]]. *)
Variable tileToBBOX : Z * Z * Z -> Q * Q * Q * Q.

(** [totalTiles] of one iteration of [calculateZoomLevel]: the number of
    tiles between the corners of the box at zoom [z]. *)
Definition totalTiles (bbox : BoundingBox) (z : Z) : Z :=
  let topLeft := pointToTile (minLon bbox) (maxLat bbox) z in
  let bottomRight := pointToTile (maxLon bbox) (minLat bbox) z in
  let tilesX := Z.abs (fst bottomRight - fst topLeft) + 1 in
  let tilesY := Z.abs (snd bottomRight - snd topLeft) + 1 in
  tilesX * tilesY.

(** The loop [for (z = 0; z <= 18; z++) { ... else break; }] over the
    zooms still to visit; [zoom] is the variable it updates. *)
Fixpoint zoomLoop (bbox : BoundingBox) (maxTiles : Z) (zs : list Z)
    (zoom : Z) : Z :=
  match zs with
  | [] => zoom
  | z :: rest =>
      if totalTiles bbox z <=? maxTiles
      then zoomLoop bbox maxTiles rest z
      else zoom
  end.

(** [maxTiles] is the tile budget, 16 when the caller passes none; the
    unused [lonDiff] and [latDiff] are left out. *)
Definition calculateZoomLevel (bbox : BoundingBox) (maxTiles : Z) : Z :=
  let zoom := zoomLoop bbox maxTiles (forRangeIncl 0 18) 10 in
  Z.max 8 (Z.min zoom 15).

(** The list the two loops build when the rows of both corners are
    integers; [getTilesForBoundingBoxWithin] runs the loops on every box. *)
Definition getTilesForBoundingBox (bbox : BoundingBox) (zoom : Z)
    : list TileCoord :=
  let topLeft := pointToTile (minLon bbox) (maxLat bbox) zoom in
  let bottomRight := pointToTile (maxLon bbox) (minLat bbox) zoom in
  let minX := Z.min (fst topLeft) (fst bottomRight) in
  let maxX := Z.max (fst topLeft) (fst bottomRight) in
  let minY := Z.min (snd topLeft) (snd bottomRight) in
  let maxY := Z.max (snd topLeft) (snd bottomRight) in
  tileGrid (forRangeIncl minX maxX) (forRangeIncl minY maxY) zoom.

Definition tileToBoundingBox (tile : TileCoord) : BoundingBox :=
  let '(w, s, e, n) := tileToBBOX (x tile, y tile, z tile) in
  mkBoundingBox w s e n.

End Tilebelt.

(** A tile row as [tilebelt.pointToTile] returns it: an integer, or
    [-Infinity] at the latitude 90 and [Infinity] at the latitude -90, where
    the logarithm of the projection diverges. *)
Inductive Row : Type :=
| NegInfinity
| Integer (n : Z)
| Infinity.

(** [a <= b], [Math.min(a, b)], [Math.max(a, b)] and [y++] on rows. *)
Definition leRow (a b : Row) : bool :=
  match a, b with
  | NegInfinity, _ => true
  | _, Infinity => true
  | Integer m, Integer n => m <=? n
  | _, _ => false
  end.

Definition minRow (a b : Row) : Row := if leRow a b then a else b.

Definition maxRow (a b : Row) : Row := if leRow a b then b else a.

Definition nextRow (y : Row) : Row :=
  match y with
  | Integer n => Integer (n + 1)
  | NegInfinity => NegInfinity
  | Infinity => Infinity
  end.

(** A tile [{ x, y, z }] whose row may be infinite. *)
Definition polarTile (tile : TileCoord) : Z * Row * Z :=
  (x tile, Integer (y tile), z tile).

Section TilebeltAtPoles.

(** [tilebelt.pointToTile] at every latitude. *)
Variable pointToTileAtPoles : Q -> Q -> Z -> Z * Row.

(** The loop [for (let y = minY; y <= maxY; y++) tiles.push({ x, y, z })]
    run for at most [fuel] tests of its condition: [None] when it has not
    ended by then. *)
Fixpoint rowLoop (fuel : nat) (x : Z) (y maxY : Row) (zoom : Z)
    (tiles : list (Z * Row * Z)) : option (list (Z * Row * Z)) :=
  match fuel with
  | O => None
  | S fuel =>
      if leRow y maxY
      then rowLoop fuel x (nextRow y) maxY zoom (tiles ++ [(x, y, zoom)])
      else Some tiles
  end.

(** The loop over [x], each of its inner loops run for at most [fuel]
    tests. *)
Fixpoint columnLoop (fuel : nat) (xs : list Z) (minY maxY : Row) (zoom : Z)
    (tiles : list (Z * Row * Z)) : option (list (Z * Row * Z)) :=
  match xs with
  | [] => Some tiles
  | x :: rest =>
      match rowLoop fuel x minY maxY zoom tiles with
      | Some tiles => columnLoop fuel rest minY maxY zoom tiles
      | None => None
      end
  end.

(** [getTilesForBoundingBox] on every box: what it returns, or [None] when
    a loop over [y] is still running after [fuel] tests. *)
Definition getTilesForBoundingBoxWithin (fuel : nat) (bbox : BoundingBox)
    (zoom : Z) : option (list (Z * Row * Z)) :=
  let topLeft := pointToTileAtPoles (minLon bbox) (maxLat bbox) zoom in
  let bottomRight := pointToTileAtPoles (maxLon bbox) (minLat bbox) zoom in
  let minX := Z.min (fst topLeft) (fst bottomRight) in
  let maxX := Z.max (fst topLeft) (fst bottomRight) in
  let minY := minRow (snd topLeft) (snd bottomRight) in
  let maxY := maxRow (snd topLeft) (snd bottomRight) in
  columnLoop fuel (forRangeIncl minX maxX) minY maxY zoom [].

End TilebeltAtPoles.

(** A number inside a template literal. *)
Definition showZ (n : Z) : string := NilZero.string_of_int (Z.to_int n).

Definition getMapboxTileUrl (tile : TileCoord) (style : TileStyle)
    (token : string) : string :=
  let path := (showZ (z tile) ++ "/" ++ showZ (x tile) ++ "/"
               ++ showZ (y tile))%string in
  match style with
  | Satellite =>
      "https://api.mapbox.com/v4/mapbox.satellite/" ++ path
      ++ "@2x.jpg?access_token=" ++ token
  | SatelliteV9 =>
      "https://api.mapbox.com/styles/v1/mapbox/satellite-v9/tiles/512/"
      ++ path ++ "@2x?access_token=" ++ token
  | SatelliteStreets =>
      "https://api.mapbox.com/styles/v1/mapbox/satellite-streets-v12/tiles/512/"
      ++ path ++ "@2x?access_token=" ++ token
  | Streets =>
      "https://api.mapbox.com/styles/v1/mapbox/outdoors-v12/tiles/512/"
      ++ path ++ "@2x?access_token=" ++ token
  | TerrainRgb =>
      "https://api.mapbox.com/v4/mapbox.terrain-rgb/" ++ path
      ++ "@2x.png?access_token=" ++ token
  end%string.



(** The decoder the stitcher imports: no cap. *)
Definition terrainRGBToHeight (r g b : Z) : Q :=
  (-10000 + (inject_Z (r * 256 * 256 + g * 256 + b) * 0.1))%Q.

(** [s.split(',')]: the pieces between the commas, at least one. *)
Fixpoint splitComma (s : string) : list string :=
  match s with
  | EmptyString => [EmptyString]
  | String c rest =>
      if Ascii.eqb c ","%char then EmptyString :: splitComma rest
      else match splitComma rest with
           | [] => [String c EmptyString]
           | piece :: pieces => String c piece :: pieces
           end
  end.

(** The number of commas of a string. *)
Fixpoint countCommas (s : string) : nat :=
  match s with
  | EmptyString => 0
  | String c rest =>
      if Ascii.eqb c ","%char then S (countCommas rest) else countCommas rest
  end.

Section Parsing.

(** [s.trim()]. *)
Variable trim : string -> string.

(** [parseFloat(s)] when it is a finite number; [None] stands for [NaN]
    and for the two infinities, which the tests of [parseBoundingBox]
    reject like [NaN]: an infinite coordinate is beyond a world bound or
    on the wrong side of its opposite bound. *)
Variable parseFloat : string -> option Q.

Definition parseBoundingBox (input : string) : option BoundingBox :=
  let parts := map trim (splitComma input) in
  if negb (Z.of_nat (length parts) =? 4) then None
  else
    match map parseFloat parts with
    | [Some minLon; Some minLat; Some maxLon; Some maxLat] =>
        if Qle_bool maxLon minLon || Qle_bool maxLat minLat
           || Qltb minLon (-180) || Qltb 180 maxLon
           || Qltb minLat (-90) || Qltb 90 maxLat
        then None
        else Some (mkBoundingBox minLon minLat maxLon maxLat)
    | _ => None
    end.

End Parsing.

End TileUtils.

(** ** lib/terrainFilters.ts

    The revision with the absolute cap of the decoder and the Hampel
    filter. *)

Module TerrainFilters.

Open Scope Q_scope.

(** [type FilterMethod = 'none' | 'capping' | 'median'] *)
Inductive FilterMethod : Type :=
| FilterNone
| FilterCapping
| FilterMedian.

Definition MAX_SPIKE_HEIGHT : Q := 3500.
Definition ABSOLUTE_MAX_HEIGHT : Q := 8000.
Definition HAMPEL_THRESHOLD_MULTIPLIER : Q := 3.0.

(** The decoder of the filters: the affine Terrain-RGB value, capped. *)
Definition terrainRGBToHeight (r g b : Z) : Q :=
  let height := -10000 + (inject_Z (r * 256 * 256 + g * 256 + b) * 0.1) in
  Qmin height ABSOLUTE_MAX_HEIGHT.

(** The decoding loop shared by the three filters:
    [for (i = 0; i < width * height; i++) out[i] = f(decode(data[4i..]))]. *)
Definition decodeWith (f : Q -> Q) (imageData : ImageData)
    (width height : Z) : list Q :=
  map (fun i =>
         let idx := (i * 4)%Z in
         let r := get (data imageData) idx 0%Z in
         let g := get (data imageData) (idx + 1)%Z 0%Z in
         let b := get (data imageData) (idx + 2)%Z 0%Z in
         f (terrainRGBToHeight r g b))
      (forRange 0 (width * height)).

Definition applyCappingFilter (imageData : ImageData) (width height : Z)
    : list Q :=
  decodeWith (fun elevation => Qmin elevation MAX_SPIKE_HEIGHT)
             imageData width height.

Definition applyNoFilter (imageData : ImageData) (width height : Z)
    : list Q :=
  decodeWith (fun elevation => elevation) imageData width height.

(** [[...values].sort((a, b) => a - b)]: ascending, stable. *)
Fixpoint insertSorted (v : Q) (sorted : list Q) : list Q :=
  match sorted with
  | [] => [v]
  | w :: rest => if Qle_bool v w then v :: sorted
                 else w :: insertSorted v rest
  end.

Definition sortAscending (values : list Q) : list Q :=
  fold_right insertSorted [] values.

Definition calculateMedian (values : list Q) : Q :=
  let sorted := sortAscending values in
  let len := Z.of_nat (length sorted) in
  let mid := (len / 2)%Z in
  if (len mod 2 =? 0)%Z
  then (get sorted (mid - 1)%Z 0 + get sorted mid 0) / 2
  else get sorted mid 0.

(** The in-bounds samples of the 5x5 window around [(x, y)], rows first. *)
Definition get5x5KernelHeights (heights : list Q) (width height x y : Z)
    : list Q :=
  flat_map (fun dy =>
    flat_map (fun dx =>
      let nx := (x + dx)%Z in
      let ny := (y + dy)%Z in
      if ((nx >=? 0) && (nx <? width) && (ny >=? 0) && (ny <? height))%Z
      then [get heights (ny * width + nx)%Z 0]
      else [])
    (forRangeIncl (-2) 2))
  (forRangeIncl (-2) 2).

Definition calculateMAD (values : list Q) (median : Q) : Q :=
  let absoluteDeviations := map (fun v => Qabs (v - median)) values in
  calculateMedian absoluteDeviations.

(** One iteration of the body of the nested [y]/[x] loops of
    [applyHampelFilter]: reads [heights], writes [filtered]. *)
Definition hampelPixel (heights : list Q) (width height : Z)
    (filtered : list Q) (yx : Z * Z) : list Q :=
  let '(y, x) := yx in
  let idx := (y * width + x)%Z in
  let centerHeight := get heights idx 0 in
  let kernelHeights := get5x5KernelHeights heights width height x y in
  if (Z.of_nat (length kernelHeights) >=? 9)%Z then
    let localMedian := calculateMedian kernelHeights in
    let mad := calculateMAD kernelHeights localMedian in
    let epsilon := 0.01 in
    let threshold := HAMPEL_THRESHOLD_MULTIPLIER * (mad + epsilon) in
    let deviation := Qabs (centerHeight - localMedian) in
    let isSpike := Qltb threshold deviation in
    if isSpike then set filtered idx localMedian else filtered
  else filtered.

(** The pixels in the order the nested loops visit them. *)
Definition pixelOrder (width height : Z) : list (Z * Z) :=
  flat_map (fun y => map (fun x => (y, x)) (forRange 0 width))
           (forRange 0 height).

Definition applyHampelFilter (imageData : ImageData) (width height : Z)
    : list Q :=
  let heights := decodeWith (fun h => h) imageData width height in
  let filtered := heights in
  fold_left (hampelPixel heights width height)
            (pixelOrder width height) filtered.

Definition applyTerrainFilter (imageData : ImageData) (width height : Z)
    (filterMethod : FilterMethod) : list Q :=
  match filterMethod with
  | FilterCapping => applyCappingFilter imageData width height
  | FilterMedian => applyHampelFilter imageData width height
  | FilterNone => applyNoFilter imageData width height
  end.

(** A raster the filters are meant for: [width * height] RGBA pixels of
    bytes. *)
Definition wellFormed (imageData : ImageData) (width height : Z) : Prop :=
  (0 <= width)%Z /\ (0 <= height)%Z /\
  Z.of_nat (length (data imageData)) = (4 * (width * height))%Z /\
  Forall (fun c => 0 <= c <= 255)%Z (data imageData).

(** [f] is the height [h] itself or the median of some samples of the
    field [heights]. *)
Definition keptOrMedian (heights : list Q) (h f : Q) : Prop :=
  f = h \/
  exists kernel : list Q,
    kernel <> [] /\ incl kernel heights /\ f = calculateMedian kernel.

End TerrainFilters.

(** ** lib/tileStitcher.ts *)

Module TileStitcher.

Import TileUtils.

(** What [stitchTiles] does to the outside world, in the order in which it
    happens. *)
Inductive Effect : Type :=
| CreateCanvas (width height : Z)
| Fetch (url : string)
| DrawImage (dx dy dw dh : Z)
| FillRect (fillStyle : string) (dx dy dw dh : Z)
| DrawCanvas (sx sy sw sh : Q) (dw dh : Z)
| GetImageData (sw sh : Z).

(** How an [async] function settles: the promise rejects with an [Error]
    or resolves with a value. *)
Inductive Outcome (A : Type) : Type :=
| Threw (message : string)
| Returned (value : A).

Arguments Threw {A} message.
Arguments Returned {A} value.

(** The resolved value: the size of the cropped canvas, and the size of
    its [ImageData] when the style is terrain-rgb. *)
Record Stitched : Type := mkStitched {
  canvas : Z * Z;
  imageData : option (Z * Z)
}.

(** [Array.from(map.keys())]: the distinct keys, by first insertion. *)
Fixpoint keysOf (seen : list Z) (ks : list Z) : list Z :=
  match ks with
  | [] => []
  | k :: rest =>
      if existsb (Z.eqb k) seen then keysOf seen rest
      else k :: keysOf (k :: seen) rest
  end.

Fixpoint insertZ (v : Z) (sorted : list Z) : list Z :=
  match sorted with
  | [] => [v]
  | w :: rest => if v <=? w then v :: sorted else w :: insertZ v rest
  end.

(** [.sort((a, b) => a - b)] on integers. *)
Definition sortZ (l : list Z) : list Z := fold_right insertZ [] l.

(** [arr.indexOf(v)]: the first position of [v], or [-1]. *)
Fixpoint indexOf (arr : list Z) (v : Z) : Z :=
  match arr with
  | [] => -1
  | a :: rest =>
      if a =? v then 0
      else let i := indexOf rest v in if i <? 0 then -1 else i + 1
  end.

Section Environment.

Variable tileToBBOX : Z * Z * Z -> Q * Q * Q * Q.

(** Whether fetching and decoding the image at a URL succeeds. *)
Variable fetchTile : string -> bool.

(** The order in which the promises of the tiles come to paint.
    [tiles.map(async ...)] runs the body of every tile up to its first
    [await], so the fetches of all tiles are issued, in the order of the
    list, before any tile is painted; each promise paints its cell when its
    own response has arrived and been decoded (or has failed), in an order
    the network decides. When all promises settle, [arrivalOrder tiles] is a
    permutation of [tiles]. *)
Variable arrivalOrder : list TileCoord -> list TileCoord.

Definition stitchTiles (tiles : list TileCoord) (bbox : BoundingBox)
    (style : TileStyle) (token : string) : list Effect * Outcome Stitched :=
  if Z.of_nat (length tiles) =? 0 then ([], Threw "No tiles provided")
  else
    let tileBboxes := map (tileToBoundingBox tileToBBOX) tiles in
    let minLon := minOf (map TileUtils.minLon tileBboxes) in
    let maxLon := maxOf (map TileUtils.maxLon tileBboxes) in
    let minLat := minOf (map TileUtils.minLat tileBboxes) in
    let maxLat := maxOf (map TileUtils.maxLat tileBboxes) in
    let tileSize := 512 in
    let xCoords := sortZ (keysOf [] (map x tiles)) in
    let yCoords := sortZ (keysOf [] (map y tiles)) in
    let canvasWidth := Z.of_nat (length xCoords) * tileSize in
    let canvasHeight := Z.of_nat (length yCoords) * tileSize in
    let fetches :=
      map (fun tile => Fetch (getMapboxTileUrl tile style token)) tiles in
    let paints :=
      map (fun tile =>
        let url := getMapboxTileUrl tile style token in
        let px := indexOf xCoords (x tile) * tileSize in
        let py := indexOf yCoords (y tile) * tileSize in
        if fetchTile url then DrawImage px py tileSize tileSize
        else FillRect "#808080" px py tileSize tileSize)
      (arrivalOrder tiles) in
    let lonRange := (maxLon - minLon)%Q in
    let latRange := (maxLat - minLat)%Q in
    let startX :=
      ((TileUtils.minLon bbox - minLon) / lonRange * inject_Z canvasWidth)%Q in
    let startY :=
      ((maxLat - TileUtils.maxLat bbox) / latRange * inject_Z canvasHeight)%Q in
    let cropWidth :=
      ((TileUtils.maxLon bbox - TileUtils.minLon bbox) / lonRange
       * inject_Z canvasWidth)%Q in
    let cropHeight :=
      ((TileUtils.maxLat bbox - TileUtils.minLat bbox) / latRange
       * inject_Z canvasHeight)%Q in
    let croppedWidth := Qceiling cropWidth in
    let croppedHeight := Qceiling cropHeight in
    let isTerrain :=
      match style with TerrainRgb => true | _ => false end in
    ([CreateCanvas canvasWidth canvasHeight]
       ++ fetches
       ++ paints
       ++ [CreateCanvas croppedWidth croppedHeight;
           DrawCanvas (Qmax 0 startX) (Qmax 0 startY) cropWidth cropHeight
                      croppedWidth croppedHeight]
       ++ (if isTerrain then [GetImageData croppedWidth croppedHeight]
           else []),
     Returned
       (mkStitched (croppedWidth, croppedHeight)
          (if isTerrain then Some (croppedWidth, croppedHeight) else None))).

End Environment.

(** The effects of the promises of the tiles. *)
Definition tileEffect (e : Effect) : Prop :=
  match e with
  | Fetch _ | DrawImage _ _ _ _ | FillRect _ _ _ _ _ => True
  | _ => False
  end.

Definition createHeightmapFromTerrainRGB (imageData : ImageData)
    (width height : Z) : list Q :=
  map (fun i =>
         let idx := i * 4 in
         let r := get (data imageData) idx 0 in
         let g := get (data imageData) (idx + 1) 0 in
         let b := get (data imageData) (idx + 2) 0 in
         terrainRGBToHeight r g b)
      (forRange 0 (width * height)).

End TileStitcher.

(** ** components/MapCanvas.tsx: the displacement effect of [TerrainMesh]

    The revision with the two scale modes. The effect is a function of the
    properties of the component: it filters the raster, scans the extremes,
    derives [baseScale] and writes one elevation per vertex. *)

Module MapCanvas.

Import TileUtils TerrainFilters.
Open Scope Q_scope.

Definition planeWidth : Q := 10.

(** The scan for the extremes of the filtered field. [None] is the state
    before the first element, when the two variables still hold
    [Infinity] and [-Infinity]. *)
Definition elevationStats (filteredHeights : list Q) : option (Q * Q) :=
  fold_left
    (fun stats elevation =>
       match stats with
       | None => Some (elevation, elevation)
       | Some (minElevation, maxElevation) =>
           Some (if Qltb elevation minElevation then elevation
                 else minElevation,
                 if Qltb maxElevation elevation then elevation
                 else maxElevation)
       end)
    filteredHeights None.

(** [sampleHeight(x, y)] of the effect. *)
Definition sampleHeight (filteredHeights : list Q)
    (terrainWidth terrainHeight : Z) (x y : Q) : Q :=
  let px := Z.max 0 (Z.min (Qfloor x) (terrainWidth - 1)) in
  let py := Z.max 0 (Z.min (Qfloor y) (terrainHeight - 1)) in
  get filteredHeights (py * terrainWidth + px)%Z 0.

(** The bilinear sample at the UV coordinates [(u, v)]: [elevationMeters]
    of the vertex loop. *)
Definition bilinearSample (filteredHeights : list Q)
    (terrainWidth terrainHeight : Z) (u v : Q) : Q :=
  let terrainX := u * inject_Z (terrainWidth - 1) in
  let terrainY := v * inject_Z (terrainHeight - 1) in
  let x0 := Qfloor terrainX in
  let y0 := Qfloor terrainY in
  let x1 := Z.min (x0 + 1) (terrainWidth - 1) in
  let y1 := Z.min (y0 + 1) (terrainHeight - 1) in
  let fx := terrainX - inject_Z x0 in
  let fy := terrainY - inject_Z y0 in
  let sample := sampleHeight filteredHeights terrainWidth terrainHeight in
  let h00 := sample (inject_Z x0) (inject_Z y0) in
  let h10 := sample (inject_Z x1) (inject_Z y0) in
  let h01 := sample (inject_Z x0) (inject_Z y1) in
  let h11 := sample (inject_Z x1) (inject_Z y1) in
  let h0 := h00 * (1 - fx) + h10 * fx in
  let h1 := h01 * (1 - fx) + h11 * fx in
  h0 * (1 - fy) + h1 * fy.

(** The UV coordinates of vertex [i] of a plane of [segments] by
    [segments] cells. *)
Definition vertexUV (segments i : Z) : Q * Q :=
  let vertexX := (i mod (segments + 1))%Z in
  let vertexY := (i / (segments + 1))%Z in
  (inject_Z vertexX / inject_Z segments,
   inject_Z vertexY / inject_Z segments).

Section MathLibrary.

Variables Math_sin Math_cos Math_sqrt : Q -> Q.
Variable Math_atan2 : Q -> Q -> Q.
Variable Math_PI : Q.

Definition calculateDistanceMeters (lon1 lat1 lon2 lat2 : Q) : Q :=
  let R := 6371000 in
  let dLat := (lat2 - lat1) * Math_PI / 180 in
  let dLon := (lon2 - lon1) * Math_PI / 180 in
  let a := Math_sin (dLat / 2) * Math_sin (dLat / 2) +
           Math_cos (lat1 * Math_PI / 180) * Math_cos (lat2 * Math_PI / 180) *
           Math_sin (dLon / 2) * Math_sin (dLon / 2) in
  let c := 2 * Math_atan2 (Math_sqrt a) (Math_sqrt (1 - a)) in
  R * c.

(** The properties of [TerrainMesh] the displacement reads. *)
Record TerrainMeshProps : Type := mkTerrainMeshProps {
  bbox : BoundingBox;
  heightExaggeration : Q;
  meshResolution : Z;
  filterMethod : FilterMethod;
  useRealScale : bool;
  terrainImageData : ImageData;
  terrainWidth : Z;
  terrainHeight : Z
}.

Definition horizontalDistanceMeters (props : TerrainMeshProps) : Q :=
  let avgLat := (minLat (bbox props) + maxLat (bbox props)) / 2 in
  calculateDistanceMeters (minLon (bbox props)) avgLat
                          (maxLon (bbox props)) avgLat.

Definition filteredHeights (props : TerrainMeshProps) : list Q :=
  applyTerrainFilter (terrainImageData props) (terrainWidth props)
                     (terrainHeight props) (filterMethod props).

(** [minElevation] after the scan; an empty field, which the model does
    not follow further, stands as 0. *)
Definition minElevation (props : TerrainMeshProps) : Q :=
  match elevationStats (filteredHeights props) with
  | Some (minElevation, _) => minElevation
  | None => 0
  end.

(** [elevationRange > 0 ? Some elevationRange : None]; over an empty field
    the range is [-Infinity] and the test fails. *)
Definition positiveElevationRange (props : TerrainMeshProps) : option Q :=
  match elevationStats (filteredHeights props) with
  | Some (minElevation, maxElevation) =>
      let elevationRange := maxElevation - minElevation in
      if Qltb 0 elevationRange then Some elevationRange else None
  | None => None
  end.

Definition baseScale (props : TerrainMeshProps) : Q :=
  if useRealScale props then
    if Qltb 0 (horizontalDistanceMeters props) then
      let horizontalScaleFactor :=
        planeWidth / horizontalDistanceMeters props in
      horizontalScaleFactor
    else 0.1
  else
    let targetElevationUnits := planeWidth * 0.25 in
    match positiveElevationRange props with
    | Some elevationRange => targetElevationUnits / elevationRange
    | None => 0.01
    end.

(** The interpolated height of vertex [i], in meters. *)
Definition elevationMetersAt (props : TerrainMeshProps) (i : Z) : Q :=
  let '(u, v) := vertexUV (meshResolution props) i in
  bilinearSample (filteredHeights props) (terrainWidth props)
                 (terrainHeight props) u v.

(** The value written to [positions[i * 3 + 2]]. *)
Definition vertexElevation (props : TerrainMeshProps) (i : Z) : Q :=
  let elevationMeters := elevationMetersAt props i in
  if useRealScale props then
    elevationMeters * baseScale props * heightExaggeration props
  else
    let normalizedElevation := elevationMeters - minElevation props in
    normalizedElevation * baseScale props * heightExaggeration props.

(** The number of vertices of [PlaneGeometry(w, h, segments, segments)],
    that is [positions.length / 3]. *)
Definition vertexCount (props : TerrainMeshProps) : Z :=
  ((meshResolution props + 1) * (meshResolution props + 1))%Z.

(** The displaced elevation of every vertex, by vertex index. *)
Definition displaceVertices (props : TerrainMeshProps) : list Q :=
  map (vertexElevation props) (forRange 0 (vertexCount props)).

End MathLibrary.

(** [Math.round(x)]: the nearest integer, halves upwards. *)
Definition Math_round (x : Q) : Z := Qfloor (x + 0.5).

(** The colour [[red, green, blue]] of a normalized elevation that has been
    clamped to [[0, 1]]. *)
Definition heatColor (clamped : Q) : list Z :=
  if Qltb clamped 0.5 then
    let t := clamped * 2 in
    [0%Z; Math_round (255 * t); 255%Z]
  else
    let t := (clamped - 0.5) * 2 in
    [Math_round (255 * t); Math_round (255 * (1 - t)); 0%Z].

(** The bytes [generateHeatmapTexture] writes into the image data of its
    canvas, four per pixel. *)
Definition generateHeatmapTexture (terrainImageData : ImageData)
    (width height : Z) (minElevation maxElevation : Q) : list Z :=
  let elevationRange := maxElevation - minElevation in
  flat_map (fun i =>
    let idx := (i * 4)%Z in
    let r := get (data terrainImageData) idx 0%Z in
    let g := get (data terrainImageData) (idx + 1)%Z 0%Z in
    let b := get (data terrainImageData) (idx + 2)%Z 0%Z in
    let elevation :=
      -10000 + (inject_Z (r * 256 * 256 + g * 256 + b) * 0.1) in
    let normalized :=
      if Qltb 0 elevationRange
      then (elevation - minElevation) / elevationRange
      else 0.5 in
    let clamped := Qmax 0 (Qmin 1 normalized) in
    heatColor clamped ++ [255%Z])
  (forRange 0 (width * height)).

End MapCanvas.

(** ** The GeoTIFF utilities: [sampleElevationFromGBA] *)

Module GeoTiff.

Open Scope Q_scope.

Definition sampleElevationFromGBA (heights : list Q) (width height : Z)
    (u v : Q) : Q :=
  let u := Qmax 0 (Qmin 1 u) in
  let v := Qmax 0 (Qmin 1 v) in
  let x := u * inject_Z (width - 1) in
  let y := v * inject_Z (height - 1) in
  let x0 := Qfloor x in
  let y0 := Qfloor y in
  let x1 := Z.min (x0 + 1) (width - 1) in
  let y1 := Z.min (y0 + 1) (height - 1) in
  let fx := x - inject_Z x0 in
  let fy := y - inject_Z y0 in
  let idx00 := (y0 * width + x0)%Z in
  let idx10 := (y0 * width + x1)%Z in
  let idx01 := (y1 * width + x0)%Z in
  let idx11 := (y1 * width + x1)%Z in
  let h00 := get heights idx00 0 in
  let h10 := get heights idx10 0 in
  let h01 := get heights idx01 0 in
  let h11 := get heights idx11 0 in
  let h0 := h00 * (1 - fx) + h10 * fx in
  let h1 := h01 * (1 - fx) + h11 * fx in
  let elevation := h0 * (1 - fy) + h1 * fy in
  elevation.

End GeoTiff.

(** ** The buildings route: collecting the buildings

    The loop over the features of the building layer of each tile, in the
    revision of the route that pushes the converted features itself
    ([src/unnamed/part_009]); the revision under
    [app/api/fetch-mapbox-buildings/route.ts] has the same loop and the same
    [convertPoint], but clips each feature with [bboxClip] before it pushes
    it. The tiles are handled by concurrent promises; the statements after
    the last [await] of a promise run without interruption, so the tiles are
    processed one after the other in the order their responses arrive. An
    exception inside the loop is caught by the [try] of the tile and ends
    the loop of that tile. *)

Module Buildings.

Open Scope Q_scope.

(** A point of a vector tile, in units of the extent of the tile. *)
Record Point : Type := mkPoint {
  x : Q;
  y : Q
}.

(** What the route reads of a feature of a vector tile; an [id] or a
    property that is [None] is [undefined], and [loadGeometry] is [None]
    when the call throws. The two properties are taken to be numbers when
    present. *)
Record VectorTileFeature : Type := mkVectorTileFeature {
  id : option Z;
  extent : Q;
  loadGeometry : option (list (list Point));
  height : option Q;
  render_height : option Q
}.

(** The GeoJSON feature the route pushes: its [id], the [coordinates] of
    its geometry and [properties.height]. *)
Record BuildingFeature : Type := mkBuildingFeature {
  featureId : option Z;
  coordinates : list (list (Q * Q));
  featureHeight : Q
}.

Definition convertPoint (tileBbox : TileUtils.BoundingBox) (extent : Q)
    (p : Point) : Q * Q :=
  let tileWidth := TileUtils.maxLon tileBbox - TileUtils.minLon tileBbox in
  let tileHeight := TileUtils.maxLat tileBbox - TileUtils.minLat tileBbox in
  let xPercent := x p / extent in
  let yPercent := y p / extent in
  let lon := TileUtils.minLon tileBbox + (xPercent * tileWidth) in
  let lat := TileUtils.maxLat tileBbox - (yPercent * tileHeight) in
  (lon, lat).

(** [properties.height || properties.render_height || 5]: a number that
    is [undefined] or 0 is falsy. *)
Definition heightOrDefault (feature : VectorTileFeature) : Q :=
  let orElse (v : option Q) (otherwise : Q) : Q :=
    match v with
    | Some h => if Qeq_bool h 0 then otherwise else h
    | None => otherwise
    end in
  orElse (height feature) (orElse (render_height feature) 5).

(** One iteration of the loop over the features of a layer; the state is
    [seenIds] and [buildingFeatures], and the flag tells whether the
    iteration threw. The id is added to [seenIds] before the geometry is
    loaded. *)
Definition processFeature (tileBbox : TileUtils.BoundingBox)
    (state : list Z * list BuildingFeature) (feature : VectorTileFeature)
    : (list Z * list BuildingFeature) * bool :=
  let '(seenIds, buildingFeatures) := state in
  let isDuplicate :=
    match id feature with
    | Some i => existsb (Z.eqb i) seenIds
    | None => false
    end in
  if isDuplicate then (state, false)
  else
    let seenIds :=
      match id feature with
      | Some i => i :: seenIds
      | None => seenIds
      end in
    match loadGeometry feature with
    | None => ((seenIds, buildingFeatures), true)
    | Some geometry =>
        let rings :=
          map (fun ring => map (convertPoint tileBbox (extent feature)) ring)
              geometry in
        ((seenIds,
          buildingFeatures
            ++ [mkBuildingFeature (id feature) rings
                                  (heightOrDefault feature)]),
         false)
    end.

(** The loop [for (let i = 0; i < buildingLayer.length; i++)]; an element
    of the layer is [None] when [buildingLayer.feature(i)] throws. *)
Fixpoint processLayer (tileBbox : TileUtils.BoundingBox)
    (buildingLayer : list (option VectorTileFeature))
    (state : list Z * list BuildingFeature) : list Z * list BuildingFeature :=
  match buildingLayer with
  | [] => state
  | None :: _ => state
  | Some feature :: rest =>
      let '(state, threw) := processFeature tileBbox state feature in
      if threw then state else processLayer tileBbox rest state
  end.

Section Tilebelt.

Variable tileToBBOX : Z * Z * Z -> Q * Q * Q * Q.

(** The body of the promise of one tile; the layer is [None] when the
    fetch fails, the tile cannot be decoded or it has no building layer. *)
Definition processTile (state : list Z * list BuildingFeature)
    (arrival : TileUtils.TileCoord * option (list (option VectorTileFeature)))
    : list Z * list BuildingFeature :=
  let '(tile, buildingLayer) := arrival in
  match buildingLayer with
  | None => state
  | Some features =>
      let tileBbox := TileUtils.tileToBoundingBox tileToBBOX tile in
      processLayer tileBbox features state
  end.

(** The features of the response, for tiles arriving in the given order. *)
Definition collectBuildings
    (arrivals :
       list (TileUtils.TileCoord * option (list (option VectorTileFeature))))
    : list BuildingFeature :=
  snd (fold_left processTile arrivals ([], [])).

End Tilebelt.










End Buildings.

(** ** Concrete environments and rasters *)

Module Fixtures.

Import TileUtils.
Open Scope Q_scope.

(** A tiling of the world on rational coordinates, on which the tile
    geometry can be run. The columns follow the Web Mercator formula,
    [2^z (lon/360 + 1/2)]. The rows divide the latitudes from 85 down to
    -85 evenly, [2^z (1/2 - lat/170)], where Web Mercator takes a
    logarithm; as there, a latitude beyond the square falls in a row
    outside [0 .. 2^z - 1]. *)
Definition gridPointToTile (lon lat : Q) (z : Z) : Z * Z :=
  (Qfloor (inject_Z (2 ^ z) * (lon / 360 + 0.5)),
   Qfloor (inject_Z (2 ^ z) * (0.5 - lat / 170))).

(** The bounds [[west, south, east, north]] of a tile of that tiling. *)
Definition gridTileToBBOX (tile : Z * Z * Z) : Q * Q * Q * Q :=
  let '(x, y, z) := tile in
  let n := inject_Z (2 ^ z) in
  (inject_Z x / n * 360 - 180,
   85 - inject_Z (y + 1) / n * 170,
   inject_Z (x + 1) / n * 360 - 180,
   85 - inject_Z y / n * 170).

(** The columns of [tilebelt.pointToTile], with the wrap [x % 2^z] that
    sends the longitude 180 to the column 0, and the rows of the projection
    linearised at the equator, [2^z (1/2 - lat/360)], which are the rows of
    Web Mercator at the latitudes 1 and -1 at every zoom up to 18. *)
Definition wrapPointToTile (lon lat : Q) (z : Z) : Z * Z :=
  (Qfloor (inject_Z (2 ^ z) * (lon / 360 + 0.5)) mod 2 ^ z,
   Qfloor (inject_Z (2 ^ z) * (0.5 - lat / 360))).

(** [gridPointToTile] with the rows of the poles as tilebelt computes
    them: [-Infinity] at the latitude 90 and [Infinity] at -90. *)
Definition polarPointToTile (lon lat : Q) (z : Z) : Z * Row :=
  let '(x, y) := gridPointToTile lon lat z in
  (x, if Qle_bool 90 lat then NegInfinity
      else if Qle_bool lat (-90) then Infinity
      else Integer y).

(** A box from the equator to the north pole, which [parseBoundingBox]
    accepts. *)
Definition poleBox : BoundingBox := mkBoundingBox 0 0 1 90.

(** A box over the four tiles of zoom 1, and a box inside one tile of
    zoom 10. *)
Definition quadBox : BoundingBox := mkBoundingBox (-90) (-45) 90 45.
Definition smallBox : BoundingBox := mkBoundingBox 11.0 47.0 11.1 47.1.

(** A box around [smallBox]. *)
Definition alpsBox : BoundingBox := mkBoundingBox 10 46 12 48.


(** A network on which the fetch of every tile succeeds. *)
Definition fetchAlways (url : string) : bool := true.

(** Responses that arrive in the order of the requests, and in the
    opposite order. *)
Definition arriveInOrder (tiles : list TileCoord) : list TileCoord := tiles.
Definition arriveLastFirst (tiles : list TileCoord) : list TileCoord :=
  rev tiles.

(** The bytes of the pixel that decodes to 100.0 m, to 5000.0 m, to 0 m and
    to 1000 m, with alpha [a]. *)
Definition px100 (a : Z) : list Z := [1; 138; 136; a]%Z.
Definition px5000 (a : Z) : list Z := [2; 73; 240; a]%Z.
Definition px0 (a : Z) : list Z := [1; 134; 160; a]%Z.
Definition px1000 (a : Z) : list Z := [1; 173; 176; a]%Z.

(** The 5x5 raster that decodes to 100.0 m everywhere but at its center
    pixel (index 12), which decodes to 5000.0 m; [alpha i] is the alpha
    byte of pixel [i]. *)
Definition spikeRaster (alpha : Z -> Z) : ImageData :=
  mkImageData
    (flat_map (fun i => if (i =? 12)%Z then px5000 (alpha i)
                        else px100 (alpha i))
              (forRange 0 25)).

(** The 5x5 raster that decodes to 100.0 m everywhere. *)
Definition flatRaster (alpha : Z -> Z) : ImageData :=
  mkImageData (flat_map (fun i => px100 (alpha i)) (forRange 0 25)).

(** The 2x2 raster that decodes to [[0, 0, 0, 1000]] meters. *)
Definition rampRaster (alpha : Z -> Z) : ImageData :=
  mkImageData (px0 (alpha 0%Z) ++ px0 (alpha 1%Z) ++ px0 (alpha 2%Z)
               ++ px1000 (alpha 3%Z)).

(** A reader of unsigned decimal numerals, which agrees with [parseFloat]
    on the strings of digits, and a [trim] for strings without blanks. *)
Definition digitValue (c : ascii) : option Z :=
  let n := Z.of_nat (nat_of_ascii c) in
  if (48 <=? n)%Z && (n <=? 57)%Z then Some (n - 48)%Z else None.

Fixpoint parseDigitsFrom (acc : Z) (s : string) : option Z :=
  match s with
  | EmptyString => Some acc
  | String c rest =>
      match digitValue c with
      | Some d => parseDigitsFrom (acc * 10 + d)%Z rest
      | None => None
      end
  end.

Definition parseDigits (s : string) : option Q :=
  match s with
  | EmptyString => None
  | _ => option_map inject_Z (parseDigitsFrom 0%Z s)
  end.

Definition trimNothing (s : string) : string := s.

End Fixtures.

(** * Properties *)

(** ** Loops and array reads *)

Lemma forRange_length (lo hi : Z) :
  length (forRange lo hi) = Z.to_nat (hi - lo).
Proof. unfold forRange. now rewrite length_map, length_seq. Qed.

Lemma forRange_In (lo hi i : Z) : In i (forRange lo hi) <-> lo <= i < hi.
Proof.
  unfold forRange. rewrite in_map_iff. split.
  - intros [k [<- Hk]]. apply in_seq in Hk. lia.
  - intros H. exists (Z.to_nat (i - lo)). split; [lia|].
    apply in_seq. lia.
Qed.

Lemma forRange_get (lo hi i d : Z) :
  0 <= i < hi - lo -> get (forRange lo hi) i d = lo + i.
Proof.
  intros H. unfold get, forRange.
  destruct (i <? 0) eqn:E; [lia|].
  rewrite nth_indep with (d' := lo + Z.of_nat 0)
    by (rewrite length_map, length_seq; lia).
  rewrite map_nth with (f := fun k => lo + Z.of_nat k).
  rewrite seq_nth by lia. lia.
Qed.

Lemma forRange_NoDup (lo hi : Z) : NoDup (forRange lo hi).
Proof.
  unfold forRange. apply Injective_map_NoDup.
  - intros a b H. lia.
  - apply seq_NoDup.
Qed.

Lemma get_map {A B : Type} (f : A -> B) (l : list A) (i : Z) (d : A) (e : B) :
  0 <= i < Z.of_nat (length l) -> get (map f l) i e = f (get l i d).
Proof.
  intros H. unfold get. destruct (i <? 0) eqn:E; [lia|].
  rewrite nth_indep with (d' := f d) by (rewrite length_map; lia).
  apply map_nth.
Qed.

Lemma get_In {A : Type} (l : list A) (i : Z) (d : A) :
  0 <= i < Z.of_nat (length l) -> In (get l i d) l.
Proof.
  intros H. unfold get. destruct (i <? 0) eqn:E; [lia|].
  apply nth_In. lia.
Qed.

Lemma Qltb_lt (a b : Q) : Qltb a b = true <-> (a < b)%Q.
Proof.
  unfold Qltb. rewrite negb_true_iff, <- not_true_iff_false, Qle_bool_iff.
  split; [apply Qnot_le_lt | apply Qlt_not_le].
Qed.

(** ** The two decoders *)

Section Decoders.

Import TerrainFilters.
Open Scope Q_scope.

(** C1. The decoder of the filter pipeline returns
    [min(-10000 + (r*65536 + g*256 + b)*0.1, 8000)]: a triple whose affine
    value exceeds 8000 m decodes to exactly 8000 m, and any other triple,
    those below sea level included, decodes to its affine value: there is no
    lower floor. *)
Theorem terrainRGBToHeight_capped_above_only (r g b : Z) :
  let affine := -10000 + inject_Z (r * 65536 + g * 256 + b) * 0.1 in
  terrainRGBToHeight r g b == Qmin affine 8000 /\
  (8000 < affine -> terrainRGBToHeight r g b == 8000) /\
  (affine <= 8000 -> terrainRGBToHeight r g b == affine).
Proof.
  intros affine. unfold terrainRGBToHeight, ABSOLUTE_MAX_HEIGHT. cbv zeta.
  replace (r * 256 * 256 + g * 256 + b)%Z with (r * 65536 + g * 256 + b)%Z
    by lia.
  fold affine. split; [reflexivity|]. split; intros H.
  - apply Q.min_r. now apply Qlt_le_weak.
  - now apply Q.min_l.
Qed.

Lemma terrainRGBToHeight_capped_above_only_witness :
  terrainRGBToHeight 255 255 255 == 8000 /\
  terrainRGBToHeight 0 0 0 == -10000 /\
  terrainRGBToHeight 1 134 150 == -1.
Proof.
  split; [|split].
  - apply (terrainRGBToHeight_capped_above_only 255 255 255). reflexivity.
  - transitivity (-10000 + inject_Z (0 * 65536 + 0 * 256 + 0) * 0.1);
      [|reflexivity].
    apply (terrainRGBToHeight_capped_above_only 0 0 0). discriminate.
  - transitivity (-10000 + inject_Z (1 * 65536 + 134 * 256 + 150) * 0.1);
      [|reflexivity].
    apply (terrainRGBToHeight_capped_above_only 1 134 150). discriminate.
Defined.

End Decoders.

Section StitcherDecoder.

Import TileStitcher.
Open Scope Q_scope.

Lemma tileUtils_terrainRGBToHeight_spec (r g b : Z) :
  TileUtils.terrainRGBToHeight r g b
  == -10000 + inject_Z (r * 65536 + g * 256 + b) * 0.1.
Proof.
  unfold TileUtils.terrainRGBToHeight.
  replace (r * 256 * 256 + g * 256 + b)%Z with (r * 65536 + g * 256 + b)%Z
    by lia.
  reflexivity.
Qed.

(** C10. The heightmap the stitcher exports is decoded without the 8000 m
    cap: every pixel [i] of [createHeightmapFromTerrainRGB] holds the raw
    affine value [-10000 + (R*65536 + G*256 + B)*0.1] of its bytes, so the
    pixel R = G = B = 255 comes out as 1,667,721.5 m, above 8000 m, where
    the decoder of the filter pipeline gives 8000 m. *)
Theorem createHeightmapFromTerrainRGB_uncapped :
  (forall (imageData : ImageData) (width height i : Z),
      (0 <= i < width * height)%Z ->
      let r := get (data imageData) (i * 4) 0%Z in
      let g := get (data imageData) (i * 4 + 1) 0%Z in
      let b := get (data imageData) (i * 4 + 2) 0%Z in
      get (createHeightmapFromTerrainRGB imageData width height) i 0
      == -10000 + inject_Z (r * 65536 + g * 256 + b) * 0.1) /\
  (let white := mkImageData [255; 255; 255; 255]%Z in
   get (createHeightmapFromTerrainRGB white 1 1) 0 0 == 1667721.5 /\
   8000 < get (createHeightmapFromTerrainRGB white 1 1) 0 0 /\
   get (TerrainFilters.applyNoFilter white 1 1) 0 0 == 8000).
Proof.
  split.
  - intros imageData width height i Hi r g b.
    unfold createHeightmapFromTerrainRGB.
    rewrite get_map with (d := 0%Z) by (rewrite forRange_length; lia).
    rewrite forRange_get by lia. rewrite Z.add_0_l.
    apply tileUtils_terrainRGBToHeight_spec.
  - cbv zeta. repeat split; vm_compute; reflexivity.
Qed.

Lemma createHeightmapFromTerrainRGB_uncapped_witness :
  get (TileStitcher.createHeightmapFromTerrainRGB
         (mkImageData [1; 134; 160; 255; 255; 255; 255; 255]%Z) 2 1) 1 0
  == 1667721.5.
Proof.
  exact (proj1 createHeightmapFromTerrainRGB_uncapped
           (mkImageData [1; 134; 160; 255; 255; 255; 255; 255]%Z) 2 1 1
           ltac:(lia))%Z.
Defined.

End StitcherDecoder.

(** ** Tile geometry *)

Section TileEnumeration.

Import TileUtils.

Variable pointToTile : Q -> Q -> Z -> Z * Z.

Lemma grid_length (xs ys : list Z) (zoom : Z) :
  length (tileGrid xs ys zoom) = (length xs * length ys)%nat.
Proof.
  unfold tileGrid. apply flat_map_constant_length.
  intros. apply length_map.
Qed.

Lemma grid_In (xs ys : list Z) (zoom : Z) (t : TileCoord) :
  In t (tileGrid xs ys zoom) <-> In (x t) xs /\ In (y t) ys /\ z t = zoom.
Proof.
  unfold tileGrid. rewrite in_flat_map. split.
  - intros [a [Ha Ht]]. apply in_map_iff in Ht as [b [<- Hb]]. now cbn.
  - intros [Hx [Hy Hz]]. exists (x t). split; [exact Hx|].
    apply in_map_iff. exists (y t). split; [|exact Hy].
    destruct t; cbn in *. now subst.
Qed.

Lemma grid_NoDup (xs ys : list Z) (zoom : Z) :
  NoDup xs -> NoDup ys ->
  NoDup (map (fun t => (x t, y t)) (tileGrid xs ys zoom)).
Proof.
  intros Hxs Hys. induction Hxs as [|a xs Ha Hxs IH]; cbn.
  - constructor.
  - rewrite map_app, map_map. cbn.
    apply NoDup_app.
    + apply Injective_map_NoDup; [|exact Hys].
      intros b c H. now inversion H.
    + exact IH.
    + intros [u v] H1 H2.
      apply in_map_iff in H1 as [b [Hb _]]. inversion Hb; subst.
      apply in_map_iff in H2 as [t [Ht Hin]]. inversion Ht; subst.
      apply grid_In in Hin. tauto.
Qed.

(** Element [i * length ys + j] of the tileGrid is the tile of the [i]-th [x]
    and the [j]-th [y]. *)
Lemma grid_nth (xs ys : list Z) (zoom : Z) (i j : nat) (d : TileCoord) :
  (i < length xs)%nat -> (j < length ys)%nat ->
  nth (i * length ys + j) (tileGrid xs ys zoom) d
  = mkTileCoord (nth i xs 0) (nth j ys 0) zoom.
Proof.
  revert i. induction xs as [|a xs IH]; intros i Hi Hj; cbn in Hi; [lia|].
  change (tileGrid (a :: xs) ys zoom)
    with (map (fun y => mkTileCoord a y zoom) ys ++ tileGrid xs ys zoom).
  destruct i as [|i].
  - cbn [Nat.mul Nat.add nth]. rewrite app_nth1 by (rewrite length_map; lia).
    rewrite nth_indep with (d' := mkTileCoord a 0 zoom)
      by (rewrite length_map; lia).
    now rewrite map_nth with (f := fun y => mkTileCoord a y zoom).
  - rewrite app_nth2 by (rewrite length_map; cbn; lia).
    rewrite length_map.
    replace (S i * length ys + j - length ys)%nat
      with (i * length ys + j)%nat by (cbn; lia).
    cbn [nth]. apply IH; lia.
Qed.

Lemma forRange_nth (lo hi : Z) (n : nat) (d : Z) :
  (n < Z.to_nat (hi - lo))%nat -> nth n (forRange lo hi) d = lo + Z.of_nat n.
Proof.
  intros H. unfold forRange.
  rewrite nth_indep with (d' := lo + Z.of_nat 0)
    by (rewrite length_map, length_seq; lia).
  rewrite map_nth with (f := fun k => lo + Z.of_nat k).
  now rewrite seq_nth.
Qed.

Lemma forRangeIncl_single (a : Z) : forRangeIncl a a = [a].
Proof.
  unfold forRangeIncl, forRange.
  replace (a + 1 - a) with 1 by lia.
  change (Z.to_nat 1) with 1%nat. cbn. f_equal. lia.
Qed.

(** Where the rows of the corners are integers, [getTilesForBoundingBox]
    returns exactly [(maxX-minX+1)*(maxY-minY+1)] tiles, where [minX..maxX]
    and [minY..maxY] are the tile indices spanned by the corners of the box;
    no [(x, y)] pair occurs twice, every tile carries the requested zoom,
    the tiles are those of the rectangle, and a box whose corners fall in
    one tile yields that single tile. *)
Lemma getTilesForBoundingBox_rectangle (bbox : BoundingBox) (zoom : Z) :
  let topLeft := pointToTile (minLon bbox) (maxLat bbox) zoom in
  let bottomRight := pointToTile (maxLon bbox) (minLat bbox) zoom in
  let minX := Z.min (fst topLeft) (fst bottomRight) in
  let maxX := Z.max (fst topLeft) (fst bottomRight) in
  let minY := Z.min (snd topLeft) (snd bottomRight) in
  let maxY := Z.max (snd topLeft) (snd bottomRight) in
  let tiles := getTilesForBoundingBox pointToTile bbox zoom in
  Z.of_nat (length tiles) = (maxX - minX + 1) * (maxY - minY + 1) /\
  NoDup (map (fun t => (x t, y t)) tiles) /\
  Forall (fun t => z t = zoom) tiles /\
  (forall t, In t tiles <->
             minX <= x t <= maxX /\ minY <= y t <= maxY /\ z t = zoom) /\
  (topLeft = bottomRight ->
   tiles = [mkTileCoord (fst topLeft) (snd topLeft) zoom]).
Proof.
  intros topLeft bottomRight minX maxX minY maxY tiles.
  assert (Hin : forall t, In t tiles <->
             minX <= x t <= maxX /\ minY <= y t <= maxY /\ z t = zoom).
  { intros t. unfold tiles, getTilesForBoundingBox.
    rewrite grid_In. unfold forRangeIncl. rewrite !forRange_In.
    fold topLeft bottomRight minX maxX minY maxY. lia. }
  split; [|split; [|split; [|split; [exact Hin|]]]].
  - unfold tiles, getTilesForBoundingBox.
    rewrite grid_length. unfold forRangeIncl. rewrite !forRange_length.
    fold topLeft bottomRight minX maxX minY maxY.
    rewrite Nat2Z.inj_mul, !Z2Nat.id by lia. lia.
  - apply grid_NoDup; apply forRange_NoDup.
  - apply Forall_forall. intros t Ht. now apply Hin in Ht.
  - intros Heq. unfold tiles, getTilesForBoundingBox. cbv zeta.
    unfold topLeft, bottomRight in Heq. rewrite <- Heq.
    rewrite !Z.min_id, !Z.max_id, !forRangeIncl_single. reflexivity.
Qed.

(** C6, as the code has it. [getTilesForBoundingBox] enumerates the
    rectangle column by column: with [H = maxY-minY+1], element [k] of the
    result is the tile [(minX + k div H, minY + k mod H)], so the tiles of
    one x-column follow each other before the next column starts. *)
Theorem getTilesForBoundingBox_column_major (bbox : BoundingBox)
    (zoom k : Z) (d : TileCoord) :
  let topLeft := pointToTile (minLon bbox) (maxLat bbox) zoom in
  let bottomRight := pointToTile (maxLon bbox) (minLat bbox) zoom in
  let minX := Z.min (fst topLeft) (fst bottomRight) in
  let maxX := Z.max (fst topLeft) (fst bottomRight) in
  let minY := Z.min (snd topLeft) (snd bottomRight) in
  let maxY := Z.max (snd topLeft) (snd bottomRight) in
  let H := maxY - minY + 1 in
  0 <= k < (maxX - minX + 1) * H ->
  get (getTilesForBoundingBox pointToTile bbox zoom) k d
  = mkTileCoord (minX + k / H) (minY + k mod H) zoom.
Proof.
  intros topLeft bottomRight minX maxX minY maxY H Hk.
  assert (HH : 0 < H) by (unfold H; lia).
  assert (Hq : 0 <= k / H < maxX - minX + 1).
  { split; [apply Z.div_pos; lia|]. apply Z.div_lt_upper_bound; lia. }
  pose proof (Z.mod_pos_bound k H HH) as Hr.
  unfold get. destruct (k <? 0) eqn:E; [lia|].
  unfold getTilesForBoundingBox.
  fold topLeft bottomRight minX maxX minY maxY.
  set (xs := forRangeIncl minX maxX). set (ys := forRangeIncl minY maxY).
  assert (Hxs : length xs = Z.to_nat (maxX - minX + 1)).
  { unfold xs, forRangeIncl. rewrite forRange_length. f_equal. lia. }
  assert (Hys : length ys = Z.to_nat H).
  { unfold ys, forRangeIncl. rewrite forRange_length. f_equal.
    unfold H. lia. }
  replace (Z.to_nat k)
    with (Z.to_nat (k / H) * length ys + Z.to_nat (k mod H))%nat.
  - rewrite grid_nth by lia.
    unfold xs, ys, forRangeIncl.
    rewrite !forRange_nth by lia.
    now rewrite !Z2Nat.id by lia.
  - rewrite Hys, <- Z2Nat.inj_mul, <- Z2Nat.inj_add by lia.
    f_equal. rewrite Z.mul_comm. symmetry. apply Z.div_mod. lia.
Qed.

End TileEnumeration.

(** C6 fails as stated: over the four tiles of zoom 1 the second element
    of the list ([k = 1]) is the tile below the first, [(0, 1)], not the
    tile to its right, [(1, 0)], which the row-major order
    [(minX + k mod W, minY + k div W)] asks for. *)
Lemma getTilesForBoundingBox_not_row_major :
  let pointToTile := Fixtures.gridPointToTile in
  let bbox := Fixtures.quadBox in
  let zoom := 1 in
  let k := 1 in
  let topLeft :=
    pointToTile (TileUtils.minLon bbox) (TileUtils.maxLat bbox) zoom in
  let bottomRight :=
    pointToTile (TileUtils.maxLon bbox) (TileUtils.minLat bbox) zoom in
  let minX := Z.min (fst topLeft) (fst bottomRight) in
  let maxX := Z.max (fst topLeft) (fst bottomRight) in
  let minY := Z.min (snd topLeft) (snd bottomRight) in
  let maxY := Z.max (snd topLeft) (snd bottomRight) in
  let W := maxX - minX + 1 in
  let tiles := TileUtils.getTilesForBoundingBox pointToTile bbox zoom in
  (minX, maxX, minY, maxY) = (0, 1, 0, 1) /\
  tiles = [TileUtils.mkTileCoord 0 0 1; TileUtils.mkTileCoord 0 1 1;
           TileUtils.mkTileCoord 1 0 1; TileUtils.mkTileCoord 1 1 1] /\
  0 <= k < W * (maxY - minY + 1) /\
  get tiles k (TileUtils.mkTileCoord 0 0 0) = TileUtils.mkTileCoord 0 1 1 /\
  TileUtils.mkTileCoord (minX + k mod W) (minY + k / W) zoom
  = TileUtils.mkTileCoord 1 0 1 /\
  get tiles k (TileUtils.mkTileCoord 0 0 0)
  <> TileUtils.mkTileCoord (minX + k mod W) (minY + k / W) zoom.
Proof.
  cbv zeta. repeat split; try (vm_compute; reflexivity);
    vm_compute; discriminate.
Qed.

Lemma getTilesForBoundingBox_column_major_witness :
  get (TileUtils.getTilesForBoundingBox Fixtures.gridPointToTile
         Fixtures.quadBox 1) 2 (TileUtils.mkTileCoord 0 0 0)
  = TileUtils.mkTileCoord 1 0 1.
Proof.
  exact (getTilesForBoundingBox_column_major Fixtures.gridPointToTile
           Fixtures.quadBox 1 2 (TileUtils.mkTileCoord 0 0 0)
           ltac:(vm_compute; split; [discriminate | reflexivity])).
Defined.

(** ** Zoom selection *)

Section ZoomSelection.

Import TileUtils.

Variable pointToTile : Q -> Q -> Z -> Z * Z.



Lemma isValidBoundingBox_ordered (bbox : BoundingBox) :
  isValidBoundingBox bbox = true ->
  (minLon bbox < maxLon bbox /\ minLat bbox < maxLat bbox /\
   -180 <= minLon bbox /\ maxLon bbox <= 180 /\
   -90 <= minLat bbox /\ maxLat bbox <= 90)%Q.
Proof.
  unfold isValidBoundingBox. rewrite negb_true_iff, !orb_false_iff.
  intros [[[[[H1 H2] H3] H4] H5] H6].
  repeat split.
  - apply Qnot_le_lt. rewrite <- Qle_bool_iff. congruence.
  - apply Qnot_le_lt. rewrite <- Qle_bool_iff. congruence.
  - apply Qnot_lt_le. rewrite <- Qltb_lt. congruence.
  - apply Qnot_lt_le. rewrite <- Qltb_lt. congruence.
  - apply Qnot_lt_le. rewrite <- Qltb_lt. congruence.
  - apply Qnot_lt_le. rewrite <- Qltb_lt. congruence.
Qed.




End ZoomSelection.




(** The second way in which C3 fails as stated, with the default budget of
    16 tiles: a box that ends at the longitude 180, where the column wraps
    to 0. The box from -179 to 180 spans two columns at zoom 9 (1 and 0)
    and gets zoom 9, while the box from -179 to 179 inside it spans all 16
    columns at zoom 4 and gets zoom 3, raised to 8. *)
Example calculateZoomLevel_wraps_at_180 :
  let outer := TileUtils.mkBoundingBox (-179) (-1) 180 1 in
  let inner := TileUtils.mkBoundingBox (-179) (-1) 179 1 in
  TileUtils.isValidBoundingBox outer = true /\
  TileUtils.isValidBoundingBox inner = true /\
  TileUtils.containedIn inner outer /\
  map (TileUtils.totalTiles Fixtures.wrapPointToTile outer) [0; 8; 9; 10]
  = [1; 2; 8; 18] /\
  map (TileUtils.totalTiles Fixtures.wrapPointToTile inner) [0; 3; 4]
  = [1; 16; 32] /\
  TileUtils.calculateZoomLevel Fixtures.wrapPointToTile outer
    TileUtils.defaultMaxTiles = 9 /\
  TileUtils.calculateZoomLevel Fixtures.wrapPointToTile inner
    TileUtils.defaultMaxTiles = 8.
Proof.
  cbv zeta. repeat split; try reflexivity; try discriminate.
Qed.

(** ** Stitching *)

Section Stitching.

Import TileUtils TileStitcher.

Variable tileToBBOX : Z * Z * Z -> Q * Q * Q * Q.
Variable fetchTile : string -> bool.
Variable arrivalOrder : list TileCoord -> list TileCoord.

(** C8. On an empty tile list [stitchTiles] fails with the error
    "No tiles provided" before it creates a canvas or fetches anything; on
    a tile list that is not empty it does not fail: it creates the
    composite canvas first, fetches every tile and returns the cropped
    canvas. *)
Theorem stitchTiles_empty_tile_list (bbox : BoundingBox) (style : TileStyle)
    (token : string) :
  stitchTiles tileToBBOX fetchTile arrivalOrder [] bbox style token
  = ([], Threw "No tiles provided") /\
  forall (tile : TileCoord) (rest : list TileCoord),
  exists (effects : list Effect) (stitched : Stitched) (w h : Z),
    stitchTiles tileToBBOX fetchTile arrivalOrder (tile :: rest) bbox style
                token
    = (CreateCanvas w h :: effects, Returned stitched) /\
    (forall t, In t (tile :: rest) ->
               In (Fetch (getMapboxTileUrl t style token)) effects).
Proof.
  split; [reflexivity|].
  intros tile rest. unfold stitchTiles.
  replace (Z.of_nat (length (tile :: rest)) =? 0) with false
    by (symmetry; apply Z.eqb_neq; cbn [length]; lia).
  cbv zeta. cbn [app]. do 4 eexists. split; [reflexivity|].
  intros t Ht. apply in_or_app. left.
  apply in_map_iff. exists t. split; [reflexivity | exact Ht].
Qed.

End Stitching.

(** A run of the model: one terrain tile is fetched and drawn on a canvas
    of one tile, and the crop to the box is returned with its pixels. *)
Example stitchTiles_single_tile :
  let run :=
    TileStitcher.stitchTiles Fixtures.gridTileToBBOX Fixtures.fetchAlways
      Fixtures.arriveInOrder
      [TileUtils.mkTileCoord 543 228 10] Fixtures.smallBox
      TileUtils.TerrainRgb "tk" in
  firstn 3 (fst run)
  = [TileStitcher.CreateCanvas 512 512;
     TileStitcher.Fetch
       "https://api.mapbox.com/v4/mapbox.terrain-rgb/10/543/228@2x.png?access_token=tk";
     TileStitcher.DrawImage 0 0 512 512] /\
  snd run
  = TileStitcher.Returned
      (TileStitcher.mkStitched (146, 309) (Some (146, 309))).
Proof. split; vm_compute; reflexivity. Qed.

(** ** The bilinear sampler *)

Section Sampler.

Import MapCanvas.
Open Scope Q_scope.

Lemma get_last {A : Type} (l : list A) (d : A) :
  l <> [] -> get l (Z.of_nat (length l) - 1) d = last l d.
Proof.
  intros Hl. unfold get.
  destruct (Z.of_nat (length l) - 1 <? 0)%Z eqn:E.
  - apply Z.ltb_lt in E. destruct l; [congruence | cbn [length] in E; lia].
  - replace (Z.to_nat (Z.of_nat (length l) - 1)) with (length l - 1)%nat
      by lia.
    clear E. induction l as [|a [|b l] IH]; [congruence | reflexivity |].
    specialize (IH ltac:(discriminate)).
    replace (length (a :: b :: l) - 1)%nat with (S (length (b :: l) - 1))
      by (cbn [length]; lia).
    exact IH.
Qed.

Lemma sampleHeight_at_pixel (heights : list Q) (W H a b : Z) :
  (0 <= a <= W - 1)%Z -> (0 <= b <= H - 1)%Z ->
  sampleHeight heights W H (inject_Z a) (inject_Z b)
  = get heights (b * W + a) 0.
Proof.
  intros Ha Hb. unfold sampleHeight. rewrite !Qfloor_Z.
  now rewrite !Z.min_l, !Z.max_r by lia.
Qed.

(** Where the UV coordinates fall exactly on the pixel [(a, b)] the sample
    is the height of that pixel: both interpolation weights vanish. *)
Lemma bilinearSample_at_pixel (heights : list Q) (W H a b : Z) (u v : Q) :
  (0 <= a <= W - 1)%Z -> (0 <= b <= H - 1)%Z ->
  u * inject_Z (W - 1) == inject_Z a ->
  v * inject_Z (H - 1) == inject_Z b ->
  bilinearSample heights W H u v == get heights (b * W + a) 0.
Proof.
  intros Ha Hb Hu Hv. unfold bilinearSample. cbv zeta.
  rewrite (Qfloor_comp _ _ Hu), (Qfloor_comp _ _ Hv), !Qfloor_Z.
  rewrite !sampleHeight_at_pixel by lia.
  rewrite Hu, Hv.
  setoid_replace (inject_Z a - inject_Z a) with 0 by ring.
  setoid_replace (inject_Z b - inject_Z b) with 0 by ring.
  ring.
Qed.

Lemma vertexUV_first (segments : Z) :
  (1 <= segments)%Z ->
  fst (vertexUV segments 0) == 0 /\ snd (vertexUV segments 0) == 0.
Proof.
  intros Hs. unfold vertexUV. cbn [fst snd].
  rewrite Z.mod_0_l, Z.div_0_l by lia.
  split; unfold Qdiv; apply Qmult_0_l.
Qed.

Lemma vertexUV_last (segments : Z) :
  (1 <= segments)%Z ->
  let i := ((segments + 1) * (segments + 1) - 1)%Z in
  fst (vertexUV segments i) == 1 /\ snd (vertexUV segments i) == 1.
Proof.
  intros Hs i. unfold vertexUV. cbn [fst snd].
  replace (i mod (segments + 1))%Z with segments
    by (apply Z.mod_unique with (q := segments); [lia | unfold i; ring]).
  replace (i / (segments + 1))%Z with segments
    by (apply Z.div_unique with (r := segments); [lia | unfold i; ring]).
  assert (Hne : ~ inject_Z segments == 0).
  { change 0 with (inject_Z 0). rewrite inject_Z_injective. lia. }
  split; unfold Qdiv; now apply Qmult_inv_r.
Qed.

(** C7. On a height field of width [W >= 1] and height [H >= 1] the
    bilinear sampler returns exactly [heightField[0]] at [(u, v) = (0, 0)]
    and exactly the last element, [heightField[(H-1)*W + (W-1)]], at
    [(u, v) = (1, 1)]; for every mesh resolution these are the samples of
    the first and of the last vertex of the grid, before any scaling. *)
Theorem bilinearSample_corners (heightField : list Q) (W H segments : Z) :
  (1 <= W)%Z -> (1 <= H)%Z -> (1 <= segments)%Z ->
  Z.of_nat (length heightField) = (W * H)%Z ->
  let lastVertex := ((segments + 1) * (segments + 1) - 1)%Z in
  bilinearSample heightField W H 0 0 == get heightField 0 0 /\
  bilinearSample heightField W H 1 1
  == get heightField ((H - 1) * W + (W - 1)) 0 /\
  get heightField ((H - 1) * W + (W - 1)) 0 = last heightField 0 /\
  bilinearSample heightField W H (fst (vertexUV segments 0))
                 (snd (vertexUV segments 0))
  == get heightField 0 0 /\
  bilinearSample heightField W H (fst (vertexUV segments lastVertex))
                 (snd (vertexUV segments lastVertex))
  == last heightField 0.
Proof.
  intros HW HH Hs Hlen lastVertex.
  assert (Hlast : get heightField ((H - 1) * W + (W - 1)) 0
                  = last heightField 0).
  { replace ((H - 1) * W + (W - 1))%Z
      with (Z.of_nat (length heightField) - 1)%Z by lia.
    apply get_last. intros ->. cbn in Hlen. nia. }
  destruct (vertexUV_first segments Hs) as [Hu0 Hv0].
  destruct (vertexUV_last segments Hs) as [Hu1 Hv1].
  fold lastVertex in Hu1, Hv1.
  split; [|split; [|split; [exact Hlast|split]]].
  - apply (bilinearSample_at_pixel heightField W H 0 0); try lia;
      apply Qmult_0_l.
  - apply bilinearSample_at_pixel; try lia; apply Qmult_1_l.
  - apply (bilinearSample_at_pixel heightField W H 0 0); try lia.
    + rewrite Hu0. apply Qmult_0_l.
    + rewrite Hv0. apply Qmult_0_l.
  - rewrite <- Hlast. apply bilinearSample_at_pixel; try lia.
    + rewrite Hu1. apply Qmult_1_l.
    + rewrite Hv1. apply Qmult_1_l.
Qed.

End Sampler.

Lemma bilinearSample_corners_witness :
  MapCanvas.bilinearSample [3; 5; 7; 11; 13; 17]%Q 3 2 0 0 == 3 /\
  MapCanvas.bilinearSample [3; 5; 7; 11; 13; 17]%Q 3 2 1 1 == 17.
Proof.
  pose proof (bilinearSample_corners [3; 5; 7; 11; 13; 17]%Q 3 2 128
                ltac:(lia) ltac:(lia) ltac:(lia) eq_refl) as H.
  cbv zeta in H. split; [apply H | apply H].
Defined.

(** ** Displacement *)

Section Displacement.

Import TileUtils TerrainFilters MapCanvas.
Open Scope Q_scope.

Variables Math_sin Math_cos Math_sqrt : Q -> Q.
Variable Math_atan2 : Q -> Q -> Q.
Variable Math_PI : Q.

(** Every filter leaves the 2x2 ramp as decoded: nothing exceeds 3500 m,
    and no window of a 2x2 raster holds nine samples. *)
Lemma rampRaster_filtered (alpha : Z -> Z) (method : FilterMethod) :
  applyTerrainFilter (Fixtures.rampRaster alpha) 2 2 method
  = [0 # 10; 0 # 10; 0 # 10; 10000 # 10].
Proof. destruct method; vm_compute; reflexivity. Qed.

(** C4. For the 2x2 height field [[0, 0, 0, 1000]] with
    [useRealScale = false], [heightExaggeration = 1] and [planeWidth = 10],
    the displacer computes [baseScale = 10*0.25/1000 = 0.0025], and the
    vertex at [(u, v) = (1, 1)], which samples the maximum height 1000,
    is displaced by [(1000 - 0)*0.0025*1 = 2.5] scene units. *)
Theorem normalized_scale_end_to_end (alpha : Z -> Z) (box : BoundingBox)
    (segments : Z) (method : FilterMethod) :
  (1 <= segments)%Z ->
  let props :=
    mkTerrainMeshProps box 1 segments method false
                       (Fixtures.rampRaster alpha) 2 2 in
  let maxVertex := (vertexCount props - 1)%Z in
  let scale := baseScale Math_sin Math_cos Math_sqrt Math_atan2 Math_PI in
  let elevation :=
    vertexElevation Math_sin Math_cos Math_sqrt Math_atan2 Math_PI in
  Forall2 Qeq (filteredHeights props) [0; 0; 0; 1000] /\
  planeWidth == 10 /\
  minElevation props == 0 /\
  scale props == 10 * 0.25 / 1000 /\
  scale props == 0.0025 /\
  fst (vertexUV segments maxVertex) == 1 /\
  snd (vertexUV segments maxVertex) == 1 /\
  elevationMetersAt props maxVertex == 1000 /\
  elevation props maxVertex == (1000 - 0) * 0.0025 * 1 /\
  elevation props maxVertex == 2.5.
Proof.
  intros Hs props maxVertex scale elevation.
  assert (Hf : filteredHeights props = [0 # 10; 0 # 10; 0 # 10; 10000 # 10])
    by apply rampRaster_filtered.
  assert (Hmin : minElevation props == 0)
    by (unfold minElevation; rewrite Hf; reflexivity).
  assert (Hscale : scale props == 0.0025).
  { unfold scale, baseScale, positiveElevationRange.
    rewrite Hf. reflexivity. }
  destruct (vertexUV_last segments Hs) as [Hu Hv].
  change ((segments + 1) * (segments + 1) - 1)%Z with maxVertex in Hu, Hv.
  assert (Hm : elevationMetersAt props maxVertex == 1000).
  { unfold elevationMetersAt.
    destruct (vertexUV (meshResolution props) maxVertex) as [u v] eqn:E.
    change (meshResolution props) with segments in E.
    rewrite E in Hu, Hv. change (u == 1) in Hu. change (v == 1) in Hv.
    transitivity (get (filteredHeights props) (1 * 2 + 1) 0).
    - apply (bilinearSample_at_pixel (filteredHeights props) 2 2 1 1 u v);
        try lia.
      + rewrite Hu. reflexivity.
      + rewrite Hv. reflexivity.
    - rewrite Hf. reflexivity. }
  assert (He : elevation props maxVertex == 2.5).
  { unfold elevation, vertexElevation.
    change (useRealScale props) with false. cbv iota zeta.
    fold scale. rewrite Hm, Hmin, Hscale. reflexivity. }
  repeat split; try assumption; try reflexivity.
  - rewrite Hf. repeat constructor; reflexivity.
  - rewrite Hscale. reflexivity.
  - rewrite He. reflexivity.
Qed.

End Displacement.

Lemma normalized_scale_end_to_end_witness :
  let props :=
    MapCanvas.mkTerrainMeshProps Fixtures.smallBox 1 128
      TerrainFilters.FilterMedian false
      (Fixtures.rampRaster (fun _ => 255%Z)) 2 2 in
  MapCanvas.vertexElevation (fun _ => 0%Q) (fun _ => 0%Q) (fun _ => 0%Q)
    (fun _ _ => 0%Q) 0%Q props (129 * 129 - 1)
  == 2.5%Q.
Proof.
  apply (normalized_scale_end_to_end
           (fun _ => 0%Q) (fun _ => 0%Q) (fun _ => 0%Q) (fun _ _ => 0%Q) 0%Q
           (fun _ => 255%Z) Fixtures.smallBox 128 TerrainFilters.FilterMedian).
  lia.
Defined.

(** ** The Hampel filter *)

Section Hampel.

Import TerrainFilters.
Open Scope Q_scope.

Lemma spikeRaster_decoded (alpha : Z -> Z) :
  applyNoFilter (Fixtures.spikeRaster alpha) 5 5
  = repeat (1000 # 10) 12 ++ (50000 # 10) :: repeat (1000 # 10) 12.
Proof. vm_compute. reflexivity. Qed.

Lemma spikeRaster_filtered (alpha : Z -> Z) :
  applyTerrainFilter (Fixtures.spikeRaster alpha) 5 5 FilterMedian
  = repeat (1000 # 10) 25.
Proof. vm_compute. reflexivity. Qed.

(** C2. The filter that [filterMethod = 'median'] selects is the Hampel
    filter. On the 5x5 field that decodes to 100.0 everywhere but at its
    center, which decodes to 5000.0, the window of the center has median
    100.0 and MAD 0.0, the threshold is [3.0*(0.0+0.01) = 0.03], the
    deviation 4900 exceeds it, and the center is replaced by 100.0; every
    other pixel keeps 100.0. *)
Theorem hampel_replaces_center_spike (alpha : Z -> Z) :
  let raster := Fixtures.spikeRaster alpha in
  let heights := applyNoFilter raster 5 5 in
  let kernelHeights := get5x5KernelHeights heights 5 5 2 2 in
  let localMedian := calculateMedian kernelHeights in
  let mad := calculateMAD kernelHeights localMedian in
  let threshold := HAMPEL_THRESHOLD_MULTIPLIER * (mad + 0.01) in
  let deviation := Qabs (get heights 12 0 - localMedian) in
  let filtered := applyTerrainFilter raster 5 5 FilterMedian in
  Forall2 Qeq heights (repeat 100 12 ++ 5000 :: repeat 100 12) /\
  filtered = applyHampelFilter raster 5 5 /\
  length kernelHeights = 25%nat /\
  localMedian == 100 /\
  mad == 0 /\
  threshold == 3.0 * (0.0 + 0.01) /\
  threshold == 0.03 /\
  deviation == 4900 /\
  threshold < deviation /\
  get filtered 12 0 == 100 /\
  Forall2 Qeq filtered (repeat 100 25).
Proof.
  intros raster heights kernelHeights localMedian mad threshold deviation
         filtered.
  assert (Hh : heights
               = repeat (1000 # 10) 12 ++ (50000 # 10) :: repeat (1000 # 10) 12)
    by apply spikeRaster_decoded.
  assert (Hf : filtered = repeat (1000 # 10) 25)
    by apply spikeRaster_filtered.
  assert (Hm : localMedian = 1000 # 10)
    by (unfold localMedian, kernelHeights; rewrite Hh; vm_compute;
        reflexivity).
  assert (Hmad : mad = 0 # 100)
    by (unfold mad, kernelHeights; rewrite Hm, Hh; vm_compute; reflexivity).
  split; [rewrite Hh; cbn [repeat app]; repeat constructor; reflexivity|].
  split; [reflexivity|].
  split; [unfold kernelHeights; rewrite Hh; vm_compute; reflexivity|].
  split; [rewrite Hm; reflexivity|].
  split; [rewrite Hmad; reflexivity|].
  split; [unfold threshold; rewrite Hmad; reflexivity|].
  split; [unfold threshold; rewrite Hmad; reflexivity|].
  split; [unfold deviation; rewrite Hm, Hh; reflexivity|].
  split; [unfold threshold, deviation; rewrite Hmad, Hm, Hh; reflexivity|].
  split; [rewrite Hf; reflexivity|].
  rewrite Hf. cbn [repeat]. repeat constructor; reflexivity.
Qed.

End Hampel.

(** ** The Hampel filter keeps within the extremes of the field *)

Section HampelBounds.

Import TerrainFilters.
Open Scope Q_scope.

Lemma insertSorted_In (v a : Q) (l : list Q) :
  In v (insertSorted a l) <-> v = a \/ In v l.
Proof.
  induction l as [|w l IH]; cbn; [intuition congruence|].
  destruct (Qle_bool a w); cbn; [intuition congruence|].
  rewrite IH. tauto.
Qed.

Lemma sortAscending_In (v : Q) (l : list Q) :
  In v (sortAscending l) <-> In v l.
Proof.
  unfold sortAscending. induction l as [|a l IH]; cbn; [tauto|].
  rewrite insertSorted_In, IH. intuition congruence.
Qed.

Lemma insertSorted_length (a : Q) (l : list Q) :
  length (insertSorted a l) = S (length l).
Proof.
  induction l as [|w l IH]; cbn; [reflexivity|].
  destruct (Qle_bool a w); cbn; congruence.
Qed.

Lemma sortAscending_length (l : list Q) :
  length (sortAscending l) = length l.
Proof.
  unfold sortAscending. induction l as [|a l IH]; cbn; [reflexivity|].
  now rewrite insertSorted_length, IH.
Qed.

(** The median of a list that is not empty lies between any two bounds of
    the list. *)
Lemma calculateMedian_within (lo hi : Q) (values : list Q) :
  values <> [] ->
  (forall v, In v values -> lo <= v <= hi) ->
  lo <= calculateMedian values <= hi.
Proof.
  intros Hne Hall. unfold calculateMedian. cbv zeta.
  assert (Hsorted : forall i, (0 <= i < Z.of_nat (length values))%Z ->
                              lo <= get (sortAscending values) i 0 <= hi).
  { intros i Hi. apply Hall, sortAscending_In, get_In.
    now rewrite sortAscending_length. }
  rewrite sortAscending_length.
  set (len := Z.of_nat (length values)) in *.
  assert (Hlen : (1 <= len)%Z)
    by (destruct values; [congruence | unfold len; cbn [length]; lia]).
  pose proof (Z.div_mod len 2 ltac:(lia)) as Hdm.
  pose proof (Z.mod_pos_bound len 2 ltac:(lia)) as Hmod.
  destruct (len mod 2 =? 0)%Z eqn:E.
  - apply Z.eqb_eq in E.
    destruct (Hsorted (len / 2 - 1)%Z ltac:(lia)) as [Ha1 Ha2].
    destruct (Hsorted (len / 2)%Z ltac:(lia)) as [Hb1 Hb2].
    split.
    + apply Qle_shift_div_l; [reflexivity | lra].
    + apply Qle_shift_div_r; [reflexivity | lra].
  - apply Z.eqb_neq in E. apply Hsorted. lia.
Qed.

Lemma decodeWith_length (f : Q -> Q) (imageData : ImageData)
    (width height : Z) :
  length (decodeWith f imageData width height) = Z.to_nat (width * height).
Proof.
  unfold decodeWith. rewrite length_map, forRange_length. f_equal. lia.
Qed.

(** On a well-formed raster the decoding loop reads inside the buffer. *)
Lemma wellFormed_reads_in_range (imageData : ImageData) (width height i : Z) :
  wellFormed imageData width height ->
  In i (forRange 0 (width * height)) ->
  (0 <= i * 4 /\ i * 4 + 2 < Z.of_nat (length (data imageData)))%Z.
Proof.
  intros (_ & _ & Hlen & _) Hi. apply forRange_In in Hi. lia.
Qed.

(** Every sample of a window is an element of the field. *)
Lemma get5x5KernelHeights_In (heights : list Q) (width height x y : Z)
    (v : Q) :
  length heights = Z.to_nat (width * height) ->
  In v (get5x5KernelHeights heights width height x y) -> In v heights.
Proof.
  intros Hlen Hin. unfold get5x5KernelHeights in Hin.
  apply in_flat_map in Hin as [dy [_ Hin]].
  apply in_flat_map in Hin as [dx [_ Hin]]. cbv zeta in Hin.
  destruct ((x + dx >=? 0) && (x + dx <? width) && (y + dy >=? 0)
            && (y + dy <? height))%Z eqn:E; [|contradiction].
  rewrite !andb_true_iff in E. destruct E as [[[E1 E2] E3] E4].
  apply Z.geb_le in E1, E3. apply Z.ltb_lt in E2, E4.
  destruct Hin as [<-|[]]. apply get_In. rewrite Hlen. nia.
Qed.

Lemma set_Forall2 {A B : Type} (R : A -> B -> Prop) (l1 : list A)
    (l2 : list B) (i : Z) (v : B) :
  Forall2 R l1 l2 -> (forall a, In a l1 -> R a v) ->
  Forall2 R l1 (set l2 i v).
Proof.
  intros H Hv. unfold set. destruct (i <? 0)%Z; [exact H|].
  generalize (Z.to_nat i) as n.
  induction H as [|a b l1 l2 Hab H IH]; intros n; [constructor|].
  destruct n as [|n]; cbn [set_nat].
  - constructor; [apply Hv; now left | exact H].
  - constructor; [exact Hab|]. apply IH. intros a' Ha'. apply Hv. now right.
Qed.

Lemma hampelPixel_keptOrMedian (heights filtered : list Q)
    (width height : Z) (yx : Z * Z) :
  length heights = Z.to_nat (width * height) ->
  Forall2 (keptOrMedian heights) heights filtered ->
  Forall2 (keptOrMedian heights) heights
          (hampelPixel heights width height filtered yx).
Proof.
  intros Hlen H. destruct yx as [y x]. unfold hampelPixel. cbv zeta.
  set (kernel := get5x5KernelHeights heights width height x y).
  destruct (Z.of_nat (length kernel) >=? 9)%Z eqn:E; [|exact H].
  destruct (Qltb _ _); [|exact H].
  apply set_Forall2; [exact H|]. intros h _. right. exists kernel.
  split; [|split; [|reflexivity]].
  - apply Z.geb_le in E. intros ->. cbn in E. lia.
  - intros v Hv. now apply (get5x5KernelHeights_In heights width height x y).
Qed.

Lemma keptOrMedian_refl (field l : list Q) :
  Forall2 (keptOrMedian field) l l.
Proof. induction l; constructor; [now left | assumption]. Qed.

Lemma hampelLoop_keptOrMedian (heights : list Q) (width height : Z)
    (pixels : list (Z * Z)) :
  length heights = Z.to_nat (width * height) ->
  forall filtered,
    Forall2 (keptOrMedian heights) heights filtered ->
    Forall2 (keptOrMedian heights) heights
            (fold_left (hampelPixel heights width height) pixels filtered).
Proof.
  intros Hlen. induction pixels as [|yx rest IH]; intros filtered H;
    cbn [fold_left]; [exact H|].
  apply IH. now apply hampelPixel_keptOrMedian.
Qed.

Lemma applyHampelFilter_keptOrMedian (imageData : ImageData)
    (width height : Z) :
  let heights := applyNoFilter imageData width height in
  Forall2 (keptOrMedian heights) heights
          (applyHampelFilter imageData width height).
Proof.
  intros heights. unfold applyHampelFilter. cbv zeta.
  change (decodeWith (fun h => h) imageData width height) with heights.
  apply hampelLoop_keptOrMedian; [apply decodeWith_length|].
  apply keptOrMedian_refl.
Qed.

Lemma fold_Qmin_le (l : list Q) :
  forall a, fold_left Qmin l a <= a /\
            forall v, In v l -> fold_left Qmin l a <= v.
Proof.
  induction l as [|b l IH]; intros a; cbn [fold_left].
  - split; [apply Qle_refl | intros v []].
  - destruct (IH (Qmin a b)) as [H1 H2]. split.
    + eapply Qle_trans; [exact H1 | apply Q.le_min_l].
    + intros v [<-|Hv]; [|now apply H2].
      eapply Qle_trans; [exact H1 | apply Q.le_min_r].
Qed.

Lemma fold_Qmax_ge (l : list Q) :
  forall a, a <= fold_left Qmax l a /\
            forall v, In v l -> v <= fold_left Qmax l a.
Proof.
  induction l as [|b l IH]; intros a; cbn [fold_left].
  - split; [apply Qle_refl | intros v []].
  - destruct (IH (Qmax a b)) as [H1 H2]. split.
    + eapply Qle_trans; [apply Q.le_max_l | exact H1].
    + intros v [<-|Hv]; [|now apply H2].
      eapply Qle_trans; [apply Q.le_max_r | exact H1].
Qed.

Lemma minOf_maxOf_bound (l : list Q) (v : Q) :
  In v l -> minOf l <= v <= maxOf l.
Proof.
  destruct l as [|a l]; [intros []|]. unfold minOf, maxOf.
  destruct (fold_Qmin_le l a) as [H1 H2].
  destruct (fold_Qmax_ge l a) as [H3 H4].
  intros [<-|Hv]; split; auto.
Qed.

Lemma keptOrMedian_within (heights : list Q) (h f : Q) :
  In h heights -> keptOrMedian heights h f ->
  minOf heights <= f <= maxOf heights.
Proof.
  intros Hh [->|[kernel [Hne [Hincl ->]]]].
  - now apply minOf_maxOf_bound.
  - apply calculateMedian_within; [exact Hne|].
    intros v Hv. apply minOf_maxOf_bound, Hincl, Hv.
Qed.

Lemma Forall2_Forall_r {A B : Type} (R : A -> B -> Prop) (P : B -> Prop)
    (l1 : list A) (l2 : list B) :
  Forall2 R l1 l2 -> (forall a b, In a l1 -> R a b -> P b) -> Forall P l2.
Proof.
  intros H HP. induction H as [|a b l1 l2 Hab H IH]; constructor.
  - apply (HP a); [now left | exact Hab].
  - apply IH. intros a' b' Ha'. apply HP. now right.
Qed.

(** C9. On every raster the Hampel filter returns, pixel by pixel, the
    decoded (8000-capped) height or the median of a non-empty collection of
    decoded heights of the field; hence every value of its output lies
    between the minimum and the maximum of the decoded field, and the
    filter introduces no new global minimum or maximum. *)
Theorem applyHampelFilter_within_extremes (imageData : ImageData)
    (width height : Z) :
  wellFormed imageData width height ->
  let heights := applyNoFilter imageData width height in
  let filtered := applyHampelFilter imageData width height in
  length filtered = length heights /\
  Forall2 (keptOrMedian heights) heights filtered /\
  Forall (fun v => minOf heights <= v <= maxOf heights) filtered.
Proof.
  intros _ heights filtered.
  pose proof (applyHampelFilter_keptOrMedian imageData width height) as H.
  fold heights filtered in H.
  split; [symmetry; eapply Forall2_length; exact H|].
  split; [exact H|].
  apply (Forall2_Forall_r _ _ _ _ H).
  intros h f. apply keptOrMedian_within.
Qed.

End HampelBounds.

Lemma spikeRaster_wellFormed :
  TerrainFilters.wellFormed (Fixtures.spikeRaster (fun _ => 255)) 5 5.
Proof.
  repeat split; try discriminate.
  apply Forall_forall. intros c Hc.
  assert (Hb : forallb (fun c => (0 <=? c) && (c <=? 255))
                 (data (Fixtures.spikeRaster (fun _ => 255))) = true)
    by reflexivity.
  rewrite forallb_forall in Hb. specialize (Hb c Hc). lia.
Qed.

Lemma applyHampelFilter_within_extremes_witness :
  let raster := Fixtures.spikeRaster (fun _ => 255) in
  Forall (fun v => (minOf (TerrainFilters.applyNoFilter raster 5 5) <= v
                    <= maxOf (TerrainFilters.applyNoFilter raster 5 5))%Q)
    (TerrainFilters.applyHampelFilter raster 5 5).
Proof.
  exact (proj2 (proj2 (applyHampelFilter_within_extremes
                         (Fixtures.spikeRaster (fun _ => 255)) 5 5
                         spikeRaster_wellFormed))).
Defined.

(** * Further properties of the code *)

(** ** Zoom selection and the tile budget *)

Section TileBudget.

Import TileUtils.

Variable pointToTile : Q -> Q -> Z -> Z * Z.

Lemma forRange_cons (lo hi : Z) :
  lo < hi -> forRange lo hi = lo :: forRange (lo + 1) hi.
Proof.
  intros H. unfold forRange.
  replace (Z.to_nat (hi - lo)) with (S (Z.to_nat (hi - (lo + 1)))) by lia.
  cbn [seq map]. f_equal; [lia|].
  rewrite <- seq_shift, map_map. apply map_ext. intros k. lia.
Qed.

(** The loop over the zooms [a, a+1, ..., a+n-1]: it keeps [zoom] when
    the first of them is over the budget, and otherwise returns the last
    zoom of the run of zooms within the budget that starts at [a]. *)
Lemma zoomLoop_run (bbox : BoundingBox) (maxTiles : Z) (n : nat) :
  forall a zoom,
    let r := zoomLoop pointToTile bbox maxTiles
                      (forRange a (a + Z.of_nat n)) zoom in
    (n = 0%nat \/ maxTiles < totalTiles pointToTile bbox a -> r = zoom) /\
    (n <> 0%nat -> totalTiles pointToTile bbox a <= maxTiles ->
     a <= r < a + Z.of_nat n /\
     (forall z, a <= z <= r -> totalTiles pointToTile bbox z <= maxTiles) /\
     (r + 1 < a + Z.of_nat n ->
      maxTiles < totalTiles pointToTile bbox (r + 1))).
Proof.
  induction n as [|n IH]; intros a zoom r.
  - subst r. replace (a + Z.of_nat 0) with a by lia.
    unfold forRange. rewrite Z.sub_diag. cbn. split; [reflexivity | congruence].
  - subst r. rewrite forRange_cons by lia. cbn [zoomLoop].
    replace (a + Z.of_nat (S n)) with (a + 1 + Z.of_nat n) by lia.
    destruct (totalTiles pointToTile bbox a <=? maxTiles) eqn:E.
    + apply Z.leb_le in E. split; [intros [H|H]; [discriminate | lia]|].
      intros _ _. specialize (IH (a + 1) a). cbv zeta in IH.
      destruct IH as [IH0 IH1].
      destruct n as [|n].
      * rewrite IH0 by now left. split; [lia|]. split; [|lia].
        intros z Hz. now replace z with a by lia.
      * destruct (Z_le_gt_dec (totalTiles pointToTile bbox (a + 1)) maxTiles)
          as [Hle|Hgt].
        -- destruct (IH1 ltac:(discriminate) Hle) as (Hr & Hall & Hnext).
           split; [lia|]. split; [|exact Hnext].
           intros z Hz. destruct (Z.eq_dec z a) as [->|Hne]; [exact E|].
           apply Hall. lia.
        -- rewrite IH0 by (right; lia). split; [lia|]. split.
           ++ intros z Hz. now replace z with a by lia.
           ++ intros _. lia.
    + apply Z.leb_gt in E. split; [reflexivity | lia].
Qed.

(** X1. When zoom 0 is within the tile budget, [calculateZoomLevel] returns
    the clamp to [[8,15]] of the last zoom [r] of the run of zooms within the
    budget that starts at 0: every zoom up to [r] is within [maxTiles] and
    zoom [r + 1], if it is at most 18, is over it. When zoom 0 is already
    over the budget the result is 10. *)
Theorem calculateZoomLevel_last_zoom_within_budget (bbox : BoundingBox)
    (maxTiles : Z) :
  (totalTiles pointToTile bbox 0 <= maxTiles ->
   exists r,
     0 <= r <= 18 /\
     calculateZoomLevel pointToTile bbox maxTiles = Z.max 8 (Z.min r 15) /\
     (forall z, 0 <= z <= r -> totalTiles pointToTile bbox z <= maxTiles) /\
     (r < 18 -> maxTiles < totalTiles pointToTile bbox (r + 1))) /\
  (maxTiles < totalTiles pointToTile bbox 0 ->
   calculateZoomLevel pointToTile bbox maxTiles = 10).
Proof.
  pose proof (zoomLoop_run bbox maxTiles 19 0 10) as H. cbv zeta in H.
  change (0 + Z.of_nat 19) with (18 + 1) in H.
  fold (forRangeIncl 0 18) in H. destruct H as [H0 H1].
  unfold calculateZoomLevel. cbv zeta. split.
  - intros Hz. destruct (H1 ltac:(discriminate) Hz) as (Hr & Hall & Hnext).
    eexists. split; [|split; [reflexivity|split; [exact Hall|]]]; [lia|].
    intros Hlt. apply Hnext. lia.
  - intros Hz. now rewrite H0 by (right; exact Hz).
Qed.

(** The number of tiles [getTilesForBoundingBox] returns is the count
    [calculateZoomLevel] compares with the budget. *)
Lemma getTilesForBoundingBox_length_totalTiles (bbox : BoundingBox)
    (zoom : Z) :
  Z.of_nat (length (getTilesForBoundingBox pointToTile bbox zoom))
  = totalTiles pointToTile bbox zoom.
Proof.
  unfold getTilesForBoundingBox, totalTiles. cbv zeta.
  rewrite grid_length. unfold forRangeIncl. rewrite !forRange_length.
  rewrite Nat2Z.inj_mul, !Z2Nat.id by lia. f_equal; lia.
Qed.

(** X2. The zoom that [calculateZoomLevel] selects keeps the tile list of
    [getTilesForBoundingBox] within the budget whenever the zooms 0 to 8
    are within it, that is, unless the result had to be raised to the
    minimum zoom 8; and the list is never empty. *)
Theorem pipeline_tiles_within_budget (bbox : BoundingBox) (maxTiles : Z) :
  let zoom := calculateZoomLevel pointToTile bbox maxTiles in
  let tiles := getTilesForBoundingBox pointToTile bbox zoom in
  tiles <> [] /\
  ((forall z, 0 <= z <= 8 -> totalTiles pointToTile bbox z <= maxTiles) ->
   Z.of_nat (length tiles) <= maxTiles).
Proof.
  intros zoom tiles. split.
  - intros Hnil.
    pose proof (getTilesForBoundingBox_length_totalTiles bbox zoom) as H.
    fold tiles in H. rewrite Hnil in H. unfold totalTiles in H. cbn in H. nia.
  - intros Hlow. unfold tiles.
    rewrite getTilesForBoundingBox_length_totalTiles.
    pose proof (zoomLoop_run bbox maxTiles 19 0 10) as H. cbv zeta in H.
    change (0 + Z.of_nat 19) with (18 + 1) in H.
    fold (forRangeIncl 0 18) in H.
    destruct (proj2 H ltac:(discriminate) (Hlow 0 ltac:(lia)))
      as (Hr & Hall & Hnext).
    set (r := zoomLoop pointToTile bbox maxTiles (forRangeIncl 0 18) 10) in *.
    assert (8 <= r).
    { destruct (Z_lt_le_dec r 8) as [Hlt|]; [|assumption].
      specialize (Hnext ltac:(lia)). specialize (Hlow (r + 1) ltac:(lia)). lia. }
    apply Hall. unfold zoom, calculateZoomLevel. fold r. lia.
Qed.

End TileBudget.

Lemma calculateZoomLevel_last_zoom_within_budget_witness :
  exists r,
    0 <= r <= 18 /\
    TileUtils.calculateZoomLevel Fixtures.gridPointToTile Fixtures.smallBox 16
    = Z.max 8 (Z.min r 15) /\
    (forall z, 0 <= z <= r ->
       TileUtils.totalTiles Fixtures.gridPointToTile Fixtures.smallBox z
       <= 16) /\
    (r < 18 ->
     16 < TileUtils.totalTiles Fixtures.gridPointToTile Fixtures.smallBox
            (r + 1)).
Proof.
  apply (proj1 (calculateZoomLevel_last_zoom_within_budget
                  Fixtures.gridPointToTile Fixtures.smallBox 16)).
  vm_compute. discriminate.
Defined.

Lemma pipeline_tiles_within_budget_witness :
  Z.of_nat
    (length
       (TileUtils.getTilesForBoundingBox Fixtures.gridPointToTile
          Fixtures.smallBox
          (TileUtils.calculateZoomLevel Fixtures.gridPointToTile
             Fixtures.smallBox 16)))
  <= 16.
Proof.
  apply (proj2 (pipeline_tiles_within_budget
                  Fixtures.gridPointToTile Fixtures.smallBox 16)).
  intros z Hz.
  assert (Hcases : z = 0 \/ z = 1 \/ z = 2 \/ z = 3 \/ z = 4 \/ z = 5
                   \/ z = 6 \/ z = 7 \/ z = 8) by lia.
  repeat (destruct Hcases as [-> | Hcases]; [vm_compute; discriminate|]).
  subst z. vm_compute. discriminate.
Defined.

(** ** Boxes that touch a pole *)

Section TilesAtPoles.

Import TileUtils.

Variable pointToTileAtPoles : Q -> Q -> Z -> Z * Row.

(** A loop over [y] that starts at [-Infinity] or runs up to [Infinity]
    never ends: [y++] leaves [-Infinity] where it is, and no integer
    exceeds [Infinity]. *)
Lemma rowLoop_never_ends (fuel : nat) (x : Z) (maxY : Row) (zoom : Z) :
  forall (y : Row) (tiles : list (Z * Row * Z)),
    y = NegInfinity \/ maxY = Infinity ->
    rowLoop fuel x y maxY zoom tiles = None.
Proof.
  induction fuel as [|fuel IH]; intros y tiles Hy; [reflexivity|].
  cbn [rowLoop].
  replace (leRow y maxY) with true
    by (destruct Hy as [-> | ->]; [reflexivity | now destruct y]).
  apply IH. destruct Hy as [-> | ->]; [now left | now right].
Qed.

Lemma infinite_row_extremes (a b : Row) :
  (forall n, a <> Integer n) \/ (forall n, b <> Integer n) ->
  minRow a b = NegInfinity \/ maxRow a b = Infinity.
Proof.
  unfold minRow, maxRow.
  destruct a as [|m|], b as [|n|]; cbn; intros [H | H];
    try (now left); try (now right);
    try (now (exfalso; apply (H m))); try (now (exfalso; apply (H n)));
    destruct (m <=? n); try (now left); now right.
Qed.

Lemma getTilesForBoundingBoxWithin_never_returns (bbox : BoundingBox)
    (zoom : Z) :
  (forall n, snd (pointToTileAtPoles (minLon bbox) (maxLat bbox) zoom)
             <> Integer n) \/
  (forall n, snd (pointToTileAtPoles (maxLon bbox) (minLat bbox) zoom)
             <> Integer n) ->
  forall fuel,
    getTilesForBoundingBoxWithin pointToTileAtPoles fuel bbox zoom = None.
Proof.
  intros Hrow fuel. unfold getTilesForBoundingBoxWithin. cbv zeta.
  apply infinite_row_extremes in Hrow.
  unfold forRangeIncl. rewrite forRange_cons by lia. cbn [columnLoop].
  now rewrite rowLoop_never_ends.
Qed.

(** A loop over [y] between two integers ends after [maxY - y + 1] tiles,
    and one more test. *)
Lemma rowLoop_between_integers (n : nat) (x maxY zoom : Z) :
  forall (fuel : nat) (y : Z) (tiles : list (Z * Row * Z)),
    Z.of_nat n = maxY - y + 1 -> (n < fuel)%nat ->
    rowLoop fuel x (Integer y) (Integer maxY) zoom tiles
    = Some (tiles ++ map (fun y => (x, Integer y, zoom))
                         (forRange y (maxY + 1))).
Proof.
  induction n as [|n IH]; intros fuel y tiles Hn Hfuel;
    (destruct fuel as [|fuel]; [lia|]); cbn [rowLoop leRow nextRow].
  - replace (y <=? maxY) with false by (symmetry; apply Z.leb_gt; lia).
    unfold forRange. replace (maxY + 1 - y) with 0 by lia.
    cbn. now rewrite app_nil_r.
  - replace (y <=? maxY) with true by (symmetry; apply Z.leb_le; lia).
    rewrite (IH fuel (y + 1)) by lia.
    rewrite (forRange_cons y (maxY + 1)) by lia. cbn [map].
    now rewrite <- app_assoc.
Qed.

Lemma columnLoop_between_integers (fuel : nat) (minY maxY zoom : Z)
    (xs : list Z) :
  minY <= maxY -> (Z.to_nat (maxY - minY + 1) < fuel)%nat ->
  forall tiles,
    columnLoop fuel xs (Integer minY) (Integer maxY) zoom tiles
    = Some (tiles ++ map polarTile
                       (tileGrid xs (forRangeIncl minY maxY) zoom)).
Proof.
  intros Hle Hfuel. induction xs as [|x xs IH]; intros tiles.
  - cbn. now rewrite app_nil_r.
  - cbn [columnLoop].
    rewrite (rowLoop_between_integers (Z.to_nat (maxY - minY + 1)))
      by lia.
    rewrite IH. unfold tileGrid. cbn [flat_map].
    rewrite map_app, map_map, <- app_assoc. reflexivity.
Qed.

Lemma integer_row_extremes (a b : Z) :
  minRow (Integer a) (Integer b) = Integer (Z.min a b) /\
  maxRow (Integer a) (Integer b) = Integer (Z.max a b).
Proof.
  unfold minRow, maxRow. cbn [leRow].
  destruct (a <=? b) eqn:E;
    [apply Z.leb_le in E | apply Z.leb_gt in E]; split; f_equal; lia.
Qed.

(** X23. [getTilesForBoundingBox] returns exactly when the rows of both
    corners of the box are integers. When the row of a corner is infinite,
    as it is for a box that touches a pole, a loop over [y] runs for ever.
    On every other box the function returns, after a bounded number of
    steps, the [(maxX-minX+1)*(maxY-minY+1)] tiles of the rectangle between
    the corners, no [(x, y)] pair twice and each with the requested zoom;
    a box whose corners fall in one tile yields that single tile. *)
Theorem getTilesForBoundingBox_returns_between_poles (bbox : BoundingBox)
    (zoom : Z) :
  ((forall n, snd (pointToTileAtPoles (minLon bbox) (maxLat bbox) zoom)
              <> Integer n) \/
   (forall n, snd (pointToTileAtPoles (maxLon bbox) (minLat bbox) zoom)
              <> Integer n) ->
   forall fuel,
     getTilesForBoundingBoxWithin pointToTileAtPoles fuel bbox zoom = None) /\
  (forall pointToTile : Q -> Q -> Z -> Z * Z,
     let topLeft := pointToTile (minLon bbox) (maxLat bbox) zoom in
     let bottomRight := pointToTile (maxLon bbox) (minLat bbox) zoom in
     let minX := Z.min (fst topLeft) (fst bottomRight) in
     let maxX := Z.max (fst topLeft) (fst bottomRight) in
     let minY := Z.min (snd topLeft) (snd bottomRight) in
     let maxY := Z.max (snd topLeft) (snd bottomRight) in
     let tiles := getTilesForBoundingBox pointToTile bbox zoom in
     pointToTileAtPoles (minLon bbox) (maxLat bbox) zoom
     = (fst topLeft, Integer (snd topLeft)) ->
     pointToTileAtPoles (maxLon bbox) (minLat bbox) zoom
     = (fst bottomRight, Integer (snd bottomRight)) ->
     (forall fuel, (Z.to_nat (maxY - minY + 1) < fuel)%nat ->
        getTilesForBoundingBoxWithin pointToTileAtPoles fuel bbox zoom
        = Some (map polarTile tiles)) /\
     Z.of_nat (length tiles) = (maxX - minX + 1) * (maxY - minY + 1) /\
     NoDup (map (fun t => (x t, y t)) tiles) /\
     Forall (fun t => z t = zoom) tiles /\
     (forall t, In t tiles <->
                minX <= x t <= maxX /\ minY <= y t <= maxY /\ z t = zoom) /\
     (topLeft = bottomRight ->
      tiles = [mkTileCoord (fst topLeft) (snd topLeft) zoom])).
Proof.
  split; [apply getTilesForBoundingBoxWithin_never_returns|].
  intros pointToTile topLeft bottomRight minX maxX minY maxY tiles Htl Hbr.
  split; [|apply getTilesForBoundingBox_rectangle].
  intros fuel Hfuel. unfold getTilesForBoundingBoxWithin. cbv zeta.
  rewrite Htl, Hbr. cbn [fst snd].
  destruct (integer_row_extremes (snd topLeft) (snd bottomRight))
    as [-> ->].
  fold minX maxX minY maxY.
  rewrite columnLoop_between_integers by (unfold minY, maxY in *; lia).
  reflexivity.
Qed.

End TilesAtPoles.

(** C5 fails on the code at a box that [parseBoundingBox] accepts: for the
    box from the equator to the north pole the top-left corner has the row
    [-Infinity] (at zoom 10 the corners are the tiles [(512, -Infinity)] and
    [(514, 512)]), so [minY] is [-Infinity], [y++] leaves it there and the
    first loop over [y] pushes tiles without end: at every zoom the
    function returns no list, whatever the number of steps it is given. *)
Theorem getTilesForBoundingBox_hangs_at_pole :
  let bbox := Fixtures.poleBox in
  TileUtils.isValidBoundingBox bbox = true /\
  Fixtures.polarPointToTile (TileUtils.minLon bbox) (TileUtils.maxLat bbox) 10
  = (512, TileUtils.NegInfinity) /\
  Fixtures.polarPointToTile (TileUtils.maxLon bbox) (TileUtils.minLat bbox) 10
  = (514, TileUtils.Integer 512) /\
  forall (zoom : Z) (fuel : nat),
    TileUtils.getTilesForBoundingBoxWithin Fixtures.polarPointToTile fuel
      bbox zoom
    = None.
Proof.
  cbv zeta. split; [reflexivity|]. split; [reflexivity|].
  split; [reflexivity|]. intros zoom.
  apply getTilesForBoundingBoxWithin_never_returns. left.
  intros n. unfold Fixtures.polarPointToTile.
  destruct (Fixtures.gridPointToTile _ _ _). discriminate.
Qed.

Lemma getTilesForBoundingBox_returns_between_poles_witness :
  TileUtils.getTilesForBoundingBoxWithin Fixtures.polarPointToTile 3
    Fixtures.quadBox 1
  = Some [(0, TileUtils.Integer 0, 1); (0, TileUtils.Integer 1, 1);
          (1, TileUtils.Integer 0, 1); (1, TileUtils.Integer 1, 1)].
Proof.
  apply (proj2 (getTilesForBoundingBox_returns_between_poles
                  Fixtures.polarPointToTile Fixtures.quadBox 1)
           Fixtures.gridPointToTile).
  - reflexivity.
  - reflexivity.
  - vm_compute. lia.
Defined.

(** ** The grid of the stitcher *)

Section StitcherGrid.

Import TileUtils TileStitcher.

Lemma keysOf_In (ks : list Z) :
  forall seen k, In k (keysOf seen ks) <-> In k ks /\ ~ In k seen.
Proof.
  induction ks as [|a ks IH]; intros seen k; cbn [keysOf]; [cbn; tauto|].
  destruct (existsb (Z.eqb a) seen) eqn:E.
  - apply existsb_exists in E as [b [Hb Hab]]. apply Z.eqb_eq in Hab. subst b.
    rewrite IH. cbn. intuition congruence.
  - assert (Ha : ~ In a seen).
    { intros Hin. apply not_true_iff_false in E. apply E.
      apply existsb_exists. exists a. split; [exact Hin | apply Z.eqb_refl]. }
    cbn [In]. rewrite IH. cbn [In].
    destruct (Z.eq_dec a k) as [->|Hne]; intuition congruence.
Qed.

Lemma keysOf_NoDup (ks : list Z) : forall seen, NoDup (keysOf seen ks).
Proof.
  induction ks as [|a ks IH]; intros seen; cbn [keysOf]; [constructor|].
  destruct (existsb (Z.eqb a) seen); [apply IH|].
  constructor; [|apply IH]. rewrite keysOf_In. cbn. tauto.
Qed.

Lemma insertZ_In (v a : Z) (l : list Z) :
  In v (insertZ a l) <-> v = a \/ In v l.
Proof.
  induction l as [|w l IH]; cbn; [intuition congruence|].
  destruct (a <=? w); cbn; [intuition congruence|]. rewrite IH. tauto.
Qed.

Lemma sortZ_In (v : Z) (l : list Z) : In v (sortZ l) <-> In v l.
Proof.
  unfold sortZ. induction l as [|a l IH]; cbn; [tauto|].
  rewrite insertZ_In, IH. intuition congruence.
Qed.

Lemma insertZ_length (a : Z) (l : list Z) :
  length (insertZ a l) = S (length l).
Proof.
  induction l as [|w l IH]; cbn; [reflexivity|].
  destruct (a <=? w); cbn; congruence.
Qed.

Lemma sortZ_length (l : list Z) : length (sortZ l) = length l.
Proof.
  unfold sortZ. induction l as [|a l IH]; cbn; [reflexivity|].
  now rewrite insertZ_length, IH.
Qed.

Lemma insertZ_sorted (a : Z) (l : list Z) :
  ~ In a l -> StronglySorted Z.lt l -> StronglySorted Z.lt (insertZ a l).
Proof.
  intros Ha H. induction H as [|w l Hl IH Hw]; cbn.
  - repeat constructor.
  - destruct (a <=? w) eqn:E.
    + apply Z.leb_le in E.
      assert (a < w) by (cbn in Ha; lia).
      constructor; [now constructor|]. constructor; [assumption|].
      eapply Forall_impl; [|exact Hw]. cbn. intros; lia.
    + apply Z.leb_gt in E. constructor.
      * apply IH. cbn in Ha. tauto.
      * apply Forall_forall. intros v Hv. apply insertZ_In in Hv as [->|Hv];
          [exact E|]. rewrite Forall_forall in Hw. now apply Hw.
Qed.

(** The sorted distinct keys are strictly increasing. *)
Lemma sortZ_sorted (l : list Z) :
  NoDup l -> StronglySorted Z.lt (sortZ l).
Proof.
  unfold sortZ. induction 1 as [|a l Ha Hl IH]; cbn; [constructor|].
  apply insertZ_sorted; [|exact IH]. now rewrite (sortZ_In a l).
Qed.

Lemma indexOf_In (arr : list Z) (v : Z) :
  In v arr -> 0 <= indexOf arr v < Z.of_nat (length arr).
Proof.
  induction arr as [|a arr IH]; intros Hin; [destruct Hin|].
  cbn [indexOf length]. destruct (a =? v) eqn:E; [lia|].
  apply Z.eqb_neq in E. destruct Hin as [->|Hin]; [congruence|].
  specialize (IH Hin). destruct (indexOf arr v <? 0) eqn:E'; [|lia].
  apply Z.ltb_lt in E'. lia.
Qed.

(** On strictly increasing keys, a larger key has a larger index. *)
Lemma indexOf_increasing (arr : list Z) (v w : Z) :
  StronglySorted Z.lt arr -> In v arr -> In w arr -> v < w ->
  indexOf arr v < indexOf arr w.
Proof.
  induction 1 as [|a arr Harr IH Ha]; intros Hv Hw Hlt; [destruct Hv|].
  rewrite Forall_forall in Ha. cbn [indexOf].
  destruct (a =? v) eqn:Ev.
  - apply Z.eqb_eq in Ev. subst a.
    destruct (v =? w) eqn:Ew; [apply Z.eqb_eq in Ew; lia|].
    destruct Hw as [->|Hw]; [lia|]. pose proof (indexOf_In arr w Hw).
    destruct (indexOf arr w <? 0) eqn:E; [apply Z.ltb_lt in E; lia | lia].
  - apply Z.eqb_neq in Ev. destruct Hv as [->|Hv]; [congruence|].
    destruct (a =? w) eqn:Ew.
    + apply Z.eqb_eq in Ew. subst a. specialize (Ha v Hv). lia.
    + apply Z.eqb_neq in Ew. destruct Hw as [->|Hw]; [congruence|].
      specialize (IH Hv Hw Hlt).
      pose proof (indexOf_In arr v Hv). pose proof (indexOf_In arr w Hw).
      destruct (indexOf arr v <? 0) eqn:E1; [apply Z.ltb_lt in E1; lia|].
      destruct (indexOf arr w <? 0) eqn:E2; [apply Z.ltb_lt in E2; lia|].
      lia.
Qed.

Variable tileToBBOX : Z * Z * Z -> Q * Q * Q * Q.
Variable fetchTile : string -> bool.
Variable arrivalOrder : list TileCoord -> list TileCoord.

(** X3. For a tile list that is not empty, [stitchTiles] creates the
    composite canvas of one 512-pixel cell per distinct [x] and per distinct
    [y], issues the fetch of every tile in the order of the list, and only
    then paints, in the order of arrival, the cell of each tile: the image
    when its fetch succeeds, a gray square when it fails. When every promise
    settles, so that the arrivals are a permutation of the tiles, the paints
    are a permutation of the paints of the tiles: every tile is painted
    once. Every cell lies inside the canvas, and a tile with a larger [x]
    (or [y]) is painted in a cell further right (or down), so tiles with
    different coordinates never overlap. What follows fetches and paints
    no tile. *)
Theorem stitchTiles_paints_cells (tile : TileCoord) (more : list TileCoord)
    (bbox : BoundingBox) (style : TileStyle) (token : string) :
  let tiles := tile :: more in
  let xCoords := sortZ (keysOf [] (map x tiles)) in
  let yCoords := sortZ (keysOf [] (map y tiles)) in
  let W := Z.of_nat (length xCoords) * 512 in
  let H := Z.of_nat (length yCoords) * 512 in
  let cellX t := indexOf xCoords (x t) * 512 in
  let cellY t := indexOf yCoords (y t) * 512 in
  let url t := getMapboxTileUrl t style token in
  let paint t :=
    if fetchTile (url t) then DrawImage (cellX t) (cellY t) 512 512
    else FillRect "#808080" (cellX t) (cellY t) 512 512 in
  Permutation (arrivalOrder tiles) tiles ->
  (exists tail,
      fst (stitchTiles tileToBBOX fetchTile arrivalOrder tiles bbox style
                       token)
      = CreateCanvas W H
          :: map (fun t => Fetch (url t)) tiles
          ++ map paint (arrivalOrder tiles) ++ tail /\
      Forall (fun e => ~ tileEffect e) tail) /\
  Permutation (map paint (arrivalOrder tiles)) (map paint tiles) /\
  (forall t, In t tiles ->
             0 <= cellX t /\ cellX t + 512 <= W /\
             0 <= cellY t /\ cellY t + 512 <= H) /\
  (forall t t', In t tiles -> In t' tiles ->
                (x t < x t' -> cellX t + 512 <= cellX t') /\
                (y t < y t' -> cellY t + 512 <= cellY t')).
Proof.
  intros tiles xCoords yCoords W H cellX cellY url paint Harrive.
  assert (Hx : forall t, In t tiles -> In (x t) xCoords).
  { intros t Ht. apply sortZ_In, keysOf_In. split; [now apply in_map | tauto]. }
  assert (Hy : forall t, In t tiles -> In (y t) yCoords).
  { intros t Ht. apply sortZ_In, keysOf_In. split; [now apply in_map | tauto]. }
  split; [|split; [|split]].
  - unfold stitchTiles.
    replace (Z.of_nat (length tiles) =? 0) with false
      by (symmetry; apply Z.eqb_neq; unfold tiles; cbn [length]; lia).
    cbv zeta. cbn [fst app]. eexists. split; [reflexivity|].
    destruct style; repeat constructor; intros [].
  - apply Permutation_map, Harrive.
  - intros t Ht. pose proof (indexOf_In _ _ (Hx t Ht)).
    pose proof (indexOf_In _ _ (Hy t Ht)). unfold cellX, cellY, W, H. lia.
  - intros t t' Ht Ht'. split; intros Hlt.
    + pose proof (indexOf_increasing xCoords (x t) (x t')
                    (sortZ_sorted _ (keysOf_NoDup _ _))
                    (Hx t Ht) (Hx t' Ht') Hlt).
      unfold cellX. lia.
    + pose proof (indexOf_increasing yCoords (y t) (y t')
                    (sortZ_sorted _ (keysOf_NoDup _ _))
                    (Hy t Ht) (Hy t' Ht') Hlt).
      unfold cellY. lia.
Qed.

End StitcherGrid.

(** Two tiles side by side whose responses arrive in the opposite order:
    both fetches are issued before anything is painted, and the second
    tile is painted first. *)
Lemma stitchTiles_paints_cells_witness :
  let left := TileUtils.mkTileCoord 543 228 10 in
  let right := TileUtils.mkTileCoord 544 228 10 in
  let url t := TileUtils.getMapboxTileUrl t TileUtils.Satellite "tk" in
  exists tail,
    fst (TileStitcher.stitchTiles Fixtures.gridTileToBBOX
           Fixtures.fetchAlways Fixtures.arriveLastFirst [left; right]
           Fixtures.smallBox TileUtils.Satellite "tk")
    = [TileStitcher.CreateCanvas 1024 512;
       TileStitcher.Fetch (url left); TileStitcher.Fetch (url right);
       TileStitcher.DrawImage 512 0 512 512;
       TileStitcher.DrawImage 0 0 512 512] ++ tail /\
    Forall (fun e => ~ TileStitcher.tileEffect e) tail.
Proof.
  intros left right url.
  destruct (stitchTiles_paints_cells Fixtures.gridTileToBBOX
              Fixtures.fetchAlways Fixtures.arriveLastFirst left [right]
              Fixtures.smallBox TileUtils.Satellite "tk")
    as ((tail & Hrun & Htail) & _).
  - symmetry. apply Permutation_rev.
  - exists tail. split; [exact Hrun | exact Htail].
Defined.

(** ** The stitcher on the tiles of a bounding box *)

Section StitcherPipeline.

Import TileUtils TileStitcher.

Lemma keysOf_ext (ks : list Z) :
  forall seen seen', (forall k, In k seen <-> In k seen') ->
                     keysOf seen ks = keysOf seen' ks.
Proof.
  induction ks as [|a ks IH]; intros seen seen' H; cbn [keysOf]; [reflexivity|].
  assert (E : existsb (Z.eqb a) seen = existsb (Z.eqb a) seen').
  { apply eq_true_iff_eq. rewrite !existsb_exists.
    split; intros [b [Hb Hab]]; exists b; (split; [now apply H | exact Hab]). }
  rewrite E. destruct (existsb (Z.eqb a) seen'); [now apply IH|].
  f_equal. apply IH. intros k. cbn. now rewrite H.
Qed.

Lemma keysOf_app (l1 l2 : list Z) :
  forall seen,
    keysOf seen (l1 ++ l2) = keysOf seen l1 ++ keysOf (l1 ++ seen) l2.
Proof.
  induction l1 as [|a l1 IH]; intros seen; [reflexivity|].
  cbn [app keysOf]. destruct (existsb (Z.eqb a) seen) eqn:E.
  - rewrite IH. f_equal. apply keysOf_ext. intros k. rewrite !in_app_iff.
    cbn [In]. apply existsb_exists in E as [b [Hb Hab]].
    apply Z.eqb_eq in Hab. subst b. rewrite in_app_iff.
    intuition congruence.
  - cbn [app]. f_equal. rewrite IH. f_equal. apply keysOf_ext. intros k.
    rewrite !in_app_iff. cbn [In]. rewrite in_app_iff. tauto.
Qed.

Lemma keysOf_seen (ks seen : list Z) :
  (forall k, In k ks -> In k seen) -> keysOf seen ks = [].
Proof.
  intros H. destruct (keysOf seen ks) as [|k l] eqn:E; [reflexivity|].
  assert (Hk : In k (keysOf seen ks)) by (rewrite E; now left).
  apply keysOf_In in Hk as [Hk1 Hk2]. exfalso. auto.
Qed.

Lemma keysOf_fresh (ks : list Z) :
  forall seen, NoDup ks -> (forall k, In k ks -> ~ In k seen) ->
               keysOf seen ks = ks.
Proof.
  induction ks as [|a ks IH]; intros seen Hnd Hfresh; [reflexivity|].
  inversion Hnd; subst. cbn [keysOf].
  destruct (existsb (Z.eqb a) seen) eqn:E.
  - apply existsb_exists in E as [b [Hb Hab]]. apply Z.eqb_eq in Hab. subst b.
    exfalso. apply (Hfresh a); [now left | exact Hb].
  - f_equal. apply IH; [assumption|]. intros k Hk [->|Hin]; [contradiction|].
    apply (Hfresh k); [now right | exact Hin].
Qed.

(** The distinct [x] of a grid are its columns, in their order. *)
Lemma keysOf_grid_x (ys : list Z) (zoom : Z) (xs : list Z) :
  ys <> [] -> NoDup xs ->
  forall seen, (forall k, In k xs -> ~ In k seen) ->
               keysOf seen (map x (tileGrid xs ys zoom)) = xs.
Proof.
  intros Hys Hnd. induction Hnd as [|a xs Ha Hnd IH]; intros seen Hfresh;
    [reflexivity|].
  change (tileGrid (a :: xs) ys zoom)
    with (map (fun y => mkTileCoord a y zoom) ys ++ tileGrid xs ys zoom).
  rewrite map_app, map_map. cbn [x]. rewrite keysOf_app.
  destruct ys as [|b ys]; [congruence|]. cbn [map keysOf].
  replace (existsb (Z.eqb a) seen) with false.
  - rewrite keysOf_seen by (intros k Hk; apply in_map_iff in Hk as [? [<- _]];
                            now left).
    cbn [app]. f_equal. apply IH. intros k Hk Hin.
    change (In k ((a :: map (fun _ => a) ys) ++ seen)) in Hin.
    apply in_app_iff in Hin as [Hin|Hin].
    + assert (k = a) by (destruct Hin as [<-|Hin]; [reflexivity|];
                         apply in_map_iff in Hin as [? [<- _]]; reflexivity).
      congruence.
    + apply (Hfresh k); [now right | exact Hin].
  - symmetry. apply not_true_iff_false. intros E.
    apply existsb_exists in E as [c [Hc Hac]]. apply Z.eqb_eq in Hac. subst c.
    apply (Hfresh a); [now left | exact Hc].
Qed.

(** The distinct [y] of a grid are its rows, in their order. *)
Lemma keysOf_grid_y (xs ys : list Z) (zoom : Z) :
  xs <> [] -> NoDup ys -> keysOf [] (map y (tileGrid xs ys zoom)) = ys.
Proof.
  intros Hxs Hnd. destruct xs as [|a xs]; [congruence|].
  change (tileGrid (a :: xs) ys zoom)
    with (map (fun y => mkTileCoord a y zoom) ys ++ tileGrid xs ys zoom).
  rewrite map_app, map_map. cbn [y]. rewrite map_id, keysOf_app.
  rewrite keysOf_fresh by (auto using in_nil).
  rewrite keysOf_seen; [apply app_nil_r|].
  intros k Hk. apply in_map_iff in Hk as [t [<- Ht]].
  apply grid_In in Ht. rewrite app_nil_r. tauto.
Qed.

Lemma forRange_sorted (n : nat) :
  forall lo, StronglySorted Z.lt (forRange lo (lo + Z.of_nat n)).
Proof.
  induction n as [|n IH]; intros lo.
  - unfold forRange. replace (lo + Z.of_nat 0 - lo) with 0 by lia. constructor.
  - rewrite forRange_cons by lia.
    replace (lo + Z.of_nat (S n)) with (lo + 1 + Z.of_nat n) by lia.
    constructor; [apply IH|]. apply Forall_forall. intros v Hv.
    apply forRange_In in Hv. lia.
Qed.

Lemma sortZ_of_sorted (l : list Z) : StronglySorted Z.lt l -> sortZ l = l.
Proof.
  unfold sortZ. induction 1 as [|a l Hl IH Ha]; [reflexivity|].
  cbn [fold_right]. rewrite IH. destruct l as [|b l]; [reflexivity|].
  cbn [insertZ]. inversion Ha; subst.
  now replace (a <=? b) with true by (symmetry; apply Z.leb_le; lia).
Qed.

Lemma indexOf_forRange (n : nat) :
  forall lo v, lo <= v < lo + Z.of_nat n ->
               indexOf (forRange lo (lo + Z.of_nat n)) v = v - lo.
Proof.
  induction n as [|n IH]; intros lo v Hv; [lia|].
  rewrite forRange_cons by lia. cbn [indexOf].
  destruct (lo =? v) eqn:E; [apply Z.eqb_eq in E; lia|].
  apply Z.eqb_neq in E.
  replace (lo + Z.of_nat (S n)) with (lo + 1 + Z.of_nat n) by lia.
  rewrite IH by lia.
  destruct (v - (lo + 1) <? 0) eqn:E'; [apply Z.ltb_lt in E'; lia | lia].
Qed.

Variable pointToTile : Q -> Q -> Z -> Z * Z.
Variable tileToBBOX : Z * Z * Z -> Q * Q * Q * Q.
Variable fetchTile : string -> bool.
Variable arrivalOrder : list TileCoord -> list TileCoord.

Lemma flat_map_ext_In {A B : Type} (f g : A -> list B) (l : list A) :
  (forall a, In a l -> f a = g a) -> flat_map f l = flat_map g l.
Proof.
  induction l as [|a l IH]; intros H; [reflexivity|]. cbn [flat_map].
  rewrite H by now left. f_equal. apply IH. intros b Hb. apply H. now right.
Qed.

Lemma forRange_as_run (lo hi : Z) :
  lo <= hi -> forRange lo hi = forRange lo (lo + Z.of_nat (Z.to_nat (hi - lo))).
Proof. intros H. f_equal. lia. Qed.

Lemma sortZ_forRange (lo hi : Z) :
  lo <= hi -> sortZ (forRange lo hi) = forRange lo hi.
Proof.
  intros H. rewrite forRange_as_run by exact H.
  apply sortZ_of_sorted, forRange_sorted.
Qed.

Lemma indexOf_forRange_at (lo hi v : Z) :
  lo <= v < hi -> indexOf (forRange lo hi) v = v - lo.
Proof.
  intros H. rewrite forRange_as_run by lia. apply indexOf_forRange. lia.
Qed.

(** X4. As [loadTiles] composes them: on the tiles that
    [getTilesForBoundingBox] returns for any box and zoom, [stitchTiles]
    never fails with "No tiles provided"; its composite canvas is
    [(maxX-minX+1)*512] by [(maxY-minY+1)*512] pixels; the fetches of all
    tiles are issued first, in the order of the list; and when the arrivals
    are a permutation of the tiles, each arrival [(x, y)] is painted in the
    cell at [((x-minX)*512, (y-minY)*512)]. What follows fetches and paints
    no tile. *)
Theorem stitchTiles_on_bounding_box_tiles (tileBox cropBox : BoundingBox)
    (zoom : Z) (style : TileStyle) (token : string) :
  let topLeft := pointToTile (minLon tileBox) (maxLat tileBox) zoom in
  let bottomRight := pointToTile (maxLon tileBox) (minLat tileBox) zoom in
  let minX := Z.min (fst topLeft) (fst bottomRight) in
  let maxX := Z.max (fst topLeft) (fst bottomRight) in
  let minY := Z.min (snd topLeft) (snd bottomRight) in
  let maxY := Z.max (snd topLeft) (snd bottomRight) in
  let tiles := getTilesForBoundingBox pointToTile tileBox zoom in
  let url t := getMapboxTileUrl t style token in
  let paint t :=
    if fetchTile (url t)
    then DrawImage ((x t - minX) * 512) ((y t - minY) * 512) 512 512
    else FillRect "#808080" ((x t - minX) * 512) ((y t - minY) * 512)
                  512 512 in
  Permutation (arrivalOrder tiles) tiles ->
  exists tail stitched,
    stitchTiles tileToBBOX fetchTile arrivalOrder tiles cropBox style token
    = (CreateCanvas ((maxX - minX + 1) * 512) ((maxY - minY + 1) * 512)
         :: map (fun t => Fetch (url t)) tiles
         ++ map paint (arrivalOrder tiles) ++ tail,
       Returned stitched) /\
    Forall (fun e => ~ tileEffect e) tail.
Proof.
  intros topLeft bottomRight minX maxX minY maxY tiles url paint.
  subst tiles. unfold getTilesForBoundingBox, forRangeIncl. cbv zeta.
  fold topLeft bottomRight. fold minX maxX minY maxY.
  set (xs := forRange minX (maxX + 1)).
  set (ys := forRange minY (maxY + 1)).
  intros Harrive.
  assert (Hxs : xs <> [])
    by (unfold xs; rewrite forRange_cons by lia; discriminate).
  assert (Hys : ys <> [])
    by (unfold ys; rewrite forRange_cons by lia; discriminate).
  assert (Hkx : sortZ (keysOf [] (map x (tileGrid xs ys zoom))) = xs).
  { rewrite (keysOf_grid_x ys zoom xs Hys (forRange_NoDup _ _))
      by (intros ? ? []).
    apply sortZ_forRange. lia. }
  assert (Hky : sortZ (keysOf [] (map y (tileGrid xs ys zoom))) = ys).
  { rewrite (keysOf_grid_y xs ys zoom Hxs (forRange_NoDup _ _)).
    apply sortZ_forRange. lia. }
  assert (Hin : forall t, In t (arrivalOrder (tileGrid xs ys zoom)) ->
                          minX <= x t < maxX + 1 /\ minY <= y t < maxY + 1).
  { intros t Ht. apply (Permutation_in _ Harrive) in Ht.
    apply grid_In in Ht. unfold xs, ys in Ht.
    rewrite !forRange_In in Ht. tauto. }
  unfold stitchTiles.
  replace (Z.of_nat (length (tileGrid xs ys zoom)) =? 0) with false.
  - cbv zeta. rewrite Hkx, Hky. cbn [app]. do 2 eexists. split.
    + f_equal. f_equal.
      * unfold xs, ys. rewrite !forRange_length. f_equal; lia.
      * f_equal. f_equal. apply map_ext_in. intros t Ht. unfold paint, url.
        destruct (Hin t Ht) as [Hx Hy]. unfold xs, ys.
        rewrite !indexOf_forRange_at by lia. reflexivity.
    + destruct style; repeat constructor; intros [].
  - symmetry. apply Z.eqb_neq. rewrite grid_length.
    destruct xs; [congruence|]. destruct ys; [congruence|]. cbn. lia.
Qed.

End StitcherPipeline.

(** The four tiles of zoom 1, arriving last first. *)
Lemma stitchTiles_on_bounding_box_tiles_witness :
  let tiles :=
    TileUtils.getTilesForBoundingBox Fixtures.gridPointToTile
      Fixtures.quadBox 1 in
  let url t := TileUtils.getMapboxTileUrl t TileUtils.Satellite "tk" in
  exists tail stitched,
    TileStitcher.stitchTiles Fixtures.gridTileToBBOX Fixtures.fetchAlways
      Fixtures.arriveLastFirst tiles Fixtures.quadBox TileUtils.Satellite "tk"
    = (TileStitcher.CreateCanvas 1024 1024
         :: map (fun t => TileStitcher.Fetch (url t)) tiles
         ++ [TileStitcher.DrawImage 512 512 512 512;
             TileStitcher.DrawImage 512 0 512 512;
             TileStitcher.DrawImage 0 512 512 512;
             TileStitcher.DrawImage 0 0 512 512] ++ tail,
       TileStitcher.Returned stitched) /\
    Forall (fun e => ~ TileStitcher.tileEffect e) tail.
Proof.
  intros tiles url.
  destruct (stitchTiles_on_bounding_box_tiles Fixtures.gridPointToTile
              Fixtures.gridTileToBBOX Fixtures.fetchAlways
              Fixtures.arriveLastFirst Fixtures.quadBox Fixtures.quadBox 1
              TileUtils.Satellite "tk")
    as (tail & stitched & Hrun & Htail).
  - symmetry. apply Permutation_rev.
  - exists tail, stitched. split; [exact Hrun | exact Htail].
Defined.

(** ** The decoders as codes, and the capping filter *)

Section DecoderCodes.

Import TerrainFilters.
Open Scope Q_scope.

Lemma raw_height_as_code (r g b : Z) :
  TileUtils.terrainRGBToHeight r g b
  == -10000 + inject_Z (r * 65536 + g * 256 + b) * 0.1.
Proof.
  unfold TileUtils.terrainRGBToHeight.
  replace (r * 256 * 256 + g * 256 + b)%Z with (r * 65536 + g * 256 + b)%Z
    by lia.
  reflexivity.
Qed.

Lemma inject_Z_le (a b : Z) : (a <= b)%Z -> inject_Z a <= inject_Z b.
Proof. intros H. now rewrite <- Zle_Qle. Qed.

(** X5. The decoder of the stitcher loses nothing: on bytes it ranges over
    [[-10000, 1667721.5]], it grows with the 24-bit value [r*65536 + g*256 +
    b], and two byte triples that decode to the same height are the same
    triple. *)
Theorem raw_decoder_injective_on_bytes (r g b r' g' b' : Z) :
  isByte r -> isByte g -> isByte b -> isByte r' -> isByte g' -> isByte b' ->
  (-10000 <= TileUtils.terrainRGBToHeight r g b <= 1667721.5) /\
  ((r * 65536 + g * 256 + b <= r' * 65536 + g' * 256 + b')%Z ->
   TileUtils.terrainRGBToHeight r g b
   <= TileUtils.terrainRGBToHeight r' g' b') /\
  (TileUtils.terrainRGBToHeight r g b
   == TileUtils.terrainRGBToHeight r' g' b' ->
   r = r' /\ g = g' /\ b = b').
Proof.
  unfold isByte. intros Hr Hg Hb Hr' Hg' Hb'.
  rewrite !raw_height_as_code.
  set (v := (r * 65536 + g * 256 + b)%Z).
  set (v' := (r' * 65536 + g' * 256 + b')%Z).
  assert (Hrange : (0 <= v <= 16777215)%Z) by (unfold v; lia).
  assert (H0 : inject_Z 0 <= inject_Z v) by (apply inject_Z_le; lia).
  assert (H1 : inject_Z v <= inject_Z 16777215) by (apply inject_Z_le; lia).
  change (inject_Z 0) with 0 in H0.
  change (inject_Z 16777215) with 16777215 in H1.
  split; [split; lra|]. split.
  - intros Hle. apply inject_Z_le in Hle. lra.
  - intros Heq.
    assert (Hv : inject_Z v == inject_Z v') by lra.
    apply (proj1 (inject_Z_injective v v')) in Hv. unfold v, v' in Hv. lia.
Qed.

Lemma capped_height_as_min (r g b : Z) :
  terrainRGBToHeight r g b = Qmin (TileUtils.terrainRGBToHeight r g b) 8000.
Proof. reflexivity. Qed.

(** X6. The decoder of the filters ranges over [[-10000, 8000]] on bytes;
    it reaches the cap exactly from the 24-bit value 180000 on; and two byte
    triples that decode to the same height below the cap are the same
    triple. *)
Theorem capped_decoder_injective_below_cap (r g b r' g' b' : Z) :
  isByte r -> isByte g -> isByte b -> isByte r' -> isByte g' -> isByte b' ->
  (-10000 <= terrainRGBToHeight r g b <= 8000) /\
  (terrainRGBToHeight r g b == 8000
   <-> (180000 <= r * 65536 + g * 256 + b)%Z) /\
  (terrainRGBToHeight r g b < 8000 ->
   terrainRGBToHeight r g b == terrainRGBToHeight r' g' b' ->
   r = r' /\ g = g' /\ b = b').
Proof.
  unfold isByte. intros Hr Hg Hb Hr' Hg' Hb'.
  rewrite !capped_height_as_min, !raw_height_as_code.
  set (v := (r * 65536 + g * 256 + b)%Z).
  set (v' := (r' * 65536 + g' * 256 + b')%Z).
  assert (Hrange : (0 <= v)%Z) by (unfold v; lia).
  assert (H0 : inject_Z 0 <= inject_Z v) by (apply inject_Z_le; lia).
  change (inject_Z 0) with 0 in H0.
  split; [|split].
  - split; [apply Q.min_glb; lra | apply Q.le_min_r].
  - split.
    + intros H. destruct (Z_lt_le_dec v 180000) as [Hlt|Hge]; [|exact Hge].
      exfalso. assert (Hq : inject_Z v <= inject_Z 179999)
        by (apply inject_Z_le; lia).
      change (inject_Z 179999) with 179999 in Hq.
      rewrite Q.min_l in H by lra. lra.
    + intros H. apply inject_Z_le in H. change (inject_Z 180000) with 180000 in H.
      apply Q.min_r. lra.
  - intros Hlt Heq.
    destruct (Q.min_spec (-10000 + inject_Z v * 0.1) 8000) as [[Ha Hm]|[Ha Hm]];
      rewrite Hm in Hlt, Heq; [|lra].
    destruct (Q.min_spec (-10000 + inject_Z v' * 0.1) 8000)
      as [[Ha' Hm']|[Ha' Hm']]; rewrite Hm' in Heq; [|lra].
    assert (Hv : inject_Z v == inject_Z v') by lra.
    apply (proj1 (inject_Z_injective v v')) in Hv. unfold v, v' in Hv. lia.
Qed.

End DecoderCodes.

Lemma raw_decoder_injective_on_bytes_witness :
  (-10000 <= TileUtils.terrainRGBToHeight 1 138 136 <= 1667721.5)%Q /\
  ((1 * 65536 + 138 * 256 + 136 <= 2 * 65536 + 73 * 256 + 240)%Z ->
   (TileUtils.terrainRGBToHeight 1 138 136
    <= TileUtils.terrainRGBToHeight 2 73 240)%Q) /\
  ((TileUtils.terrainRGBToHeight 1 138 136
    == TileUtils.terrainRGBToHeight 2 73 240)%Q ->
   1 = 2 /\ 138 = 73 /\ 136 = 240).
Proof.
  apply (raw_decoder_injective_on_bytes 1 138 136 2 73 240);
    unfold isByte; lia.
Defined.

Lemma capped_decoder_injective_below_cap_witness :
  (-10000 <= TerrainFilters.terrainRGBToHeight 1 138 136 <= 8000)%Q /\
  ((TerrainFilters.terrainRGBToHeight 1 138 136 == 8000)%Q
   <-> (180000 <= 1 * 65536 + 138 * 256 + 136)%Z) /\
  ((TerrainFilters.terrainRGBToHeight 1 138 136 < 8000)%Q ->
   (TerrainFilters.terrainRGBToHeight 1 138 136
    == TerrainFilters.terrainRGBToHeight 2 73 240)%Q ->
   1 = 2 /\ 138 = 73 /\ 136 = 240).
Proof.
  apply (capped_decoder_injective_below_cap 1 138 136 2 73 240);
    unfold isByte; lia.
Defined.

(** ** The capping filter *)

Section Capping.

Import TerrainFilters.
Open Scope Q_scope.

Lemma Forall2_map_same {A B C : Type} (R : B -> C -> Prop) (f : A -> B)
    (g : A -> C) (l : list A) :
  (forall a, In a l -> R (f a) (g a)) -> Forall2 R (map f l) (map g l).
Proof.
  induction l as [|a l IH]; intros H; cbn; constructor.
  - apply H. now left.
  - apply IH. intros b Hb. apply H. now right.
Qed.

(** X7. The capping filter returns one height per pixel, none above
    3500 m; each is the uncapped height the stitcher decodes for that pixel
    cut at 3500 m, so a pixel at or below 3500 m keeps its height. *)
Theorem applyCappingFilter_cuts_at_3500 (imageData : ImageData)
    (width height : Z) :
  let raw :=
    TileStitcher.createHeightmapFromTerrainRGB imageData width height in
  let capped := applyCappingFilter imageData width height in
  length capped = Z.to_nat (width * height) /\
  Forall (fun h => h <= 3500) capped /\
  Forall2 (fun uncapped h => h == Qmin uncapped 3500) raw capped /\
  Forall2 (fun uncapped h => uncapped <= 3500 -> h == uncapped) raw capped.
Proof.
  intros raw capped. unfold raw, capped, applyCappingFilter, decodeWith,
    TileStitcher.createHeightmapFromTerrainRGB, MAX_SPIKE_HEIGHT.
  assert (Hcut : forall r g b,
             Qmin (terrainRGBToHeight r g b) 3500
             == Qmin (TileUtils.terrainRGBToHeight r g b) 3500).
  { intros r g b. rewrite capped_height_as_min.
    set (h := TileUtils.terrainRGBToHeight r g b).
    destruct (Q.min_spec h 8000) as [[H1 H2]|[H1 H2]]; rewrite H2;
      [reflexivity|].
    rewrite !Q.min_r; [reflexivity | lra | lra]. }
  split; [|split; [|split]].
  - rewrite length_map, forRange_length. f_equal. lia.
  - apply Forall_forall. intros h Hh. apply in_map_iff in Hh as [i [<- _]].
    apply Q.le_min_r.
  - apply Forall2_map_same. intros i _. cbv zeta. apply Hcut.
  - apply Forall2_map_same. intros i _ Hle. cbv zeta in *.
    rewrite Hcut. now apply Q.min_l.
Qed.

End Capping.

(** ** The Hampel filter, pixel by pixel *)

Section HampelPixels.

Import TerrainFilters.
Open Scope Q_scope.

Lemma set_nat_length {A : Type} (l : list A) (v : A) :
  forall n, length (set_nat l n v) = length l.
Proof.
  induction l as [|a l IH]; intros [|n]; cbn; try reflexivity.
  now rewrite IH.
Qed.

Lemma set_length {A : Type} (l : list A) (i : Z) (v : A) :
  length (set l i v) = length l.
Proof. unfold set. destruct (i <? 0)%Z; [reflexivity | apply set_nat_length]. Qed.

Lemma set_nat_nth_same {A : Type} (l : list A) (v d : A) :
  forall n, (n < length l)%nat -> nth n (set_nat l n v) d = v.
Proof.
  induction l as [|a l IH]; intros [|n] H; cbn in *; try lia; [reflexivity|].
  apply IH. lia.
Qed.

Lemma set_nat_nth_other {A : Type} (l : list A) (v d : A) :
  forall n m, n <> m -> nth m (set_nat l n v) d = nth m l d.
Proof.
  induction l as [|a l IH]; intros [|n] [|m] H; cbn; try reflexivity;
    try congruence.
  apply IH. congruence.
Qed.

Lemma get_set_same {A : Type} (l : list A) (i : Z) (v d : A) :
  (0 <= i < Z.of_nat (length l))%Z -> get (set l i v) i d = v.
Proof.
  intros H. unfold get, set. destruct (i <? 0)%Z eqn:E;
    [apply Z.ltb_lt in E; lia|].
  apply set_nat_nth_same. lia.
Qed.

Lemma get_set_other {A : Type} (l : list A) (i j : Z) (v d : A) :
  i <> j -> get (set l i v) j d = get l j d.
Proof.
  intros H. unfold get, set. destruct (j <? 0)%Z eqn:Ej; [reflexivity|].
  destruct (i <? 0)%Z eqn:Ei; [reflexivity|].
  apply Z.ltb_ge in Ei, Ej. apply set_nat_nth_other. lia.
Qed.

Lemma hampelPixel_length (heights filtered : list Q) (width height : Z)
    (yx : Z * Z) :
  length (hampelPixel heights width height filtered yx) = length filtered.
Proof.
  destruct yx as [y x]. unfold hampelPixel. cbv zeta.
  destruct (_ >=? 9)%Z; [|reflexivity].
  destruct (Qltb _ _); [apply set_length | reflexivity].
Qed.

Lemma hampelPixel_get_other (heights filtered : list Q) (width height : Z)
    (y x j : Z) :
  (y * width + x)%Z <> j ->
  get (hampelPixel heights width height filtered (y, x)) j 0
  = get filtered j 0.
Proof.
  intros H. unfold hampelPixel. cbv zeta.
  destruct (_ >=? 9)%Z; [|reflexivity].
  destruct (Qltb _ _); [now apply get_set_other | reflexivity].
Qed.

Lemma hampelLoop_length (heights : list Q) (width height : Z)
    (pixels : list (Z * Z)) :
  forall filtered,
    length (fold_left (hampelPixel heights width height) pixels filtered)
    = length filtered.
Proof.
  induction pixels as [|p ps IH]; intros filtered; [reflexivity|].
  cbn [fold_left]. now rewrite IH, hampelPixel_length.
Qed.

Lemma hampelLoop_get_other (heights : list Q) (width height j : Z)
    (pixels : list (Z * Z)) :
  (forall y x, In (y, x) pixels -> (y * width + x)%Z <> j) ->
  forall filtered,
    get (fold_left (hampelPixel heights width height) pixels filtered) j 0
    = get filtered j 0.
Proof.
  induction pixels as [|[y x] ps IH]; intros H filtered; [reflexivity|].
  cbn [fold_left]. rewrite IH by (intros; apply H; now right).
  apply hampelPixel_get_other. apply H. now left.
Qed.

Lemma pixelOrder_In (width height y x : Z) :
  In (y, x) (pixelOrder width height)
  <-> (0 <= y < height)%Z /\ (0 <= x < width)%Z.
Proof.
  unfold pixelOrder. rewrite in_flat_map. split.
  - intros [y' [Hy Hin]]. apply in_map_iff in Hin as [x' [Heq Hx]].
    inversion Heq; subst. apply forRange_In in Hy, Hx. lia.
  - intros [Hy Hx]. exists y. split; [apply forRange_In; lia|].
    apply in_map_iff. exists x. split; [reflexivity | apply forRange_In; lia].
Qed.

Lemma pixel_index_injective (width y x y' x' : Z) :
  (0 <= x < width)%Z -> (0 <= x' < width)%Z ->
  (y * width + x = y' * width + x')%Z -> y = y' /\ x = x'.
Proof.
  intros Hx Hx' H.
  assert (y = y').
  { destruct (Z.lt_trichotomy y y') as [Hlt|[Heq|Hgt]]; [|exact Heq|]; nia. }
  subst y'. lia.
Qed.

Lemma get_set_outside {A : Type} (l : list A) (i : Z) (v d : A) :
  ~ (0 <= i < Z.of_nat (length l))%Z -> get (set l i v) i d = d.
Proof.
  intros H. unfold get, set. destruct (i <? 0)%Z eqn:E; [reflexivity|].
  apply Z.ltb_ge in E. apply nth_overflow. rewrite set_nat_length. lia.
Qed.

(** What an iteration leaves at its own pixel depends on the array it
    writes only through the value already there. *)
Lemma hampelPixel_get_congr (heights f1 f2 : list Q) (width height y x : Z) :
  length f1 = length f2 ->
  get f1 (y * width + x) 0 = get f2 (y * width + x) 0 ->
  get (hampelPixel heights width height f1 (y, x)) (y * width + x) 0
  = get (hampelPixel heights width height f2 (y, x)) (y * width + x) 0.
Proof.
  intros Hlen Hget. unfold hampelPixel. cbv zeta.
  destruct (_ >=? 9)%Z; [|exact Hget].
  destruct (Qltb _ _); [|exact Hget].
  destruct (Z_lt_le_dec (y * width + x) 0) as [Hneg|Hpos];
    [rewrite !get_set_outside by lia; reflexivity|].
  destruct (Z_lt_le_dec (y * width + x) (Z.of_nat (length f1))) as [Hlt|Hge].
  - rewrite !get_set_same by lia. reflexivity.
  - rewrite !get_set_outside by lia. reflexivity.
Qed.

(** Once a pixel has been visited, the later iterations, which write other
    pixels, leave its value alone. *)
Lemma hampelLoop_get_at (heights : list Q) (width height y x : Z)
    (pixels : list (Z * Z)) :
  NoDup pixels ->
  (forall y' x', In (y', x') pixels -> (0 <= x' < width)%Z) ->
  (0 <= x < width)%Z ->
  In (y, x) pixels ->
  forall filtered,
    get (fold_left (hampelPixel heights width height) pixels filtered)
        (y * width + x) 0
    = get (hampelPixel heights width height filtered (y, x)) (y * width + x) 0.
Proof.
  intros Hnd Hcols Hx. induction Hnd as [|[y' x'] ps Hp Hnd IH];
    intros Hin filtered; [destruct Hin|].
  cbn [fold_left]. destruct Hin as [Heq|Hin].
  - inversion Heq; subst. apply hampelLoop_get_other.
    intros y2 x2 H2 Hidx.
    apply pixel_index_injective in Hidx as [-> ->];
      [contradiction | apply (Hcols y2 x2); now right | exact Hx].
  - rewrite IH; [|intros; eapply Hcols; right; eassumption | exact Hin].
    apply hampelPixel_get_congr; [apply hampelPixel_length|].
    apply hampelPixel_get_other. intros Hidx.
    apply pixel_index_injective in Hidx as [-> ->];
      [contradiction | apply (Hcols y' x'); now left | exact Hx].
Qed.

Lemma pixelOrder_NoDup (width height : Z) : NoDup (pixelOrder width height).
Proof.
  unfold pixelOrder. generalize (forRange_NoDup 0 height).
  induction (forRange 0 height) as [|y ys IH]; intros Hnd; [constructor|].
  inversion Hnd; subst. cbn [flat_map]. apply NoDup_app.
  - apply Injective_map_NoDup; [|apply forRange_NoDup].
    intros a b H. now inversion H.
  - now apply IH.
  - intros [y' x'] Ha Hb. apply in_map_iff in Ha as [? [Heq _]].
    inversion Heq; subst. apply in_flat_map in Hb as [y2 [Hy2 Hin]].
    apply in_map_iff in Hin as [? [Heq2 _]]. inversion Heq2; subst.
    contradiction.
Qed.

(** X8. The Hampel filter decides every pixel on the decoded field alone:
    the output at [(x, y)] is the median of the 5x5 window of the decoded
    field when the window holds at least nine samples and the decoded
    height deviates from that median by more than [3.0 * (MAD + 0.01)],
    and the decoded height otherwise. Replacements made earlier in the
    scan do not influence later pixels. *)
Theorem applyHampelFilter_at_pixel (imageData : ImageData)
    (width height x y : Z) :
  (0 <= x < width)%Z -> (0 <= y < height)%Z ->
  let heights := applyNoFilter imageData width height in
  let idx := (y * width + x)%Z in
  let kernelHeights := get5x5KernelHeights heights width height x y in
  let localMedian := calculateMedian kernelHeights in
  let mad := calculateMAD kernelHeights localMedian in
  let threshold := 3.0 * (mad + 0.01) in
  let deviation := Qabs (get heights idx 0 - localMedian) in
  get (applyHampelFilter imageData width height) idx 0
  = if (Z.of_nat (length kernelHeights) >=? 9)%Z && Qltb threshold deviation
    then localMedian
    else get heights idx 0.
Proof.
  intros Hx Hy heights idx kernelHeights localMedian mad threshold deviation.
  unfold applyHampelFilter. cbv zeta.
  change (decodeWith (fun h => h) imageData width height) with heights.
  unfold idx. rewrite hampelLoop_get_at.
  - unfold hampelPixel. cbv zeta. fold idx kernelHeights localMedian.
    fold mad. unfold HAMPEL_THRESHOLD_MULTIPLIER. fold threshold deviation.
    destruct (_ >=? 9)%Z; [|reflexivity]. cbn [andb].
    destruct (Qltb threshold deviation); [|reflexivity].
    apply get_set_same. unfold heights, applyNoFilter.
    rewrite decodeWith_length. unfold idx. nia.
  - apply pixelOrder_NoDup.
  - intros y' x' H. now apply pixelOrder_In in H.
  - exact Hx.
  - now apply pixelOrder_In.
Qed.

Lemma calculateMedian_of_equal (c : Q) (values : list Q) :
  values <> [] -> (forall v, In v values -> v == c) ->
  calculateMedian values == c.
Proof.
  intros Hne H.
  destruct (calculateMedian_within c c values Hne) as [H1 H2].
  - intros v Hv. rewrite (H v Hv). split; apply Qle_refl.
  - now apply Qle_antisym.
Qed.

(** The MAD of a window that is not empty is never negative. *)
Lemma calculateMAD_nonneg (values : list Q) (median : Q) :
  values <> [] -> 0 <= calculateMAD values median.
Proof.
  intros Hne. unfold calculateMAD. cbv zeta.
  set (devs := map (fun v => Qabs (v - median)) values).
  apply (calculateMedian_within 0 (Qmax 0 (maxOf devs)) devs).
  - unfold devs. destruct values; [congruence | discriminate].
  - intros d Hd. split.
    + unfold devs in Hd. apply in_map_iff in Hd as [v [<- _]].
      apply Qabs_nonneg.
    + eapply Qle_trans; [apply (minOf_maxOf_bound devs d Hd)|].
      apply Q.le_max_r.
Qed.

Lemma no_spike_at_median (heights : list Q) (width height : Z)
    (filtered : list Q) (y x : Z) :
  ((9 <= Z.of_nat (length (get5x5KernelHeights heights width height x y)))%Z
   -> get heights (y * width + x) 0
      == calculateMedian (get5x5KernelHeights heights width height x y)) ->
  hampelPixel heights width height filtered (y, x) = filtered.
Proof.
  intros H. unfold hampelPixel. cbv zeta.
  set (kernel := get5x5KernelHeights heights width height x y) in *.
  destruct (_ >=? 9)%Z eqn:E; [|reflexivity]. apply Z.geb_le in E.
  assert (Hne : kernel <> []) by (intros Hk; rewrite Hk in E; cbn in E; lia).
  pose proof (calculateMAD_nonneg kernel (calculateMedian kernel) Hne) as Hmad.
  replace (Qltb _ _) with false; [reflexivity|].
  symmetry. apply not_true_iff_false. rewrite Qltb_lt.
  rewrite (H ltac:(lia)). unfold HAMPEL_THRESHOLD_MULTIPLIER.
  setoid_replace (calculateMedian kernel - calculateMedian kernel) with 0
    by ring.
  change (Qabs 0) with 0. apply Qle_not_lt.
  apply Qmult_le_0_compat; [discriminate|]. lra.
Qed.

Lemma fold_left_fixed {A B : Type} (step : A -> B -> A) (l : list B) (a : A) :
  (forall b, In b l -> step a b = a) -> fold_left step l a = a.
Proof.
  induction l as [|b l IH]; intros H; [reflexivity|]. cbn [fold_left].
  rewrite H by now left. apply IH. intros b' Hb'. apply H. now right.
Qed.

(** X9. A flat field passes through the Hampel filter unchanged: when all
    decoded heights are equal, no pixel is a spike, because every window has
    that height as its median and the threshold [3.0 * (MAD + 0.01)] is
    positive. *)
Theorem applyHampelFilter_flat_field (imageData : ImageData)
    (width height : Z) (c : Q) :
  (forall h, In h (applyNoFilter imageData width height) -> h == c) ->
  applyHampelFilter imageData width height
  = applyNoFilter imageData width height.
Proof.
  intros Hflat. unfold applyHampelFilter. cbv zeta.
  change (decodeWith (fun h => h) imageData width height)
    with (applyNoFilter imageData width height).
  set (heights := applyNoFilter imageData width height) in *.
  assert (Hlen : length heights = Z.to_nat (width * height))
    by apply decodeWith_length.
  apply fold_left_fixed. intros [y x] Hp. apply pixelOrder_In in Hp.
  apply no_spike_at_median. intros Hk.
  rewrite calculateMedian_of_equal with (c := c).
  - apply Hflat, get_In. rewrite Hlen. nia.
  - intros Hnil. rewrite Hnil in Hk. cbn in Hk. lia.
  - intros v Hv. apply Hflat.
    now apply (get5x5KernelHeights_In heights width height x y).
Qed.

End HampelPixels.

Lemma applyHampelFilter_at_pixel_witness :
  let raster := Fixtures.spikeRaster (fun _ => 255) in
  let heights := TerrainFilters.applyNoFilter raster 5 5 in
  let kernelHeights := TerrainFilters.get5x5KernelHeights heights 5 5 2 2 in
  let localMedian := TerrainFilters.calculateMedian kernelHeights in
  let mad := TerrainFilters.calculateMAD kernelHeights localMedian in
  get (TerrainFilters.applyHampelFilter raster 5 5) (2 * 5 + 2) 0%Q
  = if (Z.of_nat (length kernelHeights) >=? 9)
       && Qltb (3.0 * (mad + 0.01))%Q
               (Qabs (get heights (2 * 5 + 2) 0%Q - localMedian)%Q)
    then localMedian
    else get heights (2 * 5 + 2) 0%Q.
Proof.
  apply (applyHampelFilter_at_pixel
           (Fixtures.spikeRaster (fun _ => 255)) 5 5 2 2); lia.
Defined.

Lemma applyHampelFilter_flat_field_witness :
  TerrainFilters.applyHampelFilter (Fixtures.flatRaster (fun _ => 255)) 5 5
  = TerrainFilters.applyNoFilter (Fixtures.flatRaster (fun _ => 255)) 5 5.
Proof.
  apply (applyHampelFilter_flat_field
           (Fixtures.flatRaster (fun _ => 255)) 5 5 100%Q).
  intros h Hin. vm_compute in Hin.
  repeat (destruct Hin as [<- | Hin]; [reflexivity|]).
  destruct Hin.
Defined.

(** ** The extremes of a field and the range of the sampler *)

Section SamplerRange.

Import MapCanvas.
Open Scope Q_scope.

Lemma elevationStats_step (l : list Q) :
  forall mn0 mx0 : Q,
    exists mn mx,
      fold_left
        (fun stats elevation =>
           match stats with
           | None => Some (elevation, elevation)
           | Some (minElevation, maxElevation) =>
               Some (if Qltb elevation minElevation then elevation
                     else minElevation,
                     if Qltb maxElevation elevation then elevation
                     else maxElevation)
           end) l (Some (mn0, mx0)) = Some (mn, mx) /\
      In mn (mn0 :: l) /\ In mx (mx0 :: l) /\
      mn <= mn0 /\ mx0 <= mx /\
      forall v, In v l -> mn <= v <= mx.
Proof.
  induction l as [|e l IH]; intros mn0 mx0; cbn [fold_left].
  - exists mn0, mx0. split; [reflexivity|]. split; [now left|].
    split; [now left|]. split; [apply Qle_refl|]. split; [apply Qle_refl|].
    intros v [].
  - destruct (IH (if Qltb e mn0 then e else mn0)
                 (if Qltb mx0 e then e else mx0))
      as (mn & mx & Heq & Hmn & Hmx & Hle1 & Hle2 & Hall).
    exists mn, mx. split; [exact Heq|].
    assert (Hlo : (if Qltb e mn0 then e else mn0) <= e /\
                  (if Qltb e mn0 then e else mn0) <= mn0).
    { destruct (Qltb e mn0) eqn:E.
      - apply Qltb_lt in E. split; [apply Qle_refl | now apply Qlt_le_weak].
      - split; [|apply Qle_refl]. apply Qnot_lt_le. rewrite <- Qltb_lt.
        congruence. }
    assert (Hhi : e <= (if Qltb mx0 e then e else mx0) /\
                  mx0 <= (if Qltb mx0 e then e else mx0)).
    { destruct (Qltb mx0 e) eqn:E.
      - apply Qltb_lt in E. split; [apply Qle_refl | now apply Qlt_le_weak].
      - split; [|apply Qle_refl]. apply Qnot_lt_le. rewrite <- Qltb_lt.
        congruence. }
    split; [|split; [|split; [|split]]].
    + destruct Hmn as [<-|Hmn]; [|now right; right].
      destruct (Qltb e mn0); [right; now left | now left].
    + destruct Hmx as [<-|Hmx]; [|now right; right].
      destruct (Qltb mx0 e); [right; now left | now left].
    + eapply Qle_trans; [exact Hle1 | apply Hlo].
    + eapply Qle_trans; [apply Hhi | exact Hle2].
    + intros v [<-|Hv]; [|now apply Hall]. split.
      * eapply Qle_trans; [exact Hle1 | apply Hlo].
      * eapply Qle_trans; [apply Hhi | exact Hle2].
Qed.

Lemma elevationStats_of_field (filteredHeights : list Q) :
  filteredHeights <> [] ->
  exists minElevation maxElevation,
    elevationStats filteredHeights = Some (minElevation, maxElevation) /\
    forall v, In v filteredHeights -> minElevation <= v <= maxElevation.
Proof.
  destruct filteredHeights as [|e l]; [congruence|]. intros _.
  unfold elevationStats. cbn [fold_left].
  destruct (elevationStats_step l e e)
    as (mn & mx & Heq & _ & _ & Hle1 & Hle2 & Hall).
  exists mn, mx. split; [exact Heq|].
  intros v [<-|Hv]; [split; assumption | now apply Hall].
Qed.

(** X10. The scan of the displacer finds the true extremes: on a field
    that is not empty it returns a minimum and a maximum that are values of
    the field and bound every value of it; on an empty field the two
    variables are never assigned. *)
Theorem elevationStats_extremes (filteredHeights : list Q) :
  (filteredHeights = [] -> elevationStats filteredHeights = None) /\
  (filteredHeights <> [] ->
   exists minElevation maxElevation,
     elevationStats filteredHeights = Some (minElevation, maxElevation) /\
     In minElevation filteredHeights /\ In maxElevation filteredHeights /\
     forall v, In v filteredHeights -> minElevation <= v <= maxElevation).
Proof.
  split; [intros ->; reflexivity|].
  destruct filteredHeights as [|e l]; [congruence|]. intros _.
  unfold elevationStats. cbn [fold_left].
  destruct (elevationStats_step l e e)
    as (mn & mx & Heq & Hmn & Hmx & Hle1 & Hle2 & Hall).
  exists mn, mx. split; [exact Heq|]. split; [exact Hmn|].
  split; [exact Hmx|]. intros v [<-|Hv]; [split; assumption | now apply Hall].
Qed.

Lemma convex_within (lo hi a b t : Q) :
  lo <= a <= hi -> lo <= b <= hi -> 0 <= t <= 1 ->
  lo <= a * (1 - t) + b * t <= hi.
Proof.
  intros [Ha1 Ha2] [Hb1 Hb2] [Ht1 Ht2].
  assert (H1 : 0 <= (a - lo) * (1 - t))
    by (apply Qmult_le_0_compat; lra).
  assert (H2 : 0 <= (b - lo) * t) by (apply Qmult_le_0_compat; lra).
  assert (H3 : 0 <= (hi - a) * (1 - t))
    by (apply Qmult_le_0_compat; lra).
  assert (H4 : 0 <= (hi - b) * t) by (apply Qmult_le_0_compat; lra).
  split; lra.
Qed.

Lemma fraction_within (x : Q) : 0 <= x - inject_Z (Qfloor x) <= 1.
Proof.
  pose proof (Qfloor_le x). pose proof (Qlt_floor x) as H1.
  rewrite inject_Z_plus in H1. change (inject_Z 1) with 1 in H1.
  split; lra.
Qed.

Lemma sampleHeight_within (lo hi : Q) (heights : list Q) (W H : Z) (x y : Q) :
  (1 <= W)%Z -> (1 <= H)%Z -> Z.of_nat (length heights) = (W * H)%Z ->
  (forall h, In h heights -> lo <= h <= hi) ->
  lo <= sampleHeight heights W H x y <= hi.
Proof.
  intros HW HH Hlen Hall. unfold sampleHeight. cbv zeta.
  apply Hall, get_In. rewrite Hlen. nia.
Qed.

(** The bilinear sample is a convex combination of four values of the
    field, wherever the coordinates fall. *)
Lemma bilinearSample_within (lo hi : Q) (heights : list Q) (W H : Z)
    (u v : Q) :
  (1 <= W)%Z -> (1 <= H)%Z -> Z.of_nat (length heights) = (W * H)%Z ->
  (forall h, In h heights -> lo <= h <= hi) ->
  lo <= bilinearSample heights W H u v <= hi.
Proof.
  intros HW HH Hlen Hall. unfold bilinearSample. cbv zeta.
  apply convex_within; [apply convex_within | apply convex_within |];
    try (apply sampleHeight_within; assumption); apply fraction_within.
Qed.

End SamplerRange.

Lemma elevationStats_extremes_witness :
  exists minElevation maxElevation,
    MapCanvas.elevationStats [0; 0; 0; 1000]%Q
    = Some (minElevation, maxElevation) /\
    In minElevation [0; 0; 0; 1000]%Q /\
    In maxElevation [0; 0; 0; 1000]%Q /\
    forall v, In v [0; 0; 0; 1000]%Q ->
              (minElevation <= v <= maxElevation)%Q.
Proof.
  apply (proj2 (elevationStats_extremes [0; 0; 0; 1000]%Q)). discriminate.
Defined.

(** ** The displacement of the whole grid *)

Section DisplacementRange.

Import TileUtils TerrainFilters MapCanvas.
Open Scope Q_scope.

Variables Math_sin Math_cos Math_sqrt : Q -> Q.
Variable Math_atan2 : Q -> Q -> Q.
Variable Math_PI : Q.

Lemma applyTerrainFilter_length (imageData : ImageData) (width height : Z)
    (method : FilterMethod) :
  length (applyTerrainFilter imageData width height method)
  = Z.to_nat (width * height).
Proof.
  destruct method; cbn [applyTerrainFilter].
  - apply decodeWith_length.
  - apply decodeWith_length.
  - unfold applyHampelFilter. cbv zeta.
    rewrite hampelLoop_length. apply decodeWith_length.
Qed.

(** X11. With [useRealScale = false] and an exaggeration that is not
    negative, every vertex of the grid is displaced by at least 0 and at
    most [planeWidth * 0.25 * heightExaggeration]: the relief never exceeds a
    quarter of the plane width times the exaggeration, whatever the raster,
    the filter and the mesh resolution. *)
Theorem normalized_displacement_within_quarter (props : TerrainMeshProps)
    (i : Z) :
  useRealScale props = false ->
  0 <= heightExaggeration props ->
  (1 <= terrainWidth props)%Z -> (1 <= terrainHeight props)%Z ->
  0 <= vertexElevation Math_sin Math_cos Math_sqrt Math_atan2 Math_PI props i
    <= planeWidth * 0.25 * heightExaggeration props.
Proof.
  intros Hmode Hexag HW HH.
  assert (Hlen : Z.of_nat (length (filteredHeights props))
                 = (terrainWidth props * terrainHeight props)%Z).
  { unfold filteredHeights. rewrite applyTerrainFilter_length. nia. }
  assert (Hne : filteredHeights props <> []).
  { intros Hnil. rewrite Hnil in Hlen. cbn in Hlen. nia. }
  destruct (elevationStats_of_field (filteredHeights props) Hne)
    as (mn & mx & Hstats & Hall).
  pose proof (bilinearSample_within mn mx (filteredHeights props)
                (terrainWidth props) (terrainHeight props)
                (fst (vertexUV (meshResolution props) i))
                (snd (vertexUV (meshResolution props) i)) HW HH Hlen Hall)
    as Hs.
  unfold vertexElevation, elevationMetersAt, baseScale, minElevation,
    positiveElevationRange.
  rewrite Hmode, Hstats. cbv zeta.
  destruct (vertexUV (meshResolution props) i) as [u v]. cbn [fst snd] in Hs.
  set (s := bilinearSample (filteredHeights props) (terrainWidth props)
                           (terrainHeight props) u v) in *.
  set (e := heightExaggeration props) in *. unfold planeWidth.
  destruct (Qltb 0 (mx - mn)) eqn:E.
  - apply Qltb_lt in E.
    assert (Hq : 0 <= (s - mn) / (mx - mn) <= 1).
    { split; [apply Qle_shift_div_l; [exact E | lra]
             | apply Qle_shift_div_r; [exact E | lra]]. }
    setoid_replace ((s - mn) * (10 * 0.25 / (mx - mn)) * e)
      with ((s - mn) / (mx - mn) * (10 * 0.25 * e))
      by (field; lra).
    set (q := (s - mn) / (mx - mn)) in *.
    assert (H1 : 0 <= q * (10 * 0.25 * e))
      by (apply Qmult_le_0_compat; lra).
    assert (H2 : 0 <= (1 - q) * (10 * 0.25 * e))
      by (apply Qmult_le_0_compat; lra).
    split; lra.
  - assert (Hflat : mx - mn <= 0).
    { apply Qnot_lt_le. rewrite <- Qltb_lt. congruence. }
    assert (Hz : s - mn == 0) by lra.
    rewrite Hz. split; [lra|].
    assert (0 <= 10 * 0.25 * e) by (apply Qmult_le_0_compat; lra). lra.
Qed.

(** X12. [baseScale] is positive in both scale modes, also on degenerate
    input: a field without relief gives 0.01 and a horizontal distance that
    is not positive gives 0.1, so no scale is ever a division by zero. *)
Theorem baseScale_positive (props : TerrainMeshProps) :
  0 < baseScale Math_sin Math_cos Math_sqrt Math_atan2 Math_PI props /\
  (useRealScale props = false -> positiveElevationRange props = None ->
   baseScale Math_sin Math_cos Math_sqrt Math_atan2 Math_PI props == 0.01) /\
  (useRealScale props = true ->
   horizontalDistanceMeters Math_sin Math_cos Math_sqrt Math_atan2 Math_PI
                            props <= 0 ->
   baseScale Math_sin Math_cos Math_sqrt Math_atan2 Math_PI props == 0.1).
Proof.
  unfold baseScale.
  set (d := horizontalDistanceMeters Math_sin Math_cos Math_sqrt Math_atan2
                                     Math_PI props).
  split; [|split].
  - destruct (useRealScale props).
    + destruct (Qltb 0 d) eqn:E; [|reflexivity]. apply Qltb_lt in E.
      cbv zeta. apply Qlt_shift_div_l; [exact E|]. unfold planeWidth. lra.
    + cbv zeta. unfold positiveElevationRange.
      destruct (elevationStats (filteredHeights props)) as [[mn mx]|];
        [|reflexivity].
      cbv zeta. destruct (Qltb 0 (mx - mn)) eqn:E; [|reflexivity].
      apply Qltb_lt in E. apply Qlt_shift_div_l; [exact E|].
      unfold planeWidth. lra.
  - intros -> ->. reflexivity.
  - intros -> Hd. replace (Qltb 0 d) with false; [reflexivity|].
    symmetry. apply not_true_iff_false. rewrite Qltb_lt.
    now apply Qle_not_lt.
Qed.

End DisplacementRange.

Lemma normalized_displacement_within_quarter_witness :
  let props :=
    MapCanvas.mkTerrainMeshProps Fixtures.smallBox 1 128
      TerrainFilters.FilterMedian false
      (Fixtures.rampRaster (fun _ => 255%Z)) 2 2 in
  (0 <= MapCanvas.vertexElevation (fun _ => 0%Q) (fun _ => 0%Q)
          (fun _ => 0%Q) (fun _ _ => 0%Q) 0%Q props 4000
     <= MapCanvas.planeWidth * 0.25 * 1)%Q.
Proof.
  apply (normalized_displacement_within_quarter
           (fun _ => 0%Q) (fun _ => 0%Q) (fun _ => 0%Q) (fun _ _ => 0%Q) 0%Q
           (MapCanvas.mkTerrainMeshProps Fixtures.smallBox 1 128
              TerrainFilters.FilterMedian false
              (Fixtures.rampRaster (fun _ => 255%Z)) 2 2) 4000).
  - reflexivity.
  - discriminate.
  - cbn. lia.
  - cbn. lia.
Defined.

(** ** Vertices that fall on pixels, and the sampler of the GeoTIFF
       utilities *)

Section AlignedSampling.

Import MapCanvas.
Open Scope Q_scope.

(** X13. When the raster has [kx * segments + 1] columns and
    [ky * segments + 1] rows, every vertex of the grid falls exactly on a
    pixel: the vertex in column [i mod (segments+1)] and row
    [i div (segments+1)] samples the pixel [kx] times as far along each row
    and [ky] times as far down, and its interpolated height is the height
    of that pixel, with nothing mixed in from the neighbours. *)
Theorem aligned_vertex_samples_its_pixel (heights : list Q)
    (segments kx ky i : Z) :
  (1 <= segments)%Z -> (0 <= kx)%Z -> (0 <= ky)%Z ->
  (0 <= i < (segments + 1) * (segments + 1))%Z ->
  let W := (kx * segments + 1)%Z in
  let H := (ky * segments + 1)%Z in
  let vertexX := (i mod (segments + 1))%Z in
  let vertexY := (i / (segments + 1))%Z in
  bilinearSample heights W H (fst (vertexUV segments i))
                 (snd (vertexUV segments i))
  == get heights (vertexY * ky * W + vertexX * kx) 0.
Proof.
  intros Hs Hkx Hky Hi W H vertexX vertexY.
  assert (HvX : (0 <= vertexX < segments + 1)%Z)
    by (apply Z.mod_pos_bound; lia).
  assert (HvY : (0 <= vertexY < segments + 1)%Z).
  { split; [apply Z.div_pos; lia|]. apply Z.div_lt_upper_bound; lia. }
  assert (Hne : ~ inject_Z segments == 0).
  { change 0 with (inject_Z 0). rewrite inject_Z_injective. lia. }
  unfold vertexUV. cbn [fst snd]. fold vertexX vertexY.
  apply bilinearSample_at_pixel.
  - unfold W. nia.
  - unfold H. nia.
  - unfold W. replace (kx * segments + 1 - 1)%Z with (kx * segments)%Z by lia.
    rewrite !inject_Z_mult. field. exact Hne.
  - unfold H. replace (ky * segments + 1 - 1)%Z with (ky * segments)%Z by lia.
    rewrite !inject_Z_mult. field. exact Hne.
Qed.

Lemma clamp01_within (u : Q) : 0 <= Qmax 0 (Qmin 1 u) <= 1.
Proof.
  split; [apply Q.le_max_l|]. apply Q.max_lub; [discriminate|].
  apply Q.le_min_l.
Qed.

Lemma floor_of_scaled (u : Q) (n : Z) :
  0 <= u <= 1 -> (0 <= n)%Z -> (0 <= Qfloor (u * inject_Z n) <= n)%Z.
Proof.
  intros [Hu0 Hu1] Hn.
  assert (Hq : 0 <= inject_Z n) by (change 0 with (inject_Z 0);
                                    rewrite <- Zle_Qle; exact Hn).
  assert (H0 : 0 <= u * inject_Z n) by (apply Qmult_le_0_compat; assumption).
  assert (H1 : u * inject_Z n <= inject_Z n).
  { setoid_replace (inject_Z n) with (1 * inject_Z n) at 2 by ring.
    now apply Qmult_le_compat_r. }
  split.
  - change 0%Z with (Qfloor 0). now apply Qfloor_resp_le.
  - rewrite <- (Qfloor_Z n) at 2. now apply Qfloor_resp_le.
Qed.

(** X14. [sampleElevationFromGBA] is the bilinear sampler of the displacer
    applied to the coordinates clamped to [[0, 1]]: on a raster of at least
    one pixel the two return the same value for all [u] and [v], and that
    value lies between any two bounds of the field. *)
Theorem sampleElevationFromGBA_is_clamped_bilinearSample (heights : list Q)
    (width height : Z) (u v lo hi : Q) :
  (1 <= width)%Z -> (1 <= height)%Z ->
  Z.of_nat (length heights) = (width * height)%Z ->
  (forall h, In h heights -> lo <= h <= hi) ->
  GeoTiff.sampleElevationFromGBA heights width height u v
  = bilinearSample heights width height (Qmax 0 (Qmin 1 u))
                   (Qmax 0 (Qmin 1 v)) /\
  lo <= GeoTiff.sampleElevationFromGBA heights width height u v <= hi.
Proof.
  intros HW HH Hlen Hall.
  assert (Heq : GeoTiff.sampleElevationFromGBA heights width height u v
                = bilinearSample heights width height (Qmax 0 (Qmin 1 u))
                                 (Qmax 0 (Qmin 1 v))).
  { unfold GeoTiff.sampleElevationFromGBA, bilinearSample. cbv zeta.
    pose proof (floor_of_scaled (Qmax 0 (Qmin 1 u)) (width - 1)
                  (clamp01_within u) ltac:(lia)) as Hx.
    pose proof (floor_of_scaled (Qmax 0 (Qmin 1 v)) (height - 1)
                  (clamp01_within v) ltac:(lia)) as Hy.
    rewrite !sampleHeight_at_pixel by lia. reflexivity. }
  split; [exact Heq|]. rewrite Heq. now apply bilinearSample_within.
Qed.

End AlignedSampling.

Lemma aligned_vertex_samples_its_pixel_witness :
  (MapCanvas.bilinearSample [0; 0; 0; 1000]%Q (1 * 1 + 1) (1 * 1 + 1)
     (fst (MapCanvas.vertexUV 1 3)) (snd (MapCanvas.vertexUV 1 3))
   == get [0; 0; 0; 1000]%Q
          (3 / (1 + 1) * 1 * (1 * 1 + 1) + 3 mod (1 + 1) * 1) 0)%Q.
Proof.
  apply (aligned_vertex_samples_its_pixel [0; 0; 0; 1000]%Q 1 1 1 3); lia.
Defined.

Lemma sampleElevationFromGBA_is_clamped_bilinearSample_witness :
  GeoTiff.sampleElevationFromGBA [0; 0; 0; 1000]%Q 2 2 2 0.5
  = MapCanvas.bilinearSample [0; 0; 0; 1000]%Q 2 2
      (Qmax 0 (Qmin 1 2)) (Qmax 0 (Qmin 1 0.5)) /\
  (0 <= GeoTiff.sampleElevationFromGBA [0; 0; 0; 1000]%Q 2 2 2 0.5
     <= 1000)%Q.
Proof.
  apply (sampleElevationFromGBA_is_clamped_bilinearSample
           [0; 0; 0; 1000]%Q 2 2 2 0.5 0 1000); try lia.
  - reflexivity.
  - intros h Hin.
    repeat (destruct Hin as [<- | Hin]; [split; discriminate|]).
    destruct Hin.
Defined.

(** ** The heatmap texture *)

Section Heatmap.

Import MapCanvas.
Open Scope Q_scope.

Lemma Math_round_byte (t : Q) : 0 <= t <= 1 -> isByte (Math_round (255 * t)).
Proof.
  intros [H0 H1]. unfold isByte, Math_round. split.
  - apply (Qfloor_resp_le 0.5 (255 * t + 0.5)). lra.
  - apply (Qfloor_resp_le (255 * t + 0.5) 255.5). lra.
Qed.

Lemma heatColor_bytes (clamped : Q) :
  0 <= clamped <= 1 ->
  length (heatColor clamped) = 3%nat /\ Forall isByte (heatColor clamped).
Proof.
  intros [H0 H1]. unfold heatColor. destruct (Qltb clamped 0.5) eqn:E.
  - apply Qltb_lt in E. split; [reflexivity|].
    constructor; [unfold isByte; lia|].
    constructor; [apply Math_round_byte; lra|].
    constructor; [unfold isByte; lia | constructor].
  - assert (0.5 <= clamped)
      by (apply Qnot_lt_le; rewrite <- Qltb_lt; congruence).
    split; [reflexivity|].
    constructor; [apply Math_round_byte; lra|].
    constructor; [apply Math_round_byte; lra|].
    constructor; [unfold isByte; lia | constructor].
Qed.

Lemma heatColor_comp (c c' : Q) : c == c' -> heatColor c = heatColor c'.
Proof.
  intros H. unfold heatColor, Qltb, Math_round. cbv zeta.
  rewrite (Qleb_comp 0.5 0.5 (Qeq_refl _) c c' H).
  destruct (negb (Qle_bool 0.5 c')).
  - rewrite (Qfloor_comp (255 * (c * 2) + 0.5) (255 * (c' * 2) + 0.5))
      by (rewrite H; reflexivity).
    reflexivity.
  - rewrite (Qfloor_comp (255 * ((c - 0.5) * 2) + 0.5)
                         (255 * ((c' - 0.5) * 2) + 0.5))
      by (rewrite H; reflexivity).
    rewrite (Qfloor_comp (255 * (1 - (c - 0.5) * 2) + 0.5)
                         (255 * (1 - (c' - 0.5) * 2) + 0.5))
      by (rewrite H; reflexivity).
    reflexivity.
Qed.

(** Element [i * n + j] of a concatenation of pieces of length [n] is
    element [j] of piece [i]. *)
Lemma flat_map_piece_nth {A B : Type} (f : A -> list B) (n : nat) (l : list A)
    (a : A) (d : B) :
  (forall x, length (f x) = n) ->
  forall i j, (i < length l)%nat -> (j < n)%nat ->
              nth (i * n + j) (flat_map f l) d = nth j (f (nth i l a)) d.
Proof.
  intros Hlen. induction l as [|x l IH]; intros i j Hi Hj; cbn in Hi; [lia|].
  cbn [flat_map]. destruct i as [|i].
  - cbn [Nat.mul Nat.add nth]. apply app_nth1. rewrite Hlen. exact Hj.
  - rewrite app_nth2 by (rewrite Hlen; cbn; lia). rewrite Hlen.
    replace (S i * n + j - n)%nat with (i * n + j)%nat by (cbn; lia).
    cbn [nth]. apply IH; lia.
Qed.

(** X15. [generateHeatmapTexture] writes four bytes per pixel, each within
    [[0, 255]], so the clamped array stores them as computed, and the
    fourth is always 255. When the range is positive, a pixel decoded at or
    below [minElevation] is pure blue and one at or above [maxElevation] is
    pure red; when the range is not positive every pixel is pure green. *)
Theorem generateHeatmapTexture_colours (terrainImageData : ImageData)
    (width height : Z) (minElevation maxElevation : Q) :
  let out := generateHeatmapTexture terrainImageData width height
                                    minElevation maxElevation in
  let raw :=
    TileStitcher.createHeightmapFromTerrainRGB terrainImageData width height in
  let pixel i := map (fun j => get out (4 * i + j) 0%Z) [0; 1; 2; 3]%Z in
  length out = (4 * Z.to_nat (width * height))%nat /\
  Forall isByte out /\
  (forall i, (0 <= i < width * height)%Z ->
     get out (4 * i + 3) 0%Z = 255%Z /\
     (minElevation < maxElevation -> get raw i 0 <= minElevation ->
      pixel i = [0; 0; 255; 255]%Z) /\
     (minElevation < maxElevation -> maxElevation <= get raw i 0 ->
      pixel i = [255; 0; 0; 255]%Z) /\
     (maxElevation <= minElevation -> pixel i = [0; 255; 0; 255]%Z)).
Proof.
  intros out raw pixel.
  set (colour := fun i : Z =>
    let idx := (i * 4)%Z in
    let r := get (data terrainImageData) idx 0%Z in
    let g := get (data terrainImageData) (idx + 1)%Z 0%Z in
    let b := get (data terrainImageData) (idx + 2)%Z 0%Z in
    let elevation :=
      -10000 + (inject_Z (r * 256 * 256 + g * 256 + b) * 0.1) in
    let normalized :=
      if Qltb 0 (maxElevation - minElevation)
      then (elevation - minElevation) / (maxElevation - minElevation)
      else 0.5 in
    heatColor (Qmax 0 (Qmin 1 normalized)) ++ [255%Z]).
  assert (Hout : out = flat_map colour (forRange 0 (width * height)))
    by reflexivity.
  assert (Hpiece : forall i, length (colour i) = 4%nat).
  { intros i. unfold colour. cbv zeta. rewrite length_app.
    now rewrite (proj1 (heatColor_bytes _ (clamp01_within _))). }
  assert (Hget : forall i j, (0 <= i < width * height)%Z -> (0 <= j < 4)%Z ->
                             get out (4 * i + j) 0%Z = get (colour i) j 0%Z).
  { intros i j Hi Hj. unfold get.
    replace (4 * i + j <? 0)%Z with false by (symmetry; apply Z.ltb_ge; lia).
    replace (j <? 0)%Z with false by (symmetry; apply Z.ltb_ge; lia).
    replace (Z.to_nat (4 * i + j))
      with (Z.to_nat i * 4 + Z.to_nat j)%nat by lia.
    rewrite Hout.
    rewrite (flat_map_piece_nth colour 4 _ 0%Z 0%Z Hpiece)
      by (rewrite ?forRange_length; lia).
    rewrite forRange_nth by lia. do 2 f_equal. lia. }
  assert (Hpixel : forall i, (0 <= i < width * height)%Z ->
                             pixel i = colour i).
  { intros i Hi. unfold pixel. cbn [map].
    replace (4 * i + 0)%Z with (4 * i + 0)%Z by reflexivity.
    rewrite !Hget by lia. specialize (Hpiece i).
    destruct (colour i) as [|c0 [|c1 [|c2 [|c3 [|c4 rest]]]]];
      cbn in Hpiece; try lia. reflexivity. }
  split; [|split].
  - rewrite Hout. rewrite (flat_map_constant_length (c := 4%nat))
      by (intros; apply Hpiece).
    rewrite forRange_length. lia.
  - rewrite Hout. apply Forall_flat_map, Forall_forall. intros i _.
    unfold colour. cbv zeta. apply Forall_app. split.
    + apply heatColor_bytes, clamp01_within.
    + constructor; [unfold isByte; lia | constructor].
  - intros i Hi.
    assert (Hraw : get raw i 0
                   = -10000 + (inject_Z
                       (get (data terrainImageData) (i * 4) 0%Z * 256 * 256
                        + get (data terrainImageData) (i * 4 + 1) 0%Z * 256
                        + get (data terrainImageData) (i * 4 + 2) 0%Z) * 0.1)).
    { unfold raw, TileStitcher.createHeightmapFromTerrainRGB.
      rewrite get_map with (d := 0%Z) by (rewrite forRange_length; lia).
      rewrite forRange_get by lia. rewrite Z.add_0_l. reflexivity. }
    split; [|split; [|split]].
    + rewrite Hget by lia. unfold colour. cbv zeta.
      pose proof (heatColor_bytes _ (clamp01_within
        (if Qltb 0 (maxElevation - minElevation)
         then (get raw i 0 - minElevation) / (maxElevation - minElevation)
         else 0.5))) as [Hl _].
      rewrite <- Hraw.
      destruct (heatColor _) as [|c0 [|c1 [|c2 [|c3 rest]]]];
        cbn in Hl; try lia. reflexivity.
    + intros Hrange Hlow. rewrite Hpixel by exact Hi. unfold colour.
      cbv zeta. rewrite <- Hraw.
      replace (Qltb 0 (maxElevation - minElevation)) with true
        by (symmetry; apply Qltb_lt; lra).
      rewrite (heatColor_comp _ 0); [reflexivity|].
      assert ((get raw i 0 - minElevation) / (maxElevation - minElevation)
              <= 0).
      { apply Qle_shift_div_r; lra. }
      rewrite Q.min_r by lra. apply Q.max_l. assumption.
    + intros Hrange Hhigh. rewrite Hpixel by exact Hi. unfold colour.
      cbv zeta. rewrite <- Hraw.
      replace (Qltb 0 (maxElevation - minElevation)) with true
        by (symmetry; apply Qltb_lt; lra).
      rewrite (heatColor_comp _ 1); [reflexivity|].
      assert (1 <= (get raw i 0 - minElevation)
                   / (maxElevation - minElevation)).
      { apply Qle_shift_div_l; lra. }
      rewrite Q.min_l by assumption. apply Q.max_r. discriminate.
    + intros Hflat. rewrite Hpixel by exact Hi. unfold colour. cbv zeta.
      replace (Qltb 0 (maxElevation - minElevation)) with false;
        [reflexivity|].
      symmetry. apply not_true_iff_false. rewrite Qltb_lt. lra.
Qed.

End Heatmap.

(** ** Parsing a bounding box *)

Section ParseBoundingBox.

Import TileUtils.

Variable trim : string -> string.
Variable parseFloat : string -> option Q.

Lemma splitComma_length (s : string) :
  length (splitComma s) = S (countCommas s).
Proof.
  induction s as [|c rest IH]; [reflexivity|]. cbn [splitComma countCommas].
  destruct (Ascii.eqb c ","%char); cbn [length]; [now rewrite IH|].
  destruct (splitComma rest); cbn in *; lia.
Qed.

(** X16. [parseBoundingBox] returns a box only for an input with exactly
    three commas whose four trimmed pieces all parse as numbers, and every
    box it returns holds those four numbers and is valid: [minLon < maxLon],
    [minLat < maxLat], longitudes within [[-180, 180]] and latitudes within
    [[-90, 90]]. Conversely it accepts every such input. *)
Theorem parseBoundingBox_accepts_exactly_valid (input : string) :
  (countCommas input <> 3%nat ->
   parseBoundingBox trim parseFloat input = None) /\
  (forall bbox,
      parseBoundingBox trim parseFloat input = Some bbox <->
      exists a b c d,
        splitComma input = [a; b; c; d] /\
        parseFloat (trim a) = Some (minLon bbox) /\
        parseFloat (trim b) = Some (minLat bbox) /\
        parseFloat (trim c) = Some (maxLon bbox) /\
        parseFloat (trim d) = Some (maxLat bbox) /\
        (minLon bbox < maxLon bbox /\ minLat bbox < maxLat bbox /\
         -180 <= minLon bbox /\ maxLon bbox <= 180 /\
         -90 <= minLat bbox /\ maxLat bbox <= 90)%Q).
Proof.
  pose proof (splitComma_length input) as Hlen.
  unfold parseBoundingBox. cbv zeta. rewrite length_map. split.
  - intros Hc. replace (Z.of_nat (length (splitComma input)) =? 4) with false;
      [reflexivity|].
    symmetry. apply Z.eqb_neq. lia.
  - intros bbox. split.
    + destruct (Z.of_nat (length (splitComma input)) =? 4) eqn:E;
        [|discriminate].
      apply Z.eqb_eq in E. cbn [negb].
      destruct (splitComma input) as [|a [|b [|c [|d [|e rest]]]]];
        cbn [length] in E; try lia. cbn [map].
      destruct (parseFloat (trim a)) as [minLon|] eqn:Ha; [|discriminate].
      destruct (parseFloat (trim b)) as [minLat|] eqn:Hb; [|discriminate].
      destruct (parseFloat (trim c)) as [maxLon|] eqn:Hc; [|discriminate].
      destruct (parseFloat (trim d)) as [maxLat|] eqn:Hd; [|discriminate].
      destruct (_ || _) eqn:Hv; [discriminate|]. intros Heq.
      inversion Heq; subst. cbn [TileUtils.minLon TileUtils.minLat
                                 TileUtils.maxLon TileUtils.maxLat].
      exists a, b, c, d.
      split; [reflexivity|]. split; [exact Ha|]. split; [exact Hb|].
      split; [exact Hc|]. split; [exact Hd|].
      apply (isValidBoundingBox_ordered
               (mkBoundingBox minLon minLat maxLon maxLat)).
      unfold isValidBoundingBox. cbn [TileUtils.minLon TileUtils.minLat
                                      TileUtils.maxLon TileUtils.maxLat].
      now rewrite Hv.
    + intros (a & b & c & d & Hs & Ha & Hb & Hc & Hd & Hvalid).
      rewrite Hs. cbn [length map negb Z.of_nat]. rewrite Ha, Hb, Hc, Hd.
      change (Z.pos (Pos.of_succ_nat 3) =? 4) with true. cbn [negb].
      destruct Hvalid as (H1 & H2 & H3 & H4 & H5 & H6).
      replace (_ || _) with false; [now destruct bbox|].
      symmetry. rewrite !orb_false_iff. repeat split;
        apply not_true_iff_false; rewrite ?Qle_bool_iff, ?Qltb_lt;
        auto using Qlt_not_le, Qle_not_lt.
Qed.

End ParseBoundingBox.

Lemma parseBoundingBox_accepts_exactly_valid_witness :
  TileUtils.parseBoundingBox Fixtures.trimNothing Fixtures.parseDigits
    "10,46,12,48"
  = Some Fixtures.alpsBox.
Proof.
  apply (proj2 (proj2 (parseBoundingBox_accepts_exactly_valid
                         Fixtures.trimNothing Fixtures.parseDigits
                         "10,46,12,48") Fixtures.alpsBox)).
  exists "10"%string, "46"%string, "12"%string, "48"%string.
  repeat split; try reflexivity; discriminate.
Defined.

(** ** The size of the 5x5 window *)

Section KernelSize.

Import TerrainFilters.

Lemma kernel_row_length (heights : list Q) (width height x y dy : Z) :
  (0 <= x < width)%Z ->
  length
    (flat_map (fun dx =>
       let nx := (x + dx)%Z in
       let ny := (y + dy)%Z in
       if ((nx >=? 0) && (nx <? width) && (ny >=? 0) && (ny <? height))%Z
       then [get heights (ny * width + nx)%Z 0]
       else [])
     (forRangeIncl (-2) 2))
  = if ((y + dy >=? 0) && (y + dy <? height))%Z
    then Z.to_nat (Z.min (x + 2) (width - 1) - Z.max (x - 2) 0 + 1)
    else 0%nat.
Proof.
  intros Hx.
  change (forRangeIncl (-2) 2) with [-2; -1; 0; 1; 2]%Z.
  cbn [flat_map]. cbv zeta. rewrite !length_app.
  destruct (y + dy >=? 0)%Z, (y + dy <? height)%Z;
    rewrite ?andb_false_r; cbn [andb length]; try reflexivity.
  rewrite !andb_true_r.
  assert (Hleft : (x = 0 \/ x = 1 \/ 2 <= x)%Z) by lia.
  assert (Hright : (width - x = 1 \/ width - x = 2 \/ 3 <= width - x)%Z)
    by lia.
  rewrite !Z.geb_leb.
  destruct Hleft as [Hl | [Hl | Hl]], Hright as [Hr | [Hr | Hr]];
    repeat match goal with
      | |- context [(?a <=? ?b)%Z] =>
          first [ replace (a <=? b)%Z with true
                    by (symmetry; apply Z.leb_le; lia)
                | replace (a <=? b)%Z with false
                    by (symmetry; apply Z.leb_gt; lia) ]
      | |- context [(?a <? ?b)%Z] =>
          first [ replace (a <? b)%Z with true
                    by (symmetry; apply Z.ltb_lt; lia)
                | replace (a <? b)%Z with false
                    by (symmetry; apply Z.ltb_ge; lia) ]
      end;
    cbn [andb length]; lia.
Qed.

(** X17. Around a pixel of the raster the 5x5 window holds as many samples
    as the product of the in-bounds columns and the in-bounds rows: 25
    exactly at the pixels two or more away from every edge, never more, and
    at least 9 as soon as the raster is 3x3 or larger, so that on such a
    raster no pixel is left out of the Hampel test for lack of samples. *)
Theorem get5x5KernelHeights_sample_count (heights : list Q)
    (width height x y : Z) :
  (0 <= x < width)%Z -> (0 <= y < height)%Z ->
  let n :=
    Z.of_nat (length (get5x5KernelHeights heights width height x y)) in
  (n = (Z.min (x + 2) (width - 1) - Z.max (x - 2) 0 + 1)
       * (Z.min (y + 2) (height - 1) - Z.max (y - 2) 0 + 1))%Z /\
  (n <= 25)%Z /\
  (n = 25 <-> 2 <= x < width - 2 /\ 2 <= y < height - 2)%Z /\
  (3 <= width -> 3 <= height -> 9 <= n)%Z.
Proof.
  intros Hx Hy n.
  remember (Z.min (x + 2) (width - 1) - Z.max (x - 2) 0 + 1)%Z as cx
    eqn:Hcx.
  remember (Z.min (y + 2) (height - 1) - Z.max (y - 2) 0 + 1)%Z as cy
    eqn:Hcy.
  assert (Hn : n = (cx * cy)%Z).
  { subst n. unfold get5x5KernelHeights. rewrite length_flat_map.
    rewrite (map_ext _ _ (fun dy =>
               kernel_row_length heights width height x y dy Hx)).
    rewrite <- Hcx.
    change (forRangeIncl (-2) 2) with [-2; -1; 0; 1; 2]%Z.
    cbn [map list_sum].
    assert (Htop : (y = 0 \/ y = 1 \/ 2 <= y)%Z) by lia.
    assert (Hbottom :
              (height - y = 1 \/ height - y = 2 \/ 3 <= height - y)%Z)
      by lia.
    rewrite !Z.geb_leb.
    destruct Htop as [Ht | [Ht | Ht]], Hbottom as [Hb | [Hb | Hb]];
      repeat match goal with
        | |- context [(?a <=? ?b)%Z] =>
            first [ replace (a <=? b)%Z with true
                      by (symmetry; apply Z.leb_le; lia)
                  | replace (a <=? b)%Z with false
                      by (symmetry; apply Z.leb_gt; lia) ]
        | |- context [(?a <? ?b)%Z] =>
            first [ replace (a <? b)%Z with true
                      by (symmetry; apply Z.ltb_lt; lia)
                  | replace (a <? b)%Z with false
                      by (symmetry; apply Z.ltb_ge; lia) ]
        end;
      cbn [andb];
      first [ replace cy with 1%Z by lia | replace cy with 2%Z by lia
            | replace cy with 3%Z by lia | replace cy with 4%Z by lia
            | replace cy with 5%Z by lia ];
      cbn [list_sum fold_right]; lia. }
  assert (Bx : (1 <= cx <= 5)%Z) by lia.
  assert (By : (1 <= cy <= 5)%Z) by lia.
  split; [exact Hn|]. split; [rewrite Hn; nia|]. split.
  - rewrite Hn. split.
    + intros H25. assert (cx = 5 /\ cy = 5)%Z as [H5x H5y] by nia. lia.
    + intros [Hix Hiy]. replace cx with 5%Z by lia.
      replace cy with 5%Z by lia. reflexivity.
  - intros Hw Hh. rewrite Hn.
    assert (3 <= cx)%Z by lia. assert (3 <= cy)%Z by lia. nia.
Qed.

End KernelSize.

Lemma get5x5KernelHeights_sample_count_witness :
  let heights :=
    TerrainFilters.applyNoFilter (Fixtures.spikeRaster (fun _ => 255)) 5 5 in
  let n :=
    Z.of_nat
      (length (TerrainFilters.get5x5KernelHeights heights 5 5 0 4)) in
  n = (Z.min (0 + 2) (5 - 1) - Z.max (0 - 2) 0 + 1)
      * (Z.min (4 + 2) (5 - 1) - Z.max (4 - 2) 0 + 1) /\
  n <= 25 /\
  (n = 25 <-> 2 <= 0 < 5 - 2 /\ 2 <= 4 < 5 - 2) /\
  (3 <= 5 -> 3 <= 5 -> 9 <= n).
Proof.
  apply (get5x5KernelHeights_sample_count
           (TerrainFilters.applyNoFilter
              (Fixtures.spikeRaster (fun _ => 255)) 5 5) 5 5 0 4); lia.
Defined.

(** ** The crop of the stitcher *)

Section StitcherCrop.

Import TileUtils TileStitcher.
Local Open Scope Q_scope.

Lemma scaled_part (p q R W : Q) :
  0 <= p -> 0 < q -> p + q <= R -> 0 <= W ->
  0 <= p / R * W /\ 0 <= q / R * W /\ p / R * W + q / R * W <= W /\
  (0 < W -> 0 < q / R * W).
Proof.
  intros Hp Hq Hsum HW.
  assert (HR : 0 < R) by lra.
  assert (Hp' : 0 <= p / R) by (apply Qle_shift_div_l; lra).
  assert (Hq' : 0 < q / R) by (apply Qlt_shift_div_l; lra).
  assert (Hone : (p + q) / R <= 1) by (apply Qle_shift_div_r; lra).
  split; [apply Qmult_le_0_compat; assumption|].
  split; [apply Qmult_le_0_compat; [apply Qlt_le_weak|]; assumption|].
  split.
  - setoid_replace (p / R * W + q / R * W) with ((p + q) / R * W)
      by (field; lra).
    setoid_replace W with (1 * W) at 2 by ring.
    apply Qmult_le_compat_r; assumption.
  - intros HW'. setoid_replace 0 with (0 * W) by ring.
    apply Qmult_lt_compat_r; assumption.
Qed.

Lemma Qceiling_within (w : Q) (W : Z) :
  0 < w -> w <= inject_Z W -> (1 <= Qceiling w <= W)%Z.
Proof.
  intros Hpos Hle. split.
  - pose proof (Qle_ceiling w) as Hc.
    assert (Hlt : inject_Z 0 < inject_Z (Qceiling w)).
    { apply Qlt_le_trans with w; assumption. }
    rewrite <- Zlt_Qlt in Hlt. lia.
  - rewrite <- (Qceiling_Z W). apply Qceiling_resp_le. exact Hle.
Qed.

Lemma keysOf_length_pos (k : Z) (ks : list Z) :
  (1 <= Z.of_nat (length (sortZ (keysOf [] (k :: ks)))))%Z.
Proof.
  rewrite sortZ_length. cbn. lia.
Qed.

Variable tileToBBOX : Z * Z * Z -> Q * Q * Q * Q.
Variable fetchTile : string -> bool.
Variable arrivalOrder : list TileCoord -> list TileCoord.

(** X18. When the requested box is not degenerate and lies within the hull
    of the bounds of the tiles, the last drawing of [stitchTiles] crops a
    rectangle that lies inside the composite canvas: its origin is not
    negative, so the clamps at 0 change nothing, its width and height are
    positive, and it ends at or before the right and bottom edges. The
    cropped canvas is the ceiling of that size, at least 1x1 and at most the
    size of the composite canvas; it is what the function returns, with
    image data of the same size exactly for the style terrain-rgb. *)
Theorem stitchTiles_crop_within_canvas (tiles : list TileCoord)
    (bbox : BoundingBox) (style : TileStyle) (token : string) :
  let tileBboxes := map (tileToBoundingBox tileToBBOX) tiles in
  let west := minOf (map minLon tileBboxes) in
  let east := maxOf (map maxLon tileBboxes) in
  let south := minOf (map minLat tileBboxes) in
  let north := maxOf (map maxLat tileBboxes) in
  let W := (Z.of_nat (length (sortZ (keysOf [] (map x tiles)))) * 512)%Z in
  let H := (Z.of_nat (length (sortZ (keysOf [] (map y tiles)))) * 512)%Z in
  let isTerrain := match style with TerrainRgb => true | _ => false end in
  tiles <> [] ->
  west <= minLon bbox -> minLon bbox < maxLon bbox -> maxLon bbox <= east ->
  south <= minLat bbox -> minLat bbox < maxLat bbox -> maxLat bbox <= north ->
  exists (before : list Effect) (sx sy sw sh : Q) (dw dh : Z),
    stitchTiles tileToBBOX fetchTile arrivalOrder tiles bbox style token
    = (before ++ [CreateCanvas dw dh; DrawCanvas sx sy sw sh dw dh]
         ++ (if isTerrain then [GetImageData dw dh] else []),
       Returned (mkStitched (dw, dh)
                   (if isTerrain then Some (dw, dh) else None))) /\
    sx == (minLon bbox - west) / (east - west) * inject_Z W /\
    sy == (north - maxLat bbox) / (north - south) * inject_Z H /\
    sw == (maxLon bbox - minLon bbox) / (east - west) * inject_Z W /\
    sh == (maxLat bbox - minLat bbox) / (north - south) * inject_Z H /\
    0 <= sx /\ 0 < sw /\ sx + sw <= inject_Z W /\
    0 <= sy /\ 0 < sh /\ sy + sh <= inject_Z H /\
    dw = Qceiling sw /\ dh = Qceiling sh /\
    (1 <= dw <= W)%Z /\ (1 <= dh <= H)%Z.
Proof.
  intros tileBboxes west east south north W H isTerrain Hne
    Hw Hlon He Hs Hlat Hn.
  destruct tiles as [|tile more]; [congruence|].
  assert (HW : (1 <= Z.of_nat (length (sortZ (keysOf [] (map x (tile :: more))))))%Z)
    by apply keysOf_length_pos.
  assert (HH : (1 <= Z.of_nat (length (sortZ (keysOf [] (map y (tile :: more))))))%Z)
    by apply keysOf_length_pos.
  assert (HWq : 0 < inject_Z W).
  { change 0 with (inject_Z 0). rewrite <- Zlt_Qlt. unfold W. lia. }
  assert (HHq : 0 < inject_Z H).
  { change 0 with (inject_Z 0). rewrite <- Zlt_Qlt. unfold H. lia. }
  destruct (scaled_part (minLon bbox - west) (maxLon bbox - minLon bbox)
              (east - west) (inject_Z W))
    as (Hsx & _ & Hxsum & Hswpos); try lra.
  destruct (scaled_part (north - maxLat bbox) (maxLat bbox - minLat bbox)
              (north - south) (inject_Z H))
    as (Hsy & _ & Hysum & Hshpos); try lra.
  specialize (Hswpos HWq). specialize (Hshpos HHq).
  unfold stitchTiles.
  replace (Z.of_nat (length (tile :: more)) =? 0)%Z with false
    by (symmetry; apply Z.eqb_neq; cbn [length]; lia).
  cbv zeta.
  fold tileBboxes. fold west east south north. fold W H. fold isTerrain.
  set (startX := (minLon bbox - west) / (east - west) * inject_Z W) in *.
  set (startY := (north - maxLat bbox) / (north - south) * inject_Z H) in *.
  set (cropWidth :=
         (maxLon bbox - minLon bbox) / (east - west) * inject_Z W) in *.
  set (cropHeight :=
         (maxLat bbox - minLat bbox) / (north - south) * inject_Z H) in *.
  eexists (_ :: _), (Qmax 0 startX), (Qmax 0 startY), cropWidth, cropHeight,
    (Qceiling cropWidth), (Qceiling cropHeight).
  split.
  { cbn [app]. rewrite <- app_assoc. reflexivity. }
  assert (Hmx : Qmax 0 startX == startX) by (apply Q.max_r; exact Hsx).
  assert (Hmy : Qmax 0 startY == startY) by (apply Q.max_r; exact Hsy).
  split; [exact Hmx|]. split; [exact Hmy|].
  split; [reflexivity|]. split; [reflexivity|].
  split; [rewrite Hmx; exact Hsx|]. split; [exact Hswpos|].
  split; [rewrite Hmx; exact Hxsum|].
  split; [rewrite Hmy; exact Hsy|]. split; [exact Hshpos|].
  split; [rewrite Hmy; exact Hysum|].
  split; [reflexivity|]. split; [reflexivity|].
  split; apply Qceiling_within; try assumption; lra.
Qed.

End StitcherCrop.

Lemma stitchTiles_crop_within_canvas_witness :
  let tiles := [TileUtils.mkTileCoord 543 228 10] in
  let bbox := Fixtures.smallBox in
  exists (before : list TileStitcher.Effect) (sx sy sw sh : Q) (dw dh : Z),
    TileStitcher.stitchTiles Fixtures.gridTileToBBOX Fixtures.fetchAlways
      Fixtures.arriveInOrder tiles bbox TileUtils.TerrainRgb "token"
    = (before ++ [TileStitcher.CreateCanvas dw dh;
                  TileStitcher.DrawCanvas sx sy sw sh dw dh]
         ++ [TileStitcher.GetImageData dw dh],
       TileStitcher.Returned
         (TileStitcher.mkStitched (dw, dh) (Some (dw, dh)))) /\
    (0 <= sx /\ 0 < sw /\ sx + sw <= 512 /\
     0 <= sy /\ 0 < sh /\ sy + sh <= 512)%Q /\
    1 <= dw <= 512 /\ 1 <= dh <= 512.
Proof.
  destruct (stitchTiles_crop_within_canvas
              Fixtures.gridTileToBBOX Fixtures.fetchAlways
              Fixtures.arriveInOrder
              [TileUtils.mkTileCoord 543 228 10] Fixtures.smallBox
              TileUtils.TerrainRgb "token")
    as (before & sx & sy & sw & sh & dw & dh & Hrun & _ & _ & _ & _
        & H1 & H2 & H3 & H4 & H5 & H6 & _ & _ & H7 & H8);
    [ discriminate
    | vm_compute; first [discriminate | reflexivity] ..
    | ].
  exists before, sx, sy, sw, sh, dw, dh.
  split; [exact Hrun|]. split; [|exact (conj H7 H8)].
  repeat split; assumption.
Defined.

(** ** The URL of a tile *)

Section TileUrls.

Import TileUtils.
Local Open Scope string_scope.

Lemma showZ_injective (a b : Z) : showZ a = showZ b -> a = b.
Proof.
  unfold showZ. intros Heq.
  assert (Hnonnil : forall n, Z.to_int n <> Decimal.Pos Decimal.Nil /\
                              Z.to_int n <> Decimal.Neg Decimal.Nil).
  { intros [|p|p]; cbn; split; try discriminate;
      intros [= H]; exact (DecimalPos.Unsigned.to_uint_nonnil p H). }
  pose proof (NilZero.isi (Z.to_int a) (proj1 (Hnonnil a))
                (proj2 (Hnonnil a))) as Ha.
  pose proof (NilZero.isi (Z.to_int b) (proj1 (Hnonnil b))
                (proj2 (Hnonnil b))) as Hb.
  rewrite Heq, Hb in Ha. injection Ha as Ha.
  rewrite <- (DecimalZ.of_to a), <- (DecimalZ.of_to b). now rewrite Ha.
Qed.

Lemma string_of_uint_digits (d : Decimal.uint) (c : ascii) :
  In c (list_ascii_of_string (NilEmpty.string_of_uint d)) ->
  c <> "/"%char /\ c <> "@"%char.
Proof.
  induction d; cbn [NilEmpty.string_of_uint list_ascii_of_string In];
    try tauto;
    (intros [<- | Hin]; [split; discriminate | exact (IHd Hin)]).
Qed.

Lemma showZ_digits (n : Z) (c : ascii) :
  In c (list_ascii_of_string (showZ n)) -> c <> "/"%char /\ c <> "@"%char.
Proof.
  unfold showZ.
  assert (Hu : forall d, In c (list_ascii_of_string
                                 (NilZero.string_of_uint d)) ->
                         c <> "/"%char /\ c <> "@"%char).
  { intros d. destruct d; [|apply string_of_uint_digits ..].
    apply (string_of_uint_digits (Decimal.D0 Decimal.Nil)). }
  destruct (Z.to_int n) as [d | d]; cbn [NilZero.string_of_int].
  - apply Hu.
  - cbn [list_ascii_of_string In]. intros [<- | Hin];
      [split; discriminate | exact (Hu d Hin)].
Qed.

Lemma append_cut (sep : ascii) (s s' r r' : string) :
  ~ In sep (list_ascii_of_string s) ->
  ~ In sep (list_ascii_of_string s') ->
  s ++ String sep r = s' ++ String sep r' -> s = s' /\ r = r'.
Proof.
  revert s'. induction s as [|c s IH]; intros [|c' s'] Hs Hs' Heq;
    cbn [append list_ascii_of_string In] in *.
  - injection Heq as Heq. now split.
  - injection Heq as Hc Heq. subst c'. tauto.
  - injection Heq as Hc Heq. subst c. tauto.
  - injection Heq as Hc Heq. subst c'.
    destruct (IH s') as [-> ->]; tauto.
Qed.

Lemma append_same_prefix (p a b : string) : p ++ a = p ++ b -> a = b.
Proof.
  induction p as [|c p IH]; cbn [append]; [tauto|].
  intros [= H]. exact (IH H).
Qed.

Lemma tile_path_injective (t t' : TileCoord) (rest rest' : string) :
  showZ (z t) ++ "/" ++ showZ (x t) ++ "/" ++ showZ (y t)
    ++ String "@" rest
  = showZ (z t') ++ "/" ++ showZ (x t') ++ "/" ++ showZ (y t')
    ++ String "@" rest' ->
  t = t' /\ rest = rest'.
Proof.
  intros Heq.
  apply append_cut in Heq as [Hz Heq];
    try (intros Hin; apply showZ_digits in Hin; tauto).
  apply append_cut in Heq as [Hx Heq];
    try (intros Hin; apply showZ_digits in Hin; tauto).
  apply append_cut in Heq as [Hy Heq];
    try (intros Hin; apply showZ_digits in Hin; tauto).
  apply showZ_injective in Hz, Hx, Hy.
  destruct t, t'; cbn in *; subst. now split.
Qed.

Lemma append_assoc (a b c : string) : (a ++ b) ++ c = a ++ b ++ c.
Proof.
  induction a as [|ch a IH]; cbn [append]; [reflexivity | now rewrite IH].
Qed.

(** X19. The URL determines the request: two calls of [getMapboxTileUrl]
    that build the same URL were given the same tile, the same style and the
    same token. In particular the tiles of one stitch, which differ in [x]
    or [y], are fetched from pairwise different URLs. *)
Theorem getMapboxTileUrl_injective (tile tile' : TileCoord)
    (style style' : TileStyle) (token token' : string) :
  getMapboxTileUrl tile style token = getMapboxTileUrl tile' style' token' ->
  tile = tile' /\ style = style' /\ token = token'.
Proof.
  unfold getMapboxTileUrl. cbv zeta. rewrite !append_assoc.
  destruct style, style'; intros Heq;
    try (exfalso; cbn [append] in Heq; congruence);
    apply append_same_prefix in Heq;
    apply tile_path_injective in Heq as [Ht Hrest];
    apply (append_same_prefix "2x.jpg?access_token=") in Hrest
    || apply (append_same_prefix "2x?access_token=") in Hrest
    || apply (append_same_prefix "2x.png?access_token=") in Hrest;
    auto.
Qed.

End TileUrls.

Lemma getMapboxTileUrl_injective_witness :
  TileUtils.mkTileCoord 543 228 10 = TileUtils.mkTileCoord 543 228 10 /\
  TileUtils.TerrainRgb = TileUtils.TerrainRgb /\
  "token"%string = "token"%string.
Proof.
  apply (getMapboxTileUrl_injective
           (TileUtils.mkTileCoord 543 228 10)
           (TileUtils.mkTileCoord 543 228 10)
           TileUtils.TerrainRgb TileUtils.TerrainRgb "token" "token").
  reflexivity.
Defined.

(** ** The buildings route *)

Section BuildingFeatures.

Import Buildings.
Local Open Scope Q_scope.

(** X20. [convertPoint] maps the square of the tile onto the bounds of the
    tile with the vertical axis turned: the corner [(0, 0)] goes to the
    north-west corner, the corner [(extent, extent)] to the south-east
    corner, and every point of the square to a point within the bounds. *)
Theorem convertPoint_within_tile (tileBbox : TileUtils.BoundingBox)
    (extent : Q) (p : Point) :
  0 < extent ->
  TileUtils.minLon tileBbox <= TileUtils.maxLon tileBbox ->
  TileUtils.minLat tileBbox <= TileUtils.maxLat tileBbox ->
  0 <= x p <= extent -> 0 <= y p <= extent ->
  (TileUtils.minLon tileBbox <= fst (convertPoint tileBbox extent p)
   <= TileUtils.maxLon tileBbox) /\
  (TileUtils.minLat tileBbox <= snd (convertPoint tileBbox extent p)
   <= TileUtils.maxLat tileBbox) /\
  fst (convertPoint tileBbox extent (mkPoint 0 0))
  == TileUtils.minLon tileBbox /\
  snd (convertPoint tileBbox extent (mkPoint 0 0))
  == TileUtils.maxLat tileBbox /\
  fst (convertPoint tileBbox extent (mkPoint extent extent))
  == TileUtils.maxLon tileBbox /\
  snd (convertPoint tileBbox extent (mkPoint extent extent))
  == TileUtils.minLat tileBbox.
Proof.
  intros He Hlon Hlat [Hx0 Hx1] [Hy0 Hy1].
  unfold convertPoint. cbn [fst snd x y].
  set (w := TileUtils.maxLon tileBbox - TileUtils.minLon tileBbox).
  set (h := TileUtils.maxLat tileBbox - TileUtils.minLat tileBbox).
  assert (Hw : 0 <= w) by (unfold w; lra).
  assert (Hh : 0 <= h) by (unfold h; lra).
  assert (Hpart : forall t d, 0 <= t <= extent -> 0 <= d ->
                              0 <= t / extent * d <= d).
  { intros t d [Ht0 Ht1] Hd.
    assert (H0 : 0 <= t / extent) by (apply Qle_shift_div_l; lra).
    assert (H1 : t / extent <= 1) by (apply Qle_shift_div_r; lra).
    split; [apply Qmult_le_0_compat; assumption|].
    setoid_replace d with (1 * d) at 2 by ring.
    apply Qmult_le_compat_r; assumption. }
  pose proof (Hpart (x p) w (conj Hx0 Hx1) Hw) as [Hxa Hxb].
  pose proof (Hpart (y p) h (conj Hy0 Hy1) Hh) as [Hya Hyb].
  split; [|split].
  - generalize dependent (x p / extent * w). intros dx Hxa Hxb.
    unfold w in Hxb. split; lra.
  - generalize dependent (y p / extent * h). intros dy Hya Hyb.
    unfold h in Hyb. split; lra.
  - unfold w, h. repeat split; field; lra.
Qed.







Variable tileToBBOX : Z * Z * Z -> Q * Q * Q * Q.




End BuildingFeatures.


(** The run of that example: the building 7 is returned once, with the
    height 12 of its first reading, and the building without id, whose
    height 0 is falsy, with the height 5. *)
Example collectBuildings_two_tiles :
  let square :=
    [[Buildings.mkPoint 0 0; Buildings.mkPoint 4096 0;
      Buildings.mkPoint 4096 4096; Buildings.mkPoint 0 0]] in
  let first :=
    Buildings.mkVectorTileFeature (Some 7%Z) 4096 (Some square) (Some 12%Q)
      None in
  let again :=
    Buildings.mkVectorTileFeature (Some 7%Z) 4096 (Some square) None
      (Some 9%Q) in
  let plain :=
    Buildings.mkVectorTileFeature None 4096 (Some square) (Some 0%Q) None in
  map (fun g => (Buildings.featureId g, Buildings.featureHeight g))
      (Buildings.collectBuildings Fixtures.gridTileToBBOX
         [(TileUtils.mkTileCoord 544 228 10, Some [Some first]);
          (TileUtils.mkTileCoord 543 228 10, Some [Some again; Some plain])])
  = [(Some 7%Z, 12%Q); (None, 5%Q)].
Proof. reflexivity. Qed.

(** An id is added to [seenIds] before the geometry is loaded: when the
    geometry of the building 7 throws in the tile that arrives first, the
    building is skipped as a duplicate in the next tile, which holds it
    intact, and is not returned at all. *)
Example collectBuildings_loses_a_building :
  let square :=
    [[Buildings.mkPoint 0 0; Buildings.mkPoint 4096 0;
      Buildings.mkPoint 4096 4096; Buildings.mkPoint 0 0]] in
  let broken :=
    Buildings.mkVectorTileFeature (Some 7%Z) 4096 None (Some 12%Q) None in
  let intact :=
    Buildings.mkVectorTileFeature (Some 7%Z) 4096 (Some square) (Some 12%Q)
      None in
  Buildings.collectBuildings Fixtures.gridTileToBBOX
    [(TileUtils.mkTileCoord 544 228 10, Some [Some broken]);
     (TileUtils.mkTileCoord 543 228 10, Some [Some intact])]
  = [] /\
  map Buildings.featureId
    (Buildings.collectBuildings Fixtures.gridTileToBBOX
       [(TileUtils.mkTileCoord 543 228 10, Some [Some intact]);
        (TileUtils.mkTileCoord 544 228 10, Some [Some broken])])
  = [Some 7%Z].
Proof. split; reflexivity. Qed.

Lemma convertPoint_within_tile_witness :
  let tileBbox :=
    TileUtils.tileToBoundingBox Fixtures.gridTileToBBOX
      (TileUtils.mkTileCoord 543 228 10) in
  let p := Buildings.mkPoint 2048 1024 in
  ((TileUtils.minLon tileBbox <= fst (Buildings.convertPoint tileBbox 4096 p)
    <= TileUtils.maxLon tileBbox) /\
   (TileUtils.minLat tileBbox <= snd (Buildings.convertPoint tileBbox 4096 p)
    <= TileUtils.maxLat tileBbox))%Q.
Proof.
  intros tileBbox p.
  destruct (convertPoint_within_tile tileBbox 4096 p)
    as (Hlon & Hlat & _);
    [ reflexivity
    | vm_compute; first [discriminate | split; discriminate] ..
    | ].
  split; assumption.
Defined.

(** ** The statistics of the Hampel filter *)

Section HampelStatistics.

Import TerrainFilters.
Local Open Scope Q_scope.

(** X22. On values that are not empty and lie within [[lo, hi]], the median
    lies within [[lo, hi]] as well, and the median absolute deviation around
    any center within [[lo, hi]] is at least 0 and at most [hi - lo]; the
    Hampel threshold [3.0 * (MAD + 0.01)] is therefore never below 0.03. *)
Theorem calculateMedian_calculateMAD_range (lo hi median : Q)
    (values : list Q) :
  values <> [] ->
  (forall v, In v values -> lo <= v <= hi) ->
  lo <= median <= hi ->
  lo <= calculateMedian values <= hi /\
  0 <= calculateMAD values median <= hi - lo /\
  0.03 <= HAMPEL_THRESHOLD_MULTIPLIER * (calculateMAD values median + 0.01).
Proof.
  intros Hne Hall Hm.
  assert (Hmad : 0 <= calculateMAD values median <= hi - lo).
  { unfold calculateMAD. cbv zeta.
    apply calculateMedian_within.
    - destruct values; [congruence | discriminate].
    - intros d Hd. apply in_map_iff in Hd as (v & <- & Hv).
      specialize (Hall v Hv). split; [apply Qabs_nonneg|].
      apply Qabs_Qle_condition. split; lra. }
  split; [now apply calculateMedian_within|]. split; [exact Hmad|].
  unfold HAMPEL_THRESHOLD_MULTIPLIER. lra.
Qed.

End HampelStatistics.

Lemma calculateMedian_calculateMAD_range_witness :
  (100 <= TerrainFilters.calculateMedian [100; 5000; 100; 250] <= 5000 /\
   0 <= TerrainFilters.calculateMAD [100; 5000; 100; 250] 175 <= 5000 - 100 /\
   0.03 <= TerrainFilters.HAMPEL_THRESHOLD_MULTIPLIER
           * (TerrainFilters.calculateMAD [100; 5000; 100; 250] 175 + 0.01))%Q.
Proof.
  apply (calculateMedian_calculateMAD_range 100 5000 175
           [100; 5000; 100; 250]%Q).
  - discriminate.
  - intros v Hv.
    repeat (destruct Hv as [<- | Hv]; [split; discriminate|]).
    destruct Hv.
  - split; discriminate.
Defined.
